(** * clever-inspect: the document-processing edge functions

    A shallow embedding of the Deno edge functions of the repository
    (analyze-docs, the two pipelines and process-documents) together
    with the properties their specification states about them.

    Conventions of the embedding.
    - A JavaScript string is a [string]: a sequence of code units, here
      restricted to the Latin-1 range (one [ascii] per code unit).
    - A value of type [unknown] / [any] is a [json] tree.
    - Platform functions whose code is not part of the repository
      ([JSON.parse], [fetch] against the external services) are fields of a
      [Platform] / environment record; every theorem quantifies over them.
    - An [async] function that may throw returns a [result].
    - A conversion of a value to a string is total as a text
      ([Json.to_String]) and may throw as a call ([Throwing.to_String]). *)

From stdpp Require Import gmap strings.
From Stdlib Require Import Ascii String List ZArith NArith Bool Lia DecimalString DecimalNat Sorted.
Import ListNotations.

Local Open Scope string_scope.
Local Open Scope list_scope.
Local Open Scope Z_scope.

(* ===================================================================== *)
(** * Part I. Definitions                                                 *)
(* ===================================================================== *)

(** ** JavaScript strings *)

Module JS.

Definition code (c : ascii) : N := N_of_ascii c.

Definition in_range (lo hi : N) (c : ascii) : bool :=
  ((lo <=? code c) && (code c <=? hi))%N.

(** [\d] *)
Definition is_digit : ascii -> bool := in_range 48 57.
Definition is_upper : ascii -> bool := in_range 65 90.
Definition is_lower : ascii -> bool := in_range 97 122.
(** [[A-Z]] under the [i] flag: in the Latin-1 range only the ASCII letters
    canonicalise to a member of the class. *)
Definition is_alpha (c : ascii) : bool := is_upper c || is_lower c.

(** [\s], and the characters removed by [String.prototype.trim]: TAB, LF, VT,
    FF, CR, SPACE and NBSP are the white space and line terminators below
    U+0100. *)
Definition is_space (c : ascii) : bool :=
  in_range 9 13 c || (code c =? 32)%N || (code c =? 160)%N.

Definition to_lower (c : ascii) : ascii :=
  if is_upper c then ascii_of_N (code c + 32) else c.

(** A literal character under the [i] flag. *)
Definition char_ci (x c : ascii) : bool := Ascii.eqb (to_lower x) (to_lower c).
Definition char_is (x c : ascii) : bool := Ascii.eqb x c.

(** [s.length] *)
Definition len (s : string) : Z := Z.of_nat (String.length s).

(** ToBoolean on a string: the empty string is the only falsy one. *)
Definition nonempty (s : string) : bool :=
  match s with EmptyString => false | String _ _ => true end.

Fixpoint trimStart (s : string) : string :=
  match s with
  | String c s' => if is_space c then trimStart s' else s
  | EmptyString => EmptyString
  end.

Fixpoint trimEnd (s : string) : string :=
  match s with
  | String c s' =>
      match trimEnd s' with
      | EmptyString => if is_space c then EmptyString else String c EmptyString
      | t => String c t
      end
  | EmptyString => EmptyString
  end.

(** [s.trim()] *)
Definition trim (s : string) : string := trimEnd (trimStart s).

(** [s.includes(c)] for a one-character needle. *)
Fixpoint includes (c : ascii) (s : string) : bool :=
  match s with
  | String x s' => Ascii.eqb x c || includes c s'
  | EmptyString => false
  end.

(** [s.split(c)] for a one-character separator: the pieces between the
    occurrences of [c]; the empty string splits into one empty piece. *)
Fixpoint split (c : ascii) (s : string) : list string :=
  match s with
  | EmptyString => [EmptyString]
  | String x s' =>
      if Ascii.eqb x c then EmptyString :: split c s'
      else match split c s' with
           | p :: ps => String x p :: ps
           | [] => [String x EmptyString]
           end
  end.

(** [l.join(sep)] on an array of strings. *)
Definition join (sep : string) (l : list string) : string := String.concat sep l.

(** [s.replace(/C/g, '')] for a one-character class [C]. *)
Fixpoint remove_all (p : ascii -> bool) (s : string) : string :=
  match s with
  | String c s' => if p c then remove_all p s' else String c (remove_all p s')
  | EmptyString => EmptyString
  end.

(** [s.replace(c, d)] for one-character strings: only the first occurrence. *)
Fixpoint replace_first (c d : ascii) (s : string) : string :=
  match s with
  | String x s' => if Ascii.eqb x c then String d s' else String x (replace_first c d s')
  | EmptyString => EmptyString
  end.

(** [s.substring(0, n)] / [s.slice(0, n)] for [n >= 0]. *)
Definition take (n : nat) (s : string) : string := String.substring 0 n s.

End JS.

(** ** Regular expressions

    A backtracking matcher in the style of the ECMAScript specification:
    alternatives are tried left to right, quantifiers are greedy, and the
    matcher returns the outcomes in the order a backtracking engine would
    reach them, so the head of the list is the match the engine reports. *)

Module RegExp.

Inductive regex : Type :=
| Eps                                   (* the empty pattern *)
| Chars (p : ascii -> bool)             (* a character class or a literal *)
| Cat (r1 r2 : regex)                   (* r1r2 *)
| Alt (r1 r2 : regex)                   (* r1|r2 *)
| Star (r : regex)                      (* r*, greedy *)
| Group (n : nat) (r : regex)           (* the n-th capturing group *)
| Bol                                   (* ^ *)
| Eol.                                  (* $ *)

(** r+, r?, r{n}, r{n,m} *)
Definition Plus (r : regex) : regex := Cat r (Star r).
Definition Opt (r : regex) : regex := Alt r Eps.
Fixpoint Times (n : nat) (r : regex) : regex :=
  match n with O => Eps | S n' => Cat r (Times n' r) end.
Fixpoint UpTo (n : nat) (r : regex) : regex :=
  match n with O => Eps | S n' => Opt (Cat r (UpTo n' r)) end.
Definition Between (n m : nat) (r : regex) : regex := Cat (Times n r) (UpTo (m - n) r).

(** A literal word, case-sensitive or under the [i] flag. *)
Fixpoint Lit (s : string) : regex :=
  match s with
  | EmptyString => Eps
  | String c s' => Cat (Chars (JS.char_is c)) (Lit s')
  end.
Fixpoint LitCI (s : string) : regex :=
  match s with
  | EmptyString => Eps
  | String c s' => Cat (Chars (JS.char_ci c)) (LitCI s')
  end.

(** The position in the subject: the index reached and the text ahead. *)
Record cursor : Type := Cursor { index : nat; ahead : string }.

Definition captures : Type := list (nat * string).
Definition outcome : Type := (cursor * captures)%type.

Definition star_body (step : cursor -> captures -> list outcome) :=
  fix iter (fuel : nat) (cur : cursor) (caps : captures) : list outcome :=
    match fuel with
    | O => [(cur, caps)]
    | S fuel' =>
        flat_map (fun o : outcome =>
                    (* an iteration that consumes nothing is not repeated *)
                    if Nat.eqb (index (fst o)) (index cur) then []
                    else iter fuel' (fst o) (snd o))
                 (step cur caps)
        ++ [(cur, caps)]
    end.

Fixpoint run (r : regex) (cur : cursor) (caps : captures) : list outcome :=
  match r with
  | Eps => [(cur, caps)]
  | Chars p =>
      match ahead cur with
      | String c s' => if p c then [(Cursor (S (index cur)) s', caps)] else []
      | EmptyString => []
      end
  | Cat r1 r2 => flat_map (fun o : outcome => run r2 (fst o) (snd o)) (run r1 cur caps)
  | Alt r1 r2 => run r1 cur caps ++ run r2 cur caps
  | Star r1 => star_body (run r1) (String.length (ahead cur)) cur caps
  | Group n r1 =>
      map (fun o : outcome =>
             (fst o, (n, JS.take (index (fst o) - index cur) (ahead cur)) :: snd o))
          (run r1 cur caps)
  | Bol => if Nat.eqb (index cur) 0 then [(cur, caps)] else []
  | Eol => match ahead cur with EmptyString => [(cur, caps)] | _ => [] end
  end.

(** What [RegExp.prototype.exec] reports: where the match starts, where it
    ends and what the groups captured. *)
Record match_result : Type :=
  Match { m_start : nat; m_end : nat; m_rest : string; m_groups : captures }.

(** Try the pattern at the cursor, then one character further, and so on. *)
Fixpoint exec_from (r : regex) (i : nat) (s : string) : option match_result :=
  match run r (Cursor i s) [] with
  | (cur, caps) :: _ => Some (Match i (index cur) (ahead cur) caps)
  | [] =>
      match s with
      | String _ s' => exec_from r (S i) s'
      | EmptyString => None
      end
  end.

(** [r.exec(s)] / [s.match(r)] without the [g] flag. *)
Definition exec (r : regex) (s : string) : option match_result := exec_from r 0 s.

(** [r.test(s)] *)
Definition test (r : regex) (s : string) : bool :=
  match exec r s with Some _ => true | None => false end.

(** The text of a capturing group of a match. *)
Fixpoint group (n : nat) (caps : captures) : option string :=
  match caps with
  | (k, v) :: caps' => if Nat.eqb k n then Some v else group n caps'
  | [] => None
  end.

(** [m[0]]: the matched text. *)
Definition matched (s : string) (m : match_result) : string :=
  String.substring (m_start m) (m_end m - m_start m) s.

(** [s.split(r)], after the SplitMatcher loop of the specification: [piece]
    holds, reversed, the characters since the last separator. *)
Fixpoint rev_string (acc s : string) : string :=
  match s with
  | EmptyString => acc
  | String c s' => rev_string (String c acc) s'
  end.

Fixpoint split_loop (fuel : nat) (r : regex) (piece : string) (cur : cursor) : list string :=
  match fuel with
  | O => [rev_string EmptyString piece]
  | S fuel' =>
      match ahead cur with
      | EmptyString => [rev_string EmptyString piece]
      | String c s' =>
          let advance := split_loop fuel' r (String c piece) (Cursor (S (index cur)) s') in
          match run r cur [] with
          | [] => advance
          | (cur', _) :: _ =>
              if Nat.eqb (index cur') (index cur) && negb (JS.nonempty piece)
              then advance
              else rev_string EmptyString piece :: split_loop fuel' r EmptyString cur'
          end
      end
  end.

Definition split (r : regex) (s : string) : list string :=
  match s with
  | EmptyString => match run r (Cursor 0 s) [] with [] => [s] | _ => [] end
  | _ => split_loop (2 * String.length s + 1) r EmptyString (Cursor 0 s)
  end.

(** *** What a pattern matches

    [Matches r cur cur'] reads: the pattern [r] can consume the text between
    the cursors [cur] and [cur'].  It says which matches exist, not which one
    the engine prefers. *)
Inductive Matches : regex -> cursor -> cursor -> Prop :=
| M_Eps cur : Matches Eps cur cur
| M_Chars p i c s : p c = true -> Matches (Chars p) (Cursor i (String c s)) (Cursor (S i) s)
| M_Cat r1 r2 cur cur1 cur2 :
    Matches r1 cur cur1 -> Matches r2 cur1 cur2 -> Matches (Cat r1 r2) cur cur2
| M_Alt_l r1 r2 cur cur' : Matches r1 cur cur' -> Matches (Alt r1 r2) cur cur'
| M_Alt_r r1 r2 cur cur' : Matches r2 cur cur' -> Matches (Alt r1 r2) cur cur'
| M_Star_stop r cur : Matches (Star r) cur cur
| M_Star_more r cur cur1 cur2 :
    Matches r cur cur1 -> index cur1 <> index cur -> Matches (Star r) cur1 cur2 ->
    Matches (Star r) cur cur2
| M_Group n r cur cur' : Matches r cur cur' -> Matches (Group n r) cur cur'
| M_Bol s : Matches Bol (Cursor 0 s) (Cursor 0 s)
| M_Eol i : Matches Eol (Cursor i EmptyString) (Cursor i EmptyString).

(** The words of a pattern without anchors: [lang r w] reads "[r] matches
    the whole of [w]". *)
Fixpoint anchor_free (r : regex) : bool :=
  match r with
  | Eps | Chars _ => true
  | Cat r1 r2 | Alt r1 r2 => anchor_free r1 && anchor_free r2
  | Star r1 | Group _ r1 => anchor_free r1
  | Bol | Eol => false
  end.

Fixpoint group_free (r : regex) : bool :=
  match r with
  | Eps | Chars _ | Bol | Eol => true
  | Cat r1 r2 | Alt r1 r2 => group_free r1 && group_free r2
  | Star r1 => group_free r1
  | Group _ _ => false
  end.

Fixpoint flatten (ws : list string) : string :=
  match ws with
  | [] => EmptyString
  | u :: ws' => (u ++ flatten ws')%string
  end.

Fixpoint lang (r : regex) (w : string) : Prop :=
  match r with
  | Eps => w = EmptyString
  | Chars p => exists c, w = String c EmptyString /\ p c = true
  | Cat r1 r2 => exists u v, w = (u ++ v)%string /\ lang r1 u /\ lang r2 v
  | Alt r1 r2 => lang r1 w \/ lang r2 w
  | Star r1 =>
      exists ws, w = flatten ws /\ Forall (fun u => u <> EmptyString /\ lang r1 u) ws
  | Group _ r1 => lang r1 w
  | Bol | Eol => False
  end.

End RegExp.

(** ** Text chunker (enhanced pipeline) *)

Module Chunker.

Definition is_terminator (c : ascii) : bool :=
  JS.char_is "." c || JS.char_is "!" c || JS.char_is "?" c.

(** [/[.!?]+/] *)
Definition sentence_end : RegExp.regex := RegExp.Plus (RegExp.Chars is_terminator).

(** [text.split(/[.!?]+/).filter(s => s.trim())] *)
Definition sentences (text : string) : list string :=
  List.filter (fun s => JS.nonempty (JS.trim s)) (RegExp.split sentence_end text).

(** The loop state: the chunks pushed so far and [currentChunk]. *)
Definition state : Type := (list string * string)%type.

(** One turn of [for (const sentence of sentences)]. *)
Definition step (maxChunkSize : Z) (st : state) (sentence : string) : state :=
  let '(chunks, currentChunk) := st in
  if (JS.len (currentChunk ++ sentence) >? maxChunkSize) && JS.nonempty currentChunk
  then (chunks ++ [JS.trim currentChunk], JS.trim sentence)
  else (chunks,
        currentChunk ++ (if JS.nonempty currentChunk then ". " else "") ++ JS.trim sentence)%string.

(** The chunks assembled by the loop and the final flush, before the
    length filter. *)
Definition assemble (maxChunkSize : Z) (ss : list string) : list string :=
  let '(chunks, currentChunk) := fold_left (step maxChunkSize) ss ([], EmptyString) in
  if JS.nonempty currentChunk then chunks ++ [JS.trim currentChunk] else chunks.

(** [chunk.length > 20] *)
Definition long_enough (chunk : string) : bool := JS.len chunk >? 20.

Definition chunkText (text : string) (maxChunkSize : Z) : list string :=
  List.filter long_enough (assemble maxChunkSize (sentences text)).

Definition default_maxChunkSize : Z := 500.

End Chunker.

(** ** Values of type [unknown]: JSON trees *)

Module Json.

#[local] Set Warnings "-register-all".

(** A number is carried by the two observations the program makes of it:
    whether it is truthy (neither 0 nor NaN) and its [String(...)] text. *)
Inductive json : Type :=
| JNull
| JBool (b : bool)
| JNum (nonzero : bool) (shown : string)
| JStr (s : string)
| JArr (items : list json)
| JObj (fields : list (string * json)).

Fixpoint assoc (k : string) (fs : list (string * json)) : option json :=
  match fs with
  | (k', v) :: fs' => if String.eqb k' k then Some v else assoc k fs'
  | [] => None
  end.

(** [v.k] and [v?.k]; [None] is [undefined].  The keys the program reads
    (content, texts, extracted, supplier, ...) are own properties of objects
    only, so every other value answers [undefined]. *)
Definition get (k : string) (v : json) : option json :=
  match v with
  | JObj fs => assoc k fs
  | _ => None
  end.

(** ToBoolean *)
Definition truthy (v : option json) : bool :=
  match v with
  | None | Some JNull => false
  | Some (JBool b) => b
  | Some (JNum nonzero _) => nonzero
  | Some (JStr s) => JS.nonempty s
  | Some (JArr _) | Some (JObj _) => true
  end.

(** [typeof v === 'string'] *)
Definition is_string (v : option json) : bool :=
  match v with Some (JStr _) => true | _ => false end.

(** The text [String(v)] returns, when it returns; an array joins the texts
    of its elements with commas, [null] elements contributing nothing.  The
    conversion itself throws on some values: see [converts]. *)
Fixpoint to_String (v : json) : string :=
  match v with
  | JNull => "null"
  | JBool true => "true"
  | JBool false => "false"
  | JNum _ shown => shown
  | JStr s => s
  | JArr items =>
      JS.join "," (map (fun x => match x with JNull => EmptyString | _ => to_String x end) items)
  | JObj _ => "[object Object]"
  end.

Definition to_String_opt (v : option json) : string :=
  match v with Some x => to_String x | None => "undefined" end.

(** The text [a.join(sep)] returns on an array of arbitrary values, when
    it returns. *)
Definition join_values (sep : string) (items : list json) : string :=
  JS.join sep (map (fun x => match x with JNull => EmptyString | _ => to_String x end) items).

(** Whether the conversion of [v] to a string returns.  An object is
    converted by its [toString] method and then by its [valueOf] method.  An
    object with an own key "toString" holds there a parsed JSON value, which
    is not callable, and [valueOf] gives no primitive either: the conversion
    throws a TypeError.  Every other object inherits [toString] and answers
    "[object Object]".  An array converts its elements, [null] apart. *)
Fixpoint converts (v : json) : bool :=
  match v with
  | JArr items => forallb (fun x => match x with JNull => true | _ => converts x end) items
  | JObj fields => match assoc "toString" fields with Some _ => false | None => true end
  | _ => true
  end.

(** [{}] *)
Definition empty_object : json := JObj [].

End Json.

Export Json (json(..)).

(** ** Field validator (enhanced pipeline) *)

Module Validator.
Import RegExp.

Record ValidationResult : Type :=
  { passed : bool; errors : list string; warnings : list string }.

Definition requiredFields : list string := ["supplier"; "buyer"; "product"].

(** [!extracted[field] || (typeof extracted[field] === 'string' &&
    !extracted[field].trim())] *)
Definition missing (v : option json) : bool :=
  negb (Json.truthy v)
  || match v with
     | Some (JStr s) => negb (JS.nonempty (JS.trim s))
     | _ => false
     end.

Definition missing_msg (field : string) : string := "Missing required field: " ++ field.

(** [/^(INV|INVOICE|#)?-?\d{3,10}$/i] *)
Definition invoice_re : regex :=
  Cat Bol
  (Cat (Opt (Group 1 (Alt (LitCI "INV") (Alt (LitCI "INVOICE") (LitCI "#")))))
  (Cat (Opt (Lit "-"))
  (Cat (Between 3 10 (Chars JS.is_digit))
       Eol))).

(** [/^\d{6,10}$/] *)
Definition hs_re : regex := Cat Bol (Cat (Between 6 10 (Chars JS.is_digit)) Eol).

(** [/^[A-Z]{4}\d{7}$/i] *)
Definition container_re : regex :=
  Cat Bol (Cat (Times 4 (Chars JS.is_alpha)) (Cat (Times 7 (Chars JS.is_digit)) Eol)).

Definition is_dot_or_comma (c : ascii) : bool := JS.char_is "." c || JS.char_is "," c.

(** [(\d+(?:[.,]\d+)?)] *)
Definition number_re : regex :=
  Cat (Plus (Chars JS.is_digit))
      (Opt (Cat (Chars is_dot_or_comma) (Plus (Chars JS.is_digit)))).

(** [(kg|lbs?|tons?|tonnes?)] under the [i] flag *)
Definition unit_re : regex :=
  Alt (LitCI "kg")
 (Alt (Cat (LitCI "lb") (Opt (LitCI "s")))
 (Alt (Cat (LitCI "ton") (Opt (LitCI "s")))
      (Cat (LitCI "tonne") (Opt (LitCI "s"))))).

(** [/(\d+(?:[.,]\d+)?)\s*(kg|lbs?|tons?|tonnes?)/i] *)
Definition weight_re : regex :=
  Cat (Group 1 number_re) (Cat (Star (Chars JS.is_space)) (Group 2 unit_re)).

Definition is_dash_or_slash (c : ascii) : bool := JS.char_is "-" c || JS.char_is "/" c.

(** [/\d{1,2}[-\/]\d{1,2}[-\/]\d{2,4}/] *)
Definition date_re : regex :=
  Cat (Between 1 2 (Chars JS.is_digit))
 (Cat (Chars is_dash_or_slash)
 (Cat (Between 1 2 (Chars JS.is_digit))
 (Cat (Chars is_dash_or_slash)
      (Between 2 4 (Chars JS.is_digit))))).

(** [/\d+/] *)
Definition quantity_re : regex := Plus (Chars JS.is_digit).

Definition invoice_msg : string :=
  "Invoice number format may be invalid (expected: INV-12345 or similar)".
Definition hs_msg : string := "HS Code format invalid (expected: 6-10 digits)".
Definition container_msg : string := "Container number format invalid (expected: ABCD1234567)".
Definition weight_format_msg : string :=
  String.concat (String (ascii_of_nat 34) EmptyString)
    ["Weight format unclear (expected: number + unit like "; "1000 kg"; ")"].
Definition weight_value_msg : string := "Weight value seems unrealistic".
Definition date_msg : string := "Inspection date format unclear".
Definition quantity_msg : string := "Quantity format unclear (should contain numbers)".

(** *** The number read by [parseFloat]

    The text handed to [parseFloat] is a run of digits, optionally followed
    by a dot and a second run of digits.  It denotes the decimal
    [mantissa / 10^scale]; [parseFloat] returns the IEEE double nearest to
    it (ties to even), and the two comparisons of the validator are decided
    on that double. *)
Record decimal : Type := Decimal { mantissa : N; scale : N }.

Definition digit_value (c : ascii) : N := (JS.code c - 48)%N.

(** Reads the longest prefix of the shape digits[.digits]. *)
Fixpoint read_digits (acc : N) (count : N) (s : string) : N * N * string :=
  match s with
  | String c s' =>
      if JS.is_digit c then read_digits (acc * 10 + digit_value c)%N (count + 1)%N s'
      else (acc, count, s)
  | EmptyString => (acc, count, s)
  end.

Definition parseFloat (s : string) : option decimal :=
  let '(int_part, n, rest) := read_digits 0 0 s in
  if (n =? 0)%N then None
  else match rest with
       | String "." rest' =>
           let '(all, k, _) := read_digits int_part 0 rest' in
           Some (Decimal all k)
       | _ => Some (Decimal int_part 0)
       end.

(** [parseFloat] answers [None] for NaN, on which both comparisons are
    false.

    [value <= 0]: the double is zero exactly when the decimal is at most
    half the smallest subnormal, 2^-1075 (the tie rounds to the even 0). *)
Definition le_zero (d : decimal) : bool :=
  (mantissa d * 2 ^ 1075 <=? 10 ^ scale d)%N.

(** [value > 100000]: the double above 100000 is 100000 + 2^-36, so the
    double exceeds 100000 exactly when the decimal exceeds 100000 + 2^-37
    (the tie rounds to the even 100000). *)
Definition gt_100000 (d : decimal) : bool :=
  ((100000 * 2 ^ 37 + 1) * 10 ^ scale d <? mantissa d * 2 ^ 37)%N.

(** The warnings of the weight block. *)
Definition weight_warnings (v : option json) : list string :=
  if Json.truthy v then
    let weight := Json.to_String_opt v in
    match exec weight_re weight with
    | None => [weight_format_msg]
    | Some weightMatch =>
        match group 1 (m_groups weightMatch) with
        | None => []
        | Some g1 =>
            match parseFloat (JS.replace_first "," "." g1) with
            | Some value =>
                (* value <= 0 || value > 100000 *)
                if le_zero value || gt_100000 value then [weight_value_msg] else []
            | None => []
            end
        end
    end
  else [].

(** A format rule: when the field is truthy and its text fails the test, one
    warning. *)
Definition format_warning (v : option json) (ok : string -> bool) (msg : string)
  : list string :=
  if Json.truthy v then
    if ok (Json.to_String_opt v) then [] else [msg]
  else [].

(** The result [validateDocument] returns, when it returns; the call
    itself, which throws where a conversion to a string does, is
    [Throwing.validateDocument] below. *)
Definition validateDocument (extracted : json) : ValidationResult :=
  let errors :=
    flat_map (fun field =>
                if missing (Json.get field extracted) then [missing_msg field] else [])
             requiredFields in
  let warnings :=
    format_warning (Json.get "invoiceNumber" extracted) (test invoice_re) invoice_msg
    ++ format_warning (Json.get "hsCode" extracted)
         (fun s => test hs_re (JS.remove_all JS.is_space s)) hs_msg
    ++ format_warning (Json.get "containerNo" extracted)
         (fun s => test container_re (JS.remove_all JS.is_space s)) container_msg
    ++ weight_warnings (Json.get "weight" extracted)
    ++ format_warning (Json.get "inspectionDate" extracted) (test date_re) date_msg
    ++ format_warning (Json.get "quantityDeclared" extracted) (test quantity_re) quantity_msg in
  {| passed := Nat.eqb (List.length errors) 0; errors := errors; warnings := warnings |}.

End Validator.

(** ** Exceptions, HTTP exchanges and the platform *)

Module Http.

(** A thrown [Error]: [String(error)] is "name: message". *)
Record exn : Type := Exn { name : string; message : string }.

Definition exn_String (e : exn) : string := (name e ++ ": " ++ message e)%string.

Definition Error (msg : string) : exn := Exn "Error" msg.
Definition TypeError (msg : string) : exn := Exn "TypeError" msg.
Definition SyntaxError (msg : string) : exn := Exn "SyntaxError" msg.

(** The outcome of evaluating code that may throw. *)
Inductive result (A : Type) : Type :=
| Ok (a : A)
| Throw (e : exn).
Arguments Ok {A} a.
Arguments Throw {A} e.

Definition bind {A B : Type} (m : result A) (k : A -> result B) : result B :=
  match m with
  | Ok a => k a
  | Throw e => Throw e
  end.

(** [try { m } catch { h }] *)
Definition catch {A : Type} (m : result A) (h : exn -> result A) : result A :=
  match m with
  | Ok a => Ok a
  | Throw e => h e
  end.

(** What [await fetch(...)] produces: a rejected promise, or a response
    with its status line and body text. *)
Inductive fetched : Type :=
| NetworkError (e : exn)
| Responded (status : Z) (statusText : string) (body : string).

(** [response.ok] *)
Definition ok_status (status : Z) : bool := (200 <=? status) && (status <=? 299).

(** The part of the JavaScript platform the handlers call. *)
Record Platform : Type := { JSON_parse : string -> option json }.

(** [JSON.parse(text)] *)
Definition parse (P : Platform) (text : string) : result json :=
  match JSON_parse P text with
  | Some v => Ok v
  | None => Throw (SyntaxError "Unexpected token in JSON")
  end.

(** [fetch] as a promise: a network failure rejects. *)
Definition await_fetch (f : fetched) : result (Z * string * string) :=
  match f with
  | NetworkError e => Throw e
  | Responded status statusText body => Ok (status, statusText, body)
  end.

(** An incoming request: its method and its body text ([None]: no body). *)
Record Request : Type := { method : string; payload : option string }.

(** [await req.json()] on a request whose body has not been read yet. *)
Definition req_json (P : Platform) (req : Request) : result json :=
  match payload req with
  | Some text => parse P text
  | None => Throw (SyntaxError "Unexpected end of JSON input")
  end.

(** [await req.json().catch(() => ({}))] *)
Definition req_json_or_empty (P : Platform) (req : Request) : json :=
  match req_json P req with
  | Ok v => v
  | Throw _ => Json.empty_object
  end.

(** [v?.[0]] *)
Definition first_element (v : option json) : option json :=
  match v with
  | Some (JArr (x :: _)) => Some x
  | Some (JObj fs) => Json.assoc "0" fs
  | Some (JStr (String c _)) => Some (JStr (String c EmptyString))
  | _ => None
  end.

(** [v?.k] on a value that may be [undefined] *)
Definition get_opt (k : string) (v : option json) : option json :=
  match v with
  | Some x => Json.get k x
  | None => None
  end.

(** [data?.choices?.[0]?.message?.content ?? "{}"] *)
Definition completion_text (data : json) : json :=
  match get_opt "content" (get_opt "message" (first_element (Json.get "choices" data))) with
  | None | Some JNull => JStr "{}"
  | Some v => v
  end.

(** Decimal text of a count, as a template literal prints it. *)
Definition show_nat (n : nat) : string := NilEmpty.string_of_uint (Nat.to_uint n).

End Http.

Export Http (result(..), fetched(..), Platform, Request).

(** [x ← m; k] sequences two steps and lets an exception of the first skip
    the second. *)
#[export] Instance result_bind : MBind result := fun A B k m => Http.bind m k.

(** ** Conversions to a string, as calls

    [String(v)], [a.join(sep)] and [regex.test(v)] convert a value to a
    string and throw where the conversion does ([Json.converts]); the
    validator of the enhanced pipeline throws with them. *)

Module Throwing.
Import Http.

Definition cannot_convert : exn := TypeError "Cannot convert object to primitive value".

(** [String(v)] *)
Definition to_String (v : option json) : result string :=
  match v with
  | Some x => if Json.converts x then Ok (Json.to_String x) else Throw cannot_convert
  | None => Ok "undefined"
  end.

(** [a.join(sep)] *)
Definition join_values (sep : string) (items : list json) : result string :=
  if forallb (fun x => match x with JNull => true | _ => Json.converts x end) items
  then Ok (Json.join_values sep items)
  else Throw cannot_convert.

(** A format rule: [if (v && !ok(String(v))) warnings.push(msg)]. *)
Definition format_warning (v : option json) (ok : string -> bool) (msg : string)
  : result (list string) :=
  if Json.truthy v then
    text ← to_String v;
    Ok (if ok text then [] else [msg])
  else Ok [].

(** The weight block: [String(extracted.weight)], then the match and the
    range. *)
Definition weight_warnings (v : option json) : result (list string) :=
  if Json.truthy v then
    _ ← to_String v;
    Ok (Validator.weight_warnings v)
  else Ok [].

(** [validateDocument(extracted)]: reading a field of [null] throws, and so
    does the conversion of a field that does not convert. *)
Definition validateDocument (extracted : json) : result Validator.ValidationResult :=
  match extracted with
  | JNull => Throw (TypeError "Cannot read properties of null")
  | _ =>
      let errors :=
        flat_map (fun field =>
                    if Validator.missing (Json.get field extracted)
                    then [Validator.missing_msg field] else [])
                 Validator.requiredFields in
      invoice ← format_warning (Json.get "invoiceNumber" extracted)
                  (RegExp.test Validator.invoice_re) Validator.invoice_msg;
      hs ← format_warning (Json.get "hsCode" extracted)
             (fun s => RegExp.test Validator.hs_re (JS.remove_all JS.is_space s))
             Validator.hs_msg;
      container ← format_warning (Json.get "containerNo" extracted)
                    (fun s => RegExp.test Validator.container_re (JS.remove_all JS.is_space s))
                    Validator.container_msg;
      weight ← weight_warnings (Json.get "weight" extracted);
      date ← format_warning (Json.get "inspectionDate" extracted)
               (RegExp.test Validator.date_re) Validator.date_msg;
      quantity ← format_warning (Json.get "quantityDeclared" extracted)
                   (RegExp.test Validator.quantity_re) Validator.quantity_msg;
      Ok {| Validator.passed := Nat.eqb (List.length errors) 0;
            Validator.errors := errors;
            Validator.warnings := invoice ++ hs ++ container ++ weight ++ date ++ quantity |}
  end.

End Throwing.
#[export] Instance result_ret : MRet result := fun A a => Ok a.

(** ** Layout stage and OCR stage (enhanced pipeline) *)

Module Layout.

Definition bbox : Type := list Z.

Record Block : Type := { block_text : string; block_bbox : bbox }.

Record OCRResult : Type := { ocr_text : string; blocks : list Block }.

Record KeyValue : Type := { key : string; value : string; kv_bbox : bbox }.
Record Table : Type := { headers : list string; rows : list (list string); table_bbox : bbox }.
Record Section_ : Type := { type : string; content : string; section_bbox : bbox }.

Record Structure : Type :=
  { sections : list Section_; tables : list Table; keyValuePairs : list KeyValue }.

Record LayoutResult : Type := { text : string; structure : Structure }.

(** [content.split('\n').filter(line => line.trim())] *)
Definition newline : ascii := ascii_of_nat 10.
Definition lines_of (content : string) : list string :=
  List.filter (fun line => JS.nonempty (JS.trim line)) (JS.split newline content).

(** [performOCR]: one block per line; the confidence of a block is a random
    draw and is left out. *)
Definition ocr_block (index : nat) (line : string) : Block :=
  let col := Z.of_nat (index mod 3) in
  let row := Z.of_nat (index / 3) in
  {| block_text := JS.trim line;
     block_bbox := [10 + col * 200; 50 + row * 30; 200 + col * 200; 75 + row * 30] |}.

Fixpoint map_indexed {A B : Type} (f : nat -> A -> B) (i : nat) (l : list A) : list B :=
  match l with
  | [] => []
  | x :: l' => f i x :: map_indexed f (S i) l'
  end.

Definition performOCR (content : string) : OCRResult :=
  {| ocr_text := content; blocks := map_indexed ocr_block 0 (lines_of content) |}.

(** How the loop of [parseLayout] treats one line. *)
Inductive line_class : Type :=
| KeyValueLine (kv : KeyValue)
| TableRow (cells : list string)
| PlainLine.

Definition classify (line : string) : line_class :=
  if JS.includes ":" line && negb (JS.includes "|" line) then
    match JS.split ":" line with
    | k :: valueParts =>
        KeyValueLine {| key := JS.trim k;
                        value := JS.trim (JS.join ":" valueParts);
                        kv_bbox := [50; 100; 300; 120] |}
    | [] => PlainLine
    end
  else if JS.includes "|" line then TableRow (map JS.trim (JS.split "|" line))
  else PlainLine.

(** The two arrays the loop fills: [keyValuePairs] and [tableData]. *)
Definition scan_step (acc : list KeyValue * list (list string)) (line : string)
  : list KeyValue * list (list string) :=
  match classify line with
  | KeyValueLine kv => (fst acc ++ [kv], snd acc)
  | TableRow cells => (fst acc, snd acc ++ [cells])
  | PlainLine => acc
  end.

Definition scan (lines : list string) : list KeyValue * list (list string) :=
  fold_left scan_step lines ([], []).

(** [tableData.length > 1 ? [{ headers: tableData[0] || [], rows:
    tableData.slice(1), ... }] : []] *)
Definition tables_of (tableData : list (list string)) : list Table :=
  if (Z.of_nat (List.length tableData) >? 1) then
    [ {| headers := hd [] tableData; rows := tl tableData; table_bbox := [50; 200; 500; 300] |} ]
  else [].

Definition parseLayout (ocrResult : OCRResult) : LayoutResult :=
  let content := ocr_text ocrResult in
  let lines := lines_of content in
  let '(kvs, tableData) := scan lines in
  {| text := content;
     structure :=
       {| sections :=
            [ {| type := "header"; content := JS.join " " (firstn 2 lines);
                 section_bbox := [0; 0; 600; 50] |};
              {| type := "body"; content := content; section_bbox := [0; 50; 600; 400] |};
              {| type := "footer"; content := "Document processed";
                 section_bbox := [0; 400; 600; 450] |} ];
          tables := tables_of tableData;
          keyValuePairs := kvs |} |}.

End Layout.

(** ** The enhanced pipeline: extraction, embedding, storage, orchestration *)

Module Enhanced.
Import Http Layout.

(** [a || b] on values *)
Definition or_else (v : option json) (d : json) : json :=
  match v with
  | Some x => if Json.truthy v then x else d
  | None => d
  end.

(** *** Extraction stage *)

Definition contextInfo (layoutResult : LayoutResult) : string :=
  let st := structure layoutResult in
  JS.join (String newline EmptyString)
    ([ "Document structure analysis:";
       "- Found " ++ show_nat (List.length (keyValuePairs st)) ++ " key-value pairs";
       "- Found " ++ show_nat (List.length (tables st)) ++ " tables";
       "- Found " ++ show_nat (List.length (sections st)) ++ " sections";
       EmptyString;
       "Key-value pairs detected:" ]%string
     ++ map (fun kv => key kv ++ ": " ++ value kv)%string (keyValuePairs st)
     ++ [ EmptyString; "Full document text:"; text layoutResult ]).

(** [/\{[\s\S]*\}/]: from an opening brace to the last closing brace after
    it. *)
Definition braces_re : RegExp.regex :=
  RegExp.Cat (RegExp.Lit "{") (RegExp.Cat (RegExp.Star (RegExp.Chars (fun _ => true)))
                                          (RegExp.Lit "}")).

(** [contentText.match(/\{[\s\S]*\}/)], giving [match[0]]. *)
Definition salvage (contentText : string) : option string :=
  match RegExp.exec braces_re contentText with
  | Some m => Some (RegExp.matched contentText m)
  | None => None
  end.

Record Analysis : Type := { extracted : json; summary : json }.

(** The first [try] block: a direct parse, [JSON.parse] converting its
    argument to a string first; reading a property of [null] throws. *)
Definition direct_analysis (P : Platform) (contentText : json) : result Analysis :=
  text ← Throwing.to_String (Some contentText);
  parsed ← parse P text;
  match parsed with
  | JNull => Throw (TypeError "Cannot read properties of null")
  | _ => Ok {| extracted := or_else (Json.get "extracted" parsed) Json.empty_object;
               summary := or_else (Json.get "summary" parsed) (JStr "No summary available") |}
  end.

(** The inner [try] block of the fallback. *)
Definition salvaged_analysis (P : Platform) (candidate : string) : result Analysis :=
  parsed ← parse P candidate;
  match parsed with
  | JNull => Throw (TypeError "Cannot read properties of null")
  | _ => Ok {| extracted := or_else (Json.get "extracted" parsed) parsed;
               summary := or_else (Json.get "summary" parsed)
                                  (JStr "Document processed successfully") |}
  end.

(** The parsing of the model output in [performAIAnalysis]. *)
Definition parse_analysis (P : Platform) (contentText : json) : result Analysis :=
  catch (direct_analysis P contentText)
    (fun _ =>
       match contentText with
       | JStr s =>
           match salvage s with
           | Some candidate =>
               catch (salvaged_analysis P candidate)
                 (fun _ => Ok {| extracted := Json.empty_object;
                                 summary := JStr "Failed to parse analysis results" |})
           | None => Ok {| extracted := Json.empty_object;
                           summary := JStr "No analysis results available" |}
           end
       | _ => Throw (TypeError "contentText.match is not a function")
       end).

(** The external services, as the answers they give. *)
Record Point : Type := { vector : json; point_text : string; chunk_index : nat }.

Record Services : Type :=
  { chat_completions : string -> fetched;     (* POST /v1/chat/completions, by user message *)
    embeddings_api : list string -> fetched;  (* POST /v1/embeddings, by input *)
    qdrant_collection : fetched;              (* GET /collections/documents *)
    qdrant_create : fetched;                  (* PUT /collections/documents *)
    qdrant_points : list Point -> fetched }.  (* PUT /collections/documents/points *)

Definition performAIAnalysis (P : Platform) (E : Services) (layoutResult : LayoutResult)
  : result Analysis :=
  response ← await_fetch (chat_completions E (contextInfo layoutResult));
  let '(status, statusText, body) := response in
  if negb (ok_status status)
  then Throw (Error ("AI Analysis failed: " ++ statusText))
  else
    data ← parse P body;
    parse_analysis P (completion_text data).

(** *** Embedding stage *)

(** [data.data.map(item => item.embedding)] *)
Fixpoint embeddings_of_items (items : list json) : result (list (option json)) :=
  match items with
  | [] => Ok []
  | JNull :: _ => Throw (TypeError "Cannot read properties of null")
  | item :: items' =>
      rest ← embeddings_of_items items';
      Ok (Json.get "embedding" item :: rest)
  end.

Definition embeddings_of_response (P : Platform) (f : fetched) : result (list (option json)) :=
  response ← await_fetch f;
  let '(status, statusText, body) := response in
  if negb (ok_status status)
  then Throw (Error ("Embedding API error: " ++ statusText))
  else
    data ← parse P body;
    match Json.get "data" data with
    | Some (JArr items) => embeddings_of_items items
    | _ => Throw (TypeError "data.data.map is not a function")
    end.

Definition generateEmbeddingsForChunks (P : Platform) (E : Services) (chunks : list string)
  : list (option json) :=
  match embeddings_of_response P (embeddings_api E chunks) with
  | Ok embeddings => embeddings
  | Throw _ => []
  end.

(** *** Storage stage *)

Definition ensureQdrantCollection (E : Services) : bool :=
  match qdrant_collection E with
  | NetworkError _ => false
  | Responded status _ _ =>
      if status =? 404 then
        match qdrant_create E with
        | NetworkError _ => false
        | Responded createStatus _ _ => ok_status createStatus
        end
      else ok_status status
  end.

(** [embeddings[index] || []] *)
Definition vector_at (embeddings : list (option json)) (index : nat) : json :=
  match nth_error embeddings index with
  | Some v => or_else v (JArr [])
  | None => JArr []
  end.

Definition points_of (chunks : list string) (embeddings : list (option json)) : list Point :=
  map_indexed (fun index chunk =>
                 {| vector := vector_at embeddings index;
                    point_text := chunk;
                    chunk_index := index |}) 0 chunks.

Definition storeChunksInVectorDB (E : Services) (chunks : list string)
    (embeddings : list (option json)) : bool :=
  if ensureQdrantCollection E then
    match qdrant_points E (points_of chunks embeddings) with
    | NetworkError _ => false
    | Responded status _ _ => ok_status status
    end
  else false.

(** *** Orchestrator *)

Inductive step_status : Type := pending | processing | completed | error.

Record ProcessingStep : Type :=
  { id : string; step_name : string; status : step_status;
    duration : option string; description : string }.

Definition initial_steps : list ProcessingStep :=
  [ {| id := "ocr"; step_name := "OCR -> DocTR"; status := processing; duration := None;
       description := "Text extraction with bounding boxes using DocTR" |};
    {| id := "layout"; step_name := "Layout Parsing -> LayoutParser + pdfplumber";
       status := pending; duration := None;
       description := "Structure detection, tables, key-value pairs" |};
    {| id := "ai"; step_name := "LLM -> GPT-5 Nano"; status := pending; duration := None;
       description := "Structured extraction and summarization" |};
    {| id := "vector"; step_name := "Vector DB -> Qdrant"; status := pending; duration := None;
       description := "Text chunking and embedding storage" |};
    {| id := "validation"; step_name := "Validation -> Regex + rules"; status := pending;
       duration := None;
       description := "Enhanced data validation and consistency checks" |} ].

(** [steps[i] = { ...steps[i], status }] *)
Definition set_status (i : nat) (s : step_status) (steps : list ProcessingStep)
  : list ProcessingStep :=
  alter (fun st => {| id := id st; step_name := step_name st; status := s;
                      duration := duration st; description := description st |}) i steps.

(** [steps[i] = { ...steps[i], status, duration }] *)
Definition set_done (i : nat) (s : step_status) (d : option string)
    (steps : list ProcessingStep) : list ProcessingStep :=
  alter (fun st => {| id := id st; step_name := step_name st; status := s;
                      duration := d; description := description st |}) i steps.

Record ProcessingResponse : Type :=
  { steps : list ProcessingStep;
    ocrResult : OCRResult;
    layoutResult : LayoutResult;
    response_extracted : json;
    response_summary : json;
    embeddings : json;
    validation : Validator.ValidationResult }.

(** [embeddings[0]?.slice(0, 10) || []] *)
Definition embeddings_preview (embeddings : list (option json)) : result json :=
  match embeddings with
  | Some (JArr components) :: _ => Ok (JArr (firstn 10 components))
  | Some (JStr s) :: _ => Ok (if JS.nonempty s then JStr (JS.take 10 s) else JArr [])
  | [] | None :: _ | Some JNull :: _ => Ok (JArr [])
  | Some _ :: _ => Throw (TypeError "embeddings[0]?.slice is not a function")
  end.

(** The body of the [try] block once the content is known. *)
Definition process (P : Platform) (E : Services) (content : json) : result ProcessingResponse :=
  let steps0 := initial_steps in
  (* Step 1: OCR *)
  ocr ← match content with
        | JStr s => Ok (performOCR s)
        | _ => Throw (TypeError "content.split is not a function")
        end;
  let steps1 := set_done 0 completed (Some "1.2s") steps0 in
  (* Step 2: layout *)
  let steps2 := set_status 1 processing steps1 in
  let layout := parseLayout ocr in
  let steps3 := set_done 1 completed (Some "0.9s") steps2 in
  (* Step 3: extraction *)
  let steps4 := set_status 2 processing steps3 in
  analysis ← performAIAnalysis P E layout;
  let steps5 := set_done 2 completed (Some "2.4s") steps4 in
  (* Step 4: chunking, embedding, storage *)
  let steps6 := set_status 3 processing steps5 in
  let chunks := Chunker.chunkText (text layout) Chunker.default_maxChunkSize in
  let vectors := generateEmbeddingsForChunks P E chunks in
  let vectorStored := storeChunksInVectorDB E chunks vectors in
  preview ← embeddings_preview vectors;
  let steps7 := set_done 3 (if vectorStored then completed else error)
                           (if vectorStored then Some "1.8s" else None) steps6 in
  (* Step 5: validation *)
  let steps8 := set_status 4 processing steps7 in
  checked ← Throwing.validateDocument (extracted analysis);
  let steps9 := set_done 4 completed (Some "0.4s") steps8 in
  Ok {| steps := steps9; ocrResult := ocr; layoutResult := layout;
        response_extracted := extracted analysis; response_summary := summary analysis;
        embeddings := preview; validation := checked |}.

Inductive reply : Type :=
| Preflight                                   (* OPTIONS: empty body *)
| NoContent                                   (* 400 { error: "No content provided" } *)
| Processed (r : ProcessingResponse)          (* the result, default status *)
| Failed (error : string).                    (* 500 { error, steps: [error step] } *)

Definition status_code (r : reply) : Z :=
  match r with
  | Preflight | Processed _ => 200
  | NoContent => 400
  | Failed _ => 500
  end.

Definition serve (P : Platform) (E : Services) (req : Request) : reply :=
  if String.eqb (method req) "OPTIONS" then Preflight
  else
    let body := req_json_or_empty P req in
    let content := or_else (Json.get "content" body) (JStr EmptyString) in
    if negb (Json.truthy (Some content)) then NoContent
    else match process P E content with
         | Ok r => Processed r
         | Throw e => Failed (exn_String e)
         end.

End Enhanced.

(** ** analyze-docs *)

Module AnalyzeDocs.
Import Http.

(** The chat-completions service, by the user message it is sent. *)
Record Services : Type := { chat_completions : string -> fetched }.

(** [body?.content || (Array.isArray(body?.texts) ? body.texts.join("\n\n") : "")] *)
Definition blank_line : string := String Layout.newline (String Layout.newline EmptyString).

Definition content_of (body : json) : result json :=
  if Json.truthy (Json.get "content" body)
  then Ok (Enhanced.or_else (Json.get "content" body) (JStr EmptyString))
  else match Json.get "texts" body with
       | Some (JArr texts) =>
           joined ← Throwing.join_values blank_line texts;
           Ok (JStr joined)
       | _ => Ok (JStr EmptyString)
       end.

(** The salvage of the model output: a direct parse, then the text between
    the first opening brace and the last closing brace, then [{}]. *)
Definition extract (P : Platform) (contentText : json) : result json :=
  catch (text ← Throwing.to_String (Some contentText); parse P text)
    (fun _ =>
       match contentText with
       | JStr s =>
           match Enhanced.salvage s with
           | Some candidate => catch (parse P candidate) (fun _ => Ok Json.empty_object)
           | None => Ok Json.empty_object
           end
       | _ => Throw (TypeError "contentText.match is not a function")
       end).

Inductive reply : Type :=
| Preflight                                   (* OPTIONS *)
| NoContent                                   (* 400 { error: "No content provided" } *)
| ApiError (detail : string)                  (* 500 { error: "OpenAI API error", detail } *)
| Analyzed (extracted : json) (raw : json)    (* { extracted, raw }, default status *)
| Failed (error : string).                    (* 500 { error: String(error) } *)

Definition status_code (r : reply) : Z :=
  match r with
  | Preflight | Analyzed _ _ => 200
  | NoContent => 400
  | ApiError _ | Failed _ => 500
  end.

(** What follows [await fetch(...)]. *)
Definition after_fetch (P : Platform) (f : fetched) : reply :=
  match f with
  | NetworkError e => Failed (exn_String e)
  | Responded status _ body =>
      if negb (ok_status status) then ApiError body
      else match (data ← parse P body;
                  extracted ← extract P (completion_text data);
                  Ok (Analyzed extracted data)) with
           | Ok r => r
           | Throw e => Failed (exn_String e)
           end
  end.

(** The handler: its reply, and the user messages it sent to the model. *)
Definition serve (P : Platform) (E : Services) (req : Request) : reply * list string :=
  if String.eqb (method req) "OPTIONS" then (Preflight, [])
  else
    let body := req_json_or_empty P req in
    match content_of body with
    | Ok (JStr content) =>
        (* [!content || typeof content !== "string"] *)
        if negb (JS.nonempty content) then (NoContent, [])
        else (after_fetch P (chat_completions E content), [content])
    | Ok _ => (NoContent, [])
    | Throw e => (Failed (exn_String e), [])
    end.

End AnalyzeDocs.

(** ** process-documents *)

Module ProcessDocuments.
Import Http.

(** *** The job store *)

Inductive job_status : Type := job_pending | job_running | job_completed | job_failed.

(** A row of [processing_jobs]. *)
Record Job : Type :=
  { document_id : string;
    status : job_status;
    progress : Z;
    result_payload : option json;
    error_message : option string;
    processing_time_ms : option Z;
    completed_at : option string }.

(** The columns an [update] sets. *)
Record Patch : Type :=
  { to_status : option job_status;
    to_progress : option Z;
    to_result : option json;
    to_error_message : option string;
    to_processing_time_ms : option Z;
    to_completed_at : option string }.

Definition patch (p : Patch) (j : Job) : Job :=
  {| document_id := document_id j;
     status := default (status j) (to_status p);
     progress := default (progress j) (to_progress p);
     result_payload := match to_result p with Some r => Some r | None => result_payload j end;
     error_message :=
       match to_error_message p with Some m => Some m | None => error_message j end;
     processing_time_ms :=
       match to_processing_time_ms p with Some t => Some t | None => processing_time_ms j end;
     completed_at :=
       match to_completed_at p with Some t => Some t | None => completed_at j end |}.

(** A row of [extracted_entities]. *)
Record Entity : Type :=
  { entity_document_id : string;
    entity_type : option json;
    entity_value : option json;
    confidence : option json }.

(** What the handler acts on: the two tables, the [bodyUsed] flag of the
    request, and a log of the updates issued to [processing_jobs]. *)
Record World : Type :=
  { processing_jobs : gmap string Job;
    extracted_entities : list Entity;
    bodyUsed : bool;
    updates : list (string * Patch) }.

(** A computation that reads and writes the world and may throw; what was
    written before an exception stays written. *)
Definition M (A : Type) : Type := World -> result A * World.

#[export] Instance M_ret : MRet M := fun A a w => (Ok a, w).
#[export] Instance M_bind : MBind M := fun A B k m w =>
  match m w with
  | (Ok a, w') => k a w'
  | (Throw e, w') => (Throw e, w')
  end.

Definition lift {A : Type} (r : result A) : M A := fun w => (r, w).

(** [.from('processing_jobs').select('*').eq('id', id).single()] *)
Definition select_job (id : string) : M (option Job) :=
  fun w => (Ok (processing_jobs w !! id), w).

(** [.from('processing_jobs').update(p).eq('id', id)] *)
Definition update_job (id : string) (p : Patch) : M unit :=
  fun w => (Ok tt,
            {| processing_jobs := alter (patch p) id (processing_jobs w);
               extracted_entities := extracted_entities w;
               bodyUsed := bodyUsed w;
               updates := updates w ++ [(id, p)] |}).

(** [.from('extracted_entities').insert(row)] *)
Definition insert_entity (row : Entity) : M unit :=
  fun w => (Ok tt,
            {| processing_jobs := processing_jobs w;
               extracted_entities := extracted_entities w ++ [row];
               bodyUsed := bodyUsed w;
               updates := updates w |}).

(** [await req.json()]: reading a body marks it used. *)
Definition read_json (P : Platform) (req : Request) : M json :=
  fun w =>
    match payload req with
    | Some _ =>
        if bodyUsed w then (Throw (TypeError "Body already consumed"), w)
        else (req_json P req,
              {| processing_jobs := processing_jobs w;
                 extracted_entities := extracted_entities w;
                 bodyUsed := true;
                 updates := updates w |})
    | None => (req_json P req, w)
    end.

(** [req.clone()]: by the Fetch standard, cloning a request whose body has
    been read throws a [TypeError]; a request without a body can always be
    cloned. *)
Definition clone (req : Request) : M Request :=
  fun w =>
    match payload req with
    | Some _ => if bodyUsed w then (Throw (TypeError "Body is unusable"), w) else (Ok req, w)
    | None => (Ok req, w)
    end.

(** *** The stages *)

Record Point : Type := { point_id : string; vector : option json; point_text : option string;
                         point_document : string; chunk_index : nat }.

Record OCRResult : Type := { text : string; ocr_confidence : string;
                             bounding_boxes : list string }.

Record LayoutResult : Type :=
  { tables : list unit; text_blocks : list string; key_value_pairs : list (string * string) }.

Record Services : Type :=
  { chat_completions : LayoutResult -> fetched;  (* by the layout the prompt prints *)
    embeddings_api : list string -> fetched;
    qdrant_points : list Point -> fetched;
    randomUUID : string;
    started : Z;                               (* Date.now() at the start *)
    finished : Z;                              (* Date.now() at the end *)
    today : string;                            (* the date part of the ISO time *)
    now_iso : string }.

(** [performOCR]: [content.substring] exists on strings only. *)
Definition performOCR (content : json) : result OCRResult :=
  match content with
  | JStr s => Ok {| text := s; ocr_confidence := "0.95"; bounding_boxes := [JS.take 50 s] |}
  | _ => Throw (TypeError "content.substring is not a function")
  end.

Definition parseLayout (ocrResult : OCRResult) : LayoutResult :=
  {| tables := []; text_blocks := [text ocrResult];
     key_value_pairs := [("Document Type", "Invoice")] |}.

(** The record [extractStructuredData] answers when the model output does
    not parse. *)
Definition fallback_data (E : Services) : json :=
  JObj [ ("supplier", JStr "Unknown Supplier");
         ("buyer", JStr "Unknown Buyer");
         ("invoice_number", JStr "N/A");
         ("invoice_date", JStr (today E));
         ("total_amount", JStr "0.00");
         ("findings", JArr [ JObj [ ("category", JStr "Document Processing");
                                    ("description", JStr "Document processed successfully");
                                    ("severity", JStr "info") ] ]);
         ("entities", JArr [ JObj [ ("type", JStr "document_type");
                                    ("value", JStr "inspection_certificate");
                                    ("confidence", JNum true "0.9") ] ]) ].

(** [data.choices[0].message.content], each step throwing on [undefined]
    or [null]. *)
Definition required (v : option json) : result json :=
  match v with
  | None | Some JNull => Throw (TypeError "Cannot read properties of undefined")
  | Some x => Ok x
  end.

Definition message_content (data : json) : result (option json) :=
  d ← required (Some data);
  choices ← required (Json.get "choices" d);
  first ← required (first_element (Some choices));
  message ← required (Json.get "message" first);
  Ok (Json.get "content" message).

(** The parsing of the model output in [extractStructuredData]. *)
Definition parse_extracted (P : Platform) (E : Services) (extractedText : option json) : json :=
  match (text ← Throwing.to_String extractedText; parse P text) with
  | Ok v => v
  | Throw _ => fallback_data E
  end.

Definition extractStructuredData (P : Platform) (E : Services) (layoutResult : LayoutResult)
  : result json :=
  response ← await_fetch (chat_completions E layoutResult);
  let '(status, statusText, body) := response in
  if negb (ok_status status)
  then Throw (Error ("OpenAI API error: " ++ statusText))
  else
    data ← parse P body;
    extractedText ← message_content data;
    Ok (parse_extracted P E extractedText).

(** [chunkText] of this function: by words. *)
Definition word_step (maxChunkSize : Z) (st : list string * string) (word : string)
  : list string * string :=
  let '(chunks, currentChunk) := st in
  if JS.len currentChunk + JS.len word + 1 <=? maxChunkSize
  then (chunks, currentChunk ++ (if JS.nonempty currentChunk then " " else "") ++ word)%string
  else (if JS.nonempty currentChunk then chunks ++ [currentChunk] else chunks, word).

Definition chunkText (text : string) (maxChunkSize : Z) : list string :=
  let '(chunks, currentChunk) :=
    fold_left (word_step maxChunkSize) (JS.split " " text) ([], EmptyString) in
  if JS.nonempty currentChunk then chunks ++ [currentChunk] else chunks.

Fixpoint embeddings_of_items (items : list json) : result (list (option json)) :=
  match items with
  | [] => Ok []
  | JNull :: _ => Throw (TypeError "Cannot read properties of null")
  | item :: items' =>
      rest ← embeddings_of_items items';
      Ok (Json.get "embedding" item :: rest)
  end.

Definition generateEmbeddings (P : Platform) (E : Services) (texts : list string)
  : result (list (option json)) :=
  response ← await_fetch (embeddings_api E texts);
  let '(status, statusText, body) := response in
  if negb (ok_status status)
  then Throw (Error ("OpenAI API error: " ++ statusText))
  else
    data ← parse P body;
    match Json.get "data" data with
    | Some (JArr items) => embeddings_of_items items
    | _ => Throw (TypeError "data.data.map is not a function")
    end.

Definition points_of (embeddings : list (option json)) (texts : list string)
    (documentId : string) : list Point :=
  Layout.map_indexed
    (fun index embedding =>
       {| point_id := documentId ++ "_chunk_" ++ show_nat index;
          vector := embedding;
          point_text := nth_error texts index;
          point_document := documentId;
          chunk_index := index |}) 0 embeddings.

Definition storeInQdrant (E : Services) (embeddings : list (option json))
    (texts : list string) (documentId : string) : result unit :=
  response ← await_fetch (qdrant_points E (points_of embeddings texts documentId));
  let '(status, statusText, _) := response in
  if negb (ok_status status)
  then Throw (Error ("Qdrant API error: " ++ statusText))
  else Ok tt.

(** *** Orchestrator *)

Record Success : Type :=
  { reply_processing_time_ms : Z;
    extracted_data : json;
    text_length : Z;
    chunks_stored : nat;
    embeddings_dimension : Z;
    reply_job_id : json }.

Inductive reply : Type :=
| Preflight                                  (* OPTIONS *)
| MethodNotAllowed                           (* 405 *)
| MissingInput                               (* 400 *)
| Completed (r : Success)                    (* 200 { success: true, ... } *)
| Failed (error : string) (timestamp : string)  (* 500 { success: false, error, timestamp } *)
| Unhandled (e : exn).                       (* the handler itself threw *)

(** The key a filter [.eq('id', job_id)] selects: the text of the value. *)
Definition job_key (job_id : option json) : string := Json.to_String_opt job_id.

(** [if (job_id) { await supabase...update(p).eq('id', job_id) }] *)
Definition when_job (job_id : option json) (p : Patch) : M unit :=
  if Json.truthy job_id then update_job (job_key job_id) p else mret tt.

Definition progress_patch (n : Z) : Patch :=
  {| to_status := None; to_progress := Some n; to_result := None;
     to_error_message := None; to_processing_time_ms := None; to_completed_at := None |}.

Definition running_patch : Patch :=
  {| to_status := Some job_running; to_progress := Some 10; to_result := None;
     to_error_message := None; to_processing_time_ms := None; to_completed_at := None |}.

Definition completed_patch (extractedData : json) (processingTime : Z) (at_ : string) : Patch :=
  {| to_status := Some job_completed; to_progress := Some 100;
     to_result := Some extractedData; to_error_message := None;
     to_processing_time_ms := Some processingTime; to_completed_at := Some at_ |}.

Definition failed_patch (msg : string) : Patch :=
  {| to_status := Some job_failed; to_progress := None; to_result := None;
     to_error_message := Some msg; to_processing_time_ms := None; to_completed_at := None |}.

(** [for (const entity of extractedData.entities)]: arrays and strings are
    the iterable values. *)
Definition iterate (v : json) : result (list json) :=
  match v with
  | JArr items => Ok items
  | JStr s => Ok (map (fun c => JStr (String c EmptyString)) (list_ascii_of_string s))
  | _ => Throw (TypeError "extractedData.entities is not iterable")
  end.

Fixpoint insert_entities (documentId : string) (entities : list json) : M unit :=
  match entities with
  | [] => mret tt
  | entity :: rest =>
      e ← lift (required (Some entity));
      _ ← insert_entity {| entity_document_id := documentId;
                           entity_type := Json.get "type" e;
                           entity_value := Json.get "value" e;
                           confidence := Json.get "confidence" e |};
      insert_entities documentId rest
  end.

(** Step 5 *)
Definition store_entities (extractedData : json) (jobRecord : option Job) : M unit :=
  data ← lift (required (Some extractedData));
  let entities := Json.get "entities" data in
  match jobRecord with
  | Some job =>
      if Json.truthy entities && JS.nonempty (document_id job) then
        items ← lift (iterate (Enhanced.or_else entities JNull));
        insert_entities (document_id job) items
      else mret tt
  | None => mret tt
  end.

(** [embeddings[0]?.length || 0] *)
Definition dimension (embeddings : list (option json)) : Z :=
  match embeddings with
  | Some (JArr components) :: _ => Z.of_nat (List.length components)
  | Some (JStr s) :: _ => JS.len s
  | _ => 0
  end.

(** The [try] block. *)
Definition handle (P : Platform) (E : Services) (req : Request) : M reply :=
  requestBody ← read_json P req;
  body ← lift (required (Some requestBody));
  let document_content := Json.get "document_content" body in
  let file_path := Json.get "file_path" body in
  let job_id := Json.get "job_id" body in
  if negb (Json.truthy document_content) && negb (Json.truthy file_path)
  then mret MissingInput
  else
    (* Create or update processing job *)
    jobRecord ← (if Json.truthy job_id then
                   existingJob ← select_job (job_key job_id);
                   match existingJob with
                   | Some job => _ ← update_job (job_key job_id) running_patch; mret (Some job)
                   | None => mret None
                   end
                 else mret None);
    (* Step 1: OCR *)
    ocrResult ← lift (performOCR (Enhanced.or_else document_content
                                     (JStr "File content from storage")));
    _ ← when_job job_id (progress_patch 30);
    (* Step 2: layout *)
    let layoutResult := parseLayout ocrResult in
    _ ← when_job job_id (progress_patch 50);
    (* Step 3: extraction *)
    extractedData ← lift (extractStructuredData P E layoutResult);
    _ ← when_job job_id (progress_patch 70);
    (* Step 4: vector storage *)
    let textChunks := chunkText (text ocrResult) 500 in
    embeddings ← lift (generateEmbeddings P E textChunks);
    let documentId := Enhanced.or_else job_id (JStr (randomUUID E)) in
    _ ← lift (storeInQdrant E embeddings textChunks (Json.to_String documentId));
    _ ← when_job job_id (progress_patch 90);
    (* Step 5: entities *)
    _ ← store_entities extractedData jobRecord;
    let processingTime := finished E - started E in
    (* Complete the job *)
    _ ← when_job job_id (completed_patch extractedData processingTime (now_iso E));
    mret (Completed {| reply_processing_time_ms := processingTime;
                       extracted_data := extractedData;
                       text_length := JS.len (text ocrResult);
                       chunks_stored := List.length textChunks;
                       embeddings_dimension := dimension embeddings;
                       reply_job_id := documentId |}).

(** The [catch] block. *)
Definition on_error (P : Platform) (E : Services) (req : Request) (error : exn) : M reply :=
  cloned ← clone req;
  requestBody ← lift (required (Some (req_json_or_empty P cloned)));
  _ ← when_job (Json.get "job_id" requestBody) (failed_patch (message error));
  mret (Failed (message error) (now_iso E)).

Definition serve (P : Platform) (E : Services) (req : Request) (w : World) : reply * World :=
  if String.eqb (method req) "OPTIONS" then (Preflight, w)
  else if negb (String.eqb (method req) "POST") then (MethodNotAllowed, w)
  else
    match handle P E req w with
    | (Ok r, w') => (r, w')
    | (Throw error, w') =>
        match on_error P E req error w' with
        | (Ok r, w'') => (r, w'')
        | (Throw e, w'') => (Unhandled e, w'')
        end
    end.

(** The world a request arrives in. *)
Definition arrival (jobs : gmap string Job) : World :=
  {| processing_jobs := jobs; extracted_entities := []; bodyUsed := false; updates := [] |}.

(** The world with another content of [extracted_entities]. *)
Definition with_entities (es : list Entity) (w : World) : World :=
  {| processing_jobs := processing_jobs w; extracted_entities := es;
     bodyUsed := bodyUsed w; updates := updates w |}.

(** The progress values written to a job, in order. *)
Definition progress_written (id : string) (w : World) : list Z :=
  omap (fun u : string * Patch => if String.eqb (fst u) id then to_progress (snd u) else None)
       (updates w).

End ProcessDocuments.

(** ** The statements of the specification, as tests on a run

    Each definition below reads one sentence of the specification as a
    boolean test or a function of its own, to be compared with what the
    code computes. *)

Module Spec.

(** The sentences of one chunk, joined as the loop joins them. *)
Definition render (group : list string) : string := JS.join ". " group.

(** "The sentence-joined concatenation of the chunks reproduces all of the
    input's sentences." *)
Definition reproduces_sentences (text : string) (maxChunkSize : Z) : bool :=
  String.eqb (JS.join ". " (Chunker.chunkText text maxChunkSize))
             (JS.join ". " (map JS.trim (Chunker.sentences text))).

(** "No chunk exceeds max-chunk-size unless a single sentence by itself
    exceeds it." *)
Definition within_size (text : string) (maxChunkSize : Z) : bool :=
  forallb (fun chunk =>
             (JS.len chunk <=? maxChunkSize)
             || existsb (fun s => JS.len s >? maxChunkSize) (Chunker.sentences text))
          (Chunker.chunkText text maxChunkSize).

(** "Every assembled chunk of length at least 20 characters is emitted." *)
Definition emits_from_20 (text : string) (maxChunkSize : Z) : bool :=
  forallb (fun chunk =>
             implb (20 <=? JS.len chunk)
                   (existsb (String.eqb chunk) (Chunker.chunkText text maxChunkSize)))
          (Chunker.assemble maxChunkSize (Chunker.sentences text)).

(** "Absent or blank" and "non-empty", of a required field. *)
Definition absent_or_blank (v : option json) : Prop :=
  v = None \/ exists s, v = Some (JStr s) /\ JS.trim s = EmptyString.

Definition filled (v : option json) : Prop :=
  exists s, v = Some (JStr s) /\ JS.trim s <> EmptyString.

(** The number of container-number-format warnings of a result. *)
Definition container_warnings (r : Validator.ValidationResult) : nat :=
  count_occ string_dec (Validator.warnings r) Validator.container_msg.

(** The cells of a table row, and the lines the layout loop takes for
    table rows and for key-value pairs. *)
Definition cells (line : string) : list string := map JS.trim (JS.split "|" line).

Definition row_of (line : string) : list (list string) :=
  match Layout.classify line with Layout.TableRow c => [c] | _ => [] end.

Definition pair_of (line : string) : list Layout.KeyValue :=
  match Layout.classify line with Layout.KeyValueLine kv => [kv] | _ => [] end.

(** "A number followed by a recognized unit (kg/lbs/tons/tonnes)": a run
    of digits, optionally a dot or comma and a second run of digits; then
    any white space; then one of the units, in either case. *)
Fixpoint every (p : ascii -> bool) (s : string) : bool :=
  match s with
  | EmptyString => true
  | String c s' => p c && every p s'
  end.

Fixpoint lower (s : string) : string :=
  match s with
  | EmptyString => EmptyString
  | String c s' => String (JS.to_lower c) (lower s')
  end.

Definition is_number (num : string) : Prop :=
  exists int rest,
    num = (int ++ rest)%string
    /\ every JS.is_digit int = true /\ int <> EmptyString
    /\ (rest = EmptyString
        \/ exists sep frac,
             rest = String sep frac /\ Validator.is_dot_or_comma sep = true
             /\ every JS.is_digit frac = true /\ frac <> EmptyString).

Definition units : list string := ["kg"; "lb"; "lbs"; "ton"; "tons"; "tonne"; "tonnes"].

Definition is_unit (u : string) : Prop := In (lower u) units.

Definition number_with_unit (s : string) : Prop :=
  exists pre num ws unit post,
    s = (pre ++ num ++ ws ++ unit ++ post)%string
    /\ is_number num /\ every JS.is_space ws = true /\ is_unit unit.

(** The value of a run of digits, and the exact test "outside the interval
    (0, 100000]" on the decimal [mantissa / 10^scale]. *)
Fixpoint digits_value (acc : N) (s : string) : N :=
  match s with
  | EmptyString => acc
  | String c s' => digits_value (acc * 10 + Validator.digit_value c)%N s'
  end.

Definition outside_interval (value : Validator.decimal) : Prop :=
  (Validator.mantissa value = 0
   \/ 100000 * 10 ^ Validator.scale value < Validator.mantissa value)%N.

(** The result carries a weight warning. *)
Definition weight_warned (r : Validator.ValidationResult) : Prop :=
  In Validator.weight_format_msg (Validator.warnings r)
  \/ In Validator.weight_value_msg (Validator.warnings r).

(** The value the validator reads from a weight text: [parseFloat] of the
    number of its first match. *)
Definition parsed_weight (weight : string) : option Validator.decimal :=
  match RegExp.exec Validator.weight_re weight with
  | Some weightMatch =>
      match RegExp.group 1 (RegExp.m_groups weightMatch) with
      | Some g1 => Validator.parseFloat (JS.replace_first "," "." g1)
      | None => None
      end
  | None => None
  end.

Definition out_of_range (value : Validator.decimal) : bool :=
  Validator.le_zero value || Validator.gt_100000 value.

(** The decimal a number denotes: the digits of its integer part and of
    its fraction, scaled by the number of digits of the fraction. *)
Definition decimal_of (int frac : string) : Validator.decimal :=
  Validator.Decimal (digits_value 0 (int ++ frac)) (N.of_nat (String.length frac)).

(** The text [t] starts with a number followed by a recognized unit: the
    digits [int]; then, unless [frac] is empty, a dot or comma and the digits
    [frac]; then any white space and a unit. *)
Definition starts_with_weight (t int frac : string) : Prop :=
  exists ws unit post,
    every JS.is_digit int = true /\ int <> EmptyString
    /\ every JS.is_digit frac = true
    /\ every JS.is_space ws = true /\ is_unit unit
    /\ (frac = EmptyString /\ t = (int ++ ws ++ unit ++ post)%string
        \/ frac <> EmptyString
           /\ exists sep, Validator.is_dot_or_comma sep = true
                          /\ t = (int ++ String sep frac ++ ws ++ unit ++ post)%string).

(** "The first such number" of a text: a number followed by a unit starts
    after [pre], and none starts earlier. *)
Definition first_number (s int frac : string) : Prop :=
  exists pre t,
    s = (pre ++ t)%string /\ starts_with_weight t int frac
    /\ forall pre' t' int' frac',
         s = (pre' ++ t')%string -> starts_with_weight t' int' frac' ->
         (String.length pre <= String.length pre')%nat.

(** The double nearest to a decimal lies outside the interval (0, 100000]:
    it is 0 when the decimal is at most 2^-1075, and it is above 100000 when
    the decimal is above 100000 + 2^-37 (ties go to the even neighbour). *)
Definition rounds_outside (value : Validator.decimal) : Prop :=
  (Validator.mantissa value * 2 ^ 1075 <= 10 ^ Validator.scale value
   \/ (100000 * 2 ^ 37 + 1) * 10 ^ Validator.scale value
      < Validator.mantissa value * 2 ^ 37)%N.

(** "The first balanced {...} substring": from the first opening brace
    whose nesting closes, up to the brace that closes it. *)
Fixpoint closing (depth : nat) (s : string) : option nat :=
  match s with
  | EmptyString => None
  | String c s' =>
      if Ascii.eqb c "{" then option_map S (closing (S depth) s')
      else if Ascii.eqb c "}" then
             match depth with
             | O => Some 1%nat
             | S depth' => option_map S (closing depth' s')
             end
           else option_map S (closing depth s')
  end.

Fixpoint first_balanced (s : string) : option string :=
  match s with
  | EmptyString => None
  | String c s' =>
      if Ascii.eqb c "{" then
        match closing 0 s' with
        | Some n => Some (JS.take (S n) s)
        | None => first_balanced s'
        end
      else first_balanced s'
  end.

(** The parsing policy in the words of the specification: a direct parse
    of the model output; on failure a parse of its first balanced {...}
    substring; on further failure nothing, for which the caller substitutes
    an empty ExtractedData and a fallback summary. *)
Definition parsed_by_policy (P : Platform) (output : string) : option json :=
  match Http.JSON_parse P output with
  | Some v => Some v
  | None =>
      match first_balanced output with
      | Some candidate => Http.JSON_parse P candidate
      | None => None
      end
  end.

(** "The embedding service call fails": the request is rejected or the
    response is not ok. *)
Definition embedding_fails (E : Enhanced.Services) (chunks : list string) : Prop :=
  match Enhanced.embeddings_api E chunks with
  | NetworkError _ => True
  | Responded status _ _ => Http.ok_status status = false
  end.

(** The fields [validateDocument] converts to a string, and a field that
    is truthy and does not convert. *)
Definition converted_fields : list string :=
  ["invoiceNumber"; "hsCode"; "containerNo"; "weight"; "inspectionDate"; "quantityDeclared"].

Definition unconvertible (extracted : json) (field : string) : Prop :=
  exists x, Json.get field extracted = Some x
            /\ Json.truthy (Some x) = true /\ Json.converts x = false.

(** A request is answered with a status in 200-299, or with 404. *)
Definition answered_ok (f : fetched) : bool :=
  match f with
  | Responded status _ _ => (200 <=? status) && (status <=? 299)
  | NetworkError _ => false
  end.

Definition answered_404 (f : fetched) : bool :=
  match f with
  | Responded status _ _ => status =? 404
  | NetworkError _ => false
  end.

(** One point per chunk, in order, numbered from 0, with an empty
    vector. *)
Definition bare_points (chunks : list string) : list Enhanced.Point :=
  map (fun ic : nat * string =>
         {| Enhanced.vector := JArr [];
            Enhanced.point_text := snd ic;
            Enhanced.chunk_index := fst ic |})
      (combine (seq 0 (List.length chunks)) chunks).

(** "The storage call succeeds", without embeddings: the vector index has
    the collection (the request for it is answered 2xx, or it is answered
    404 and the request that creates it 2xx), and the upsert of the bare
    points is answered 2xx. *)
Definition storage_accepts (E : Enhanced.Services) (chunks : list string) : bool :=
  (answered_ok (Enhanced.qdrant_collection E)
   || answered_404 (Enhanced.qdrant_collection E) && answered_ok (Enhanced.qdrant_create E))
  && answered_ok (Enhanced.qdrant_points E (bare_points chunks)).

End Spec.

(** ** Sample requests and service answers

    The JSON texts the examples below submit, each with the value
    [JSON.parse] gives for it.  [platform] answers [JSON.parse] from this
    table and rejects every other text; the examples submit, besides the
    texts of the table, only texts that are not JSON. *)

Module Samples.

Definition dq : string := String (ascii_of_nat 34) EmptyString.
Definition q (s : string) : string := dq ++ s ++ dq.

Definition document : string :=
  "Supplier: Acme Co. Buyer: Globex Corporation of Springfield.".

(** [{"texts":["Supplier: Acme Co","Buyer: Globex"]}] *)
Definition texts_request : string :=
  "{" ++ q "texts" ++ ":[" ++ q "Supplier: Acme Co" ++ "," ++ q "Buyer: Globex" ++ "]}".

(** [{"content":"Supplier: Acme Co. Buyer: ..."}] *)
Definition content_request : string := "{" ++ q "content" ++ ":" ++ q document ++ "}".

(** [{"document_content":"Invoice 42","job_id":"job-1"}] *)
Definition job_request : string :=
  "{" ++ q "document_content" ++ ":" ++ q "Invoice 42" ++ ","
      ++ q "job_id" ++ ":" ++ q "job-1" ++ "}".

(** [{"supplier":"Acme Co"}], and a model output that wraps it in prose
    with a second pair of braces. *)
Definition supplier_object : string := "{" ++ q "supplier" ++ ":" ++ q "Acme Co" ++ "}".
Definition wrapped_output : string :=
  "Here you are: " ++ supplier_object ++ " (see {notes})".

Definition parsed : list (string * json) :=
  [ ("{}", JObj []);
    (supplier_object, JObj [("supplier", JStr "Acme Co")]);
    (texts_request, JObj [("texts", JArr [JStr "Supplier: Acme Co"; JStr "Buyer: Globex"])]);
    (content_request, JObj [("content", JStr document)]);
    (job_request, JObj [("document_content", JStr "Invoice 42"); ("job_id", JStr "job-1")]) ].

Definition platform : Platform := {| Http.JSON_parse := fun text => Json.assoc text parsed |}.

Definition post (body : string) : Request :=
  {| Http.method := "POST"; Http.payload := Some body |}.

(** A model that answers with an empty JSON object. *)
Definition reticent_model : AnalyzeDocs.Services :=
  {| AnalyzeDocs.chat_completions := fun _ => Responded 200 "OK" "{}" |}.

(** The embedding service is down and the vector index refuses the
    points; everything else answers. *)
Definition embeddings_down : Enhanced.Services :=
  {| Enhanced.chat_completions := fun _ => Responded 200 "OK" "{}";
     Enhanced.embeddings_api := fun _ => Responded 503 "Service Unavailable" EmptyString;
     Enhanced.qdrant_collection := Responded 200 "OK" "{}";
     Enhanced.qdrant_create := Responded 200 "OK" "{}";
     Enhanced.qdrant_points := fun _ => Responded 400 "Bad Request" EmptyString |}.

(** The embedding service is down and the vector index accepts the
    points without vectors. *)
Definition embeddings_down_store_up : Enhanced.Services :=
  {| Enhanced.chat_completions := fun _ => Responded 200 "OK" "{}";
     Enhanced.embeddings_api := fun _ => NetworkError (Http.TypeError "fetch failed");
     Enhanced.qdrant_collection := Responded 404 "Not Found" EmptyString;
     Enhanced.qdrant_create := Responded 200 "OK" "{}";
     Enhanced.qdrant_points := fun _ => Responded 200 "OK" "{}" |}.

(** The model service answers 500; the other services answer. *)
Definition model_down : ProcessDocuments.Services :=
  {| ProcessDocuments.chat_completions := fun _ => Responded 500 "Internal Server Error" EmptyString;
     ProcessDocuments.embeddings_api := fun _ => Responded 200 "OK" "{}";
     ProcessDocuments.qdrant_points := fun _ => Responded 200 "OK" "{}";
     ProcessDocuments.randomUUID := "00000000-0000-4000-8000-000000000000";
     ProcessDocuments.started := 1000;
     ProcessDocuments.finished := 2500;
     ProcessDocuments.today := "2025-09-09";
     ProcessDocuments.now_iso := "2025-09-09T09:16:16.000Z" |}.

(** A job created by the client: pending, progress 0. *)
Definition pending_job : ProcessDocuments.Job :=
  {| ProcessDocuments.document_id := "doc-1";
     ProcessDocuments.status := ProcessDocuments.job_pending;
     ProcessDocuments.progress := 0;
     ProcessDocuments.result_payload := None;
     ProcessDocuments.error_message := None;
     ProcessDocuments.processing_time_ms := None;
     ProcessDocuments.completed_at := None |}.

Definition jobs : gmap string ProcessDocuments.Job := {[ "job-1" := pending_job ]}.

End Samples.

(** ** Notions used in the proofs *)

(** A string that [trim] leaves alone: it is not empty and has no white
    space at either end. *)
Definition starts_clean (s : string) : Prop :=
  match s with
  | String c _ => JS.is_space c = false
  | EmptyString => True
  end.

Definition tidy (s : string) : Prop :=
  s <> EmptyString /\ starts_clean s /\ JS.trimEnd s = s.

(** A match consumes a prefix of the text ahead and advances the index by
    its length. *)
Definition advances (cur cur' : RegExp.cursor) : Prop :=
  exists w, RegExp.ahead cur = w +:+ RegExp.ahead cur'
            /\ RegExp.index cur' = (RegExp.index cur + String.length w)%nat.

(** The part of [/\{[\s\S]*\}/] after the opening brace. *)
Definition tail_re : RegExp.regex :=
  RegExp.Cat (RegExp.Star (RegExp.Chars (fun _ => true))) (RegExp.Lit "}").

(** The direct parse fails: [JSON.parse] throws, or it gives [null], whose
    properties cannot be read. *)
Definition direct_parse_fails (P : Platform) (output : string) : Prop :=
  Http.JSON_parse P output = None \/ Http.JSON_parse P output = Some JNull.

(** ** The basic pipeline

    The first version of the orchestrator: the OCR stage hands the content
    on, the layout stage cuts it at 100 characters, one embedding is
    computed for the whole text, and the validator has four format rules. *)

Module Basic.
Import Http RegExp.

(** [content.substring(n)]: from index [n] to the end. *)
Definition substring_from (n : nat) (s : string) : string :=
  String.substring n (String.length s - n) s.

Record Section_ : Type := { type : string; content : string }.

Record LayoutResult : Type :=
  { text : string; sections : list Section_; tables : list unit; images : list unit }.

(** [performOCR] returns the content as it is. *)
Definition performOCR (content : json) : json := content.

(** [parseLayout]: [content.substring] exists on strings only. *)
Definition parseLayout (content : json) : result LayoutResult :=
  match content with
  | JStr s =>
      Ok {| text := s;
            sections := [ {| type := "header"; content := JS.take 100 s |};
                          {| type := "body"; content := substring_from 100 s |};
                          {| type := "footer"; content := "Document end" |} ];
            tables := [];
            images := [] |}
  | _ => Throw (TypeError "content.substring is not a function")
  end.

Record Services : Type :=
  { chat_completions : string -> fetched;            (* by user message *)
    embeddings_api : string -> fetched;              (* by input text *)
    qdrant_points : string -> option json -> fetched }.  (* by payload text and vector *)

(** The [try] block of [generateEmbeddings]: [data.data[0].embedding]. *)
Definition embedding_of_response (P : Platform) (f : fetched) : result (option json) :=
  response ← await_fetch f;
  let '(status, statusText, body) := response in
  if negb (ok_status status)
  then Throw (Error ("Embedding API error: " ++ statusText))
  else
    data ← parse P body;
    d ← ProcessDocuments.required (Some data);
    items ← ProcessDocuments.required (Json.get "data" d);
    first ← ProcessDocuments.required (first_element (Some items));
    Ok (Json.get "embedding" first).

Definition generateEmbeddings (P : Platform) (E : Services) (text : string) : option json :=
  match embedding_of_response P (embeddings_api E text) with
  | Ok embedding => embedding
  | Throw _ => Some (JArr [])
  end.

Definition storeInVectorDB (E : Services) (text : string) (embeddings : option json) : bool :=
  match qdrant_points E text embeddings with
  | NetworkError _ => false
  | Responded status _ _ => ok_status status
  end.

(** [/^(INV|INVOICE)-?\d+$/i] *)
Definition invoice_re : regex :=
  Cat Bol
  (Cat (Group 1 (Alt (LitCI "INV") (LitCI "INVOICE")))
  (Cat (Opt (Lit "-"))
  (Cat (Plus (Chars JS.is_digit))
       Eol))).

(** [(\d+(?:\.\d+)?)] *)
Definition number_re : regex :=
  Cat (Plus (Chars JS.is_digit))
      (Opt (Cat (Chars (JS.char_is ".")) (Plus (Chars JS.is_digit)))).

(** [(kg|lbs?)] under the [i] flag *)
Definition unit_re : regex := Alt (LitCI "kg") (Cat (LitCI "lb") (Opt (LitCI "s"))).

(** [/(\d+(?:\.\d+)?)\s*(kg|lbs?)/i] *)
Definition weight_re : regex :=
  Cat (Group 1 number_re) (Cat (Star (Chars JS.is_space)) (Group 2 unit_re)).

Definition invoice_msg : string := "Invoice number format may be invalid".
Definition hs_msg : string := "HS Code format may be invalid".
Definition container_msg : string := "Container number format may be invalid".
Definition weight_msg : string := "Weight format unclear".

(** [extracted.weight && typeof extracted.weight === 'string'], then the
    match. *)
Definition weight_warnings (v : option json) : list string :=
  if Json.truthy v && Json.is_string v then
    match exec weight_re (Json.to_String_opt v) with
    | Some _ => []
    | None => [weight_msg]
    end
  else [].

(** [validateDocument]: reading a field of [null] throws, and so does
    [regex.test(v)] on a value that does not convert to a string. *)
Definition validateDocument (extracted : json) : result Validator.ValidationResult :=
  match extracted with
  | JNull => Throw (TypeError "Cannot read properties of null")
  | _ =>
      let errors :=
        flat_map (fun field =>
                    if negb (Json.truthy (Json.get field extracted))
                    then [Validator.missing_msg field] else [])
                 ["supplier"; "buyer"; "product"] in
      invoice ← Throwing.format_warning (Json.get "invoiceNumber" extracted)
                  (test invoice_re) invoice_msg;
      hs ← Throwing.format_warning (Json.get "hsCode" extracted) (test Validator.hs_re) hs_msg;
      container ← Throwing.format_warning (Json.get "containerNo" extracted)
                    (test Validator.container_re) container_msg;
      Ok {| Validator.passed := Nat.eqb (List.length errors) 0;
            Validator.errors := errors;
            Validator.warnings :=
              invoice ++ hs ++ container ++ weight_warnings (Json.get "weight" extracted) |}
  end.

(** [performAIAnalysis]: the parsed model output, whatever its shape. *)
Definition performAIAnalysis (P : Platform) (E : Services) (content : string) : result json :=
  response ← await_fetch (chat_completions E content);
  let '(status, statusText, body) := response in
  if negb (ok_status status)
  then Throw (Error ("AI Analysis failed: " ++ statusText))
  else
    data ← parse P body;
    AnalyzeDocs.extract P (completion_text data).

Definition initial_steps : list Enhanced.ProcessingStep :=
  [ {| Enhanced.id := "ocr"; Enhanced.step_name := "OCR -> DocTR";
       Enhanced.status := Enhanced.processing; Enhanced.duration := None;
       Enhanced.description := "Document text extraction using DocTR" |};
    {| Enhanced.id := "layout";
       Enhanced.step_name := "Layout Parsing -> LayoutParser + pdfplumber";
       Enhanced.status := Enhanced.pending; Enhanced.duration := None;
       Enhanced.description := "Document structure analysis" |};
    {| Enhanced.id := "ai"; Enhanced.step_name := "LLM -> GPT-5 Nano";
       Enhanced.status := Enhanced.pending; Enhanced.duration := None;
       Enhanced.description := "AI content analysis and extraction" |};
    {| Enhanced.id := "vector"; Enhanced.step_name := "Vector DB -> Qdrant";
       Enhanced.status := Enhanced.pending; Enhanced.duration := None;
       Enhanced.description := "Embedding storage for similarity search" |};
    {| Enhanced.id := "validation"; Enhanced.step_name := "Validation -> Regex + rules";
       Enhanced.status := Enhanced.pending; Enhanced.duration := None;
       Enhanced.description := "Data validation and quality checks" |} ].

Record ProcessingResponse : Type :=
  { steps : list Enhanced.ProcessingStep;
    extracted : json;
    embeddings : json;
    validation : Validator.ValidationResult }.

(** [embeddings.slice(0, 10)] *)
Definition slice10 (embeddings : option json) : result json :=
  match embeddings with
  | Some (JArr components) => Ok (JArr (firstn 10 components))
  | Some (JStr s) => Ok (JStr (JS.take 10 s))
  | None | Some JNull => Throw (TypeError "Cannot read properties of undefined")
  | Some _ => Throw (TypeError "embeddings.slice is not a function")
  end.

(** The body of the [try] block once the content is known. *)
Definition process (P : Platform) (E : Services) (content : json)
  : result ProcessingResponse :=
  let steps0 := initial_steps in
  (* Step 1: OCR *)
  let ocrText := performOCR content in
  let steps1 := Enhanced.set_done 0 Enhanced.completed (Some "1.2s") steps0 in
  (* Step 2: layout *)
  let steps2 := Enhanced.set_status 1 Enhanced.processing steps1 in
  layout ← parseLayout ocrText;
  let parsedText := text layout in
  let steps3 := Enhanced.set_done 1 Enhanced.completed (Some "0.8s") steps2 in
  (* Step 3: extraction *)
  let steps4 := Enhanced.set_status 2 Enhanced.processing steps3 in
  data ← performAIAnalysis P E parsedText;
  let steps5 := Enhanced.set_done 2 Enhanced.completed (Some "2.1s") steps4 in
  (* Step 4: embedding and storage *)
  let steps6 := Enhanced.set_status 3 Enhanced.processing steps5 in
  let vector := generateEmbeddings P E parsedText in
  let vectorStored := storeInVectorDB E parsedText vector in
  preview ← slice10 vector;
  let steps7 := Enhanced.set_done 3 (if vectorStored then Enhanced.completed else Enhanced.error)
                  (if vectorStored then Some "1.5s" else None) steps6 in
  (* Step 5: validation *)
  let steps8 := Enhanced.set_status 4 Enhanced.processing steps7 in
  checked ← validateDocument data;
  let steps9 := Enhanced.set_done 4 Enhanced.completed (Some "0.3s") steps8 in
  Ok {| steps := steps9; extracted := data; embeddings := preview; validation := checked |}.

Inductive reply : Type :=
| Preflight                                   (* OPTIONS: empty body *)
| NoContent                                   (* 400 { error: "No content provided" } *)
| Processed (r : ProcessingResponse)          (* the result, default status *)
| Failed (error : string).                    (* 500 { error, steps: [error step] } *)

Definition status_code (r : reply) : Z :=
  match r with
  | Preflight | Processed _ => 200
  | NoContent => 400
  | Failed _ => 500
  end.

Definition serve (P : Platform) (E : Services) (req : Request) : reply :=
  if String.eqb (method req) "OPTIONS" then Preflight
  else
    let body := req_json_or_empty P req in
    let content := Enhanced.or_else (Json.get "content" body) (JStr EmptyString) in
    if negb (Json.truthy (Some content)) then NoContent
    else match process P E content with
         | Ok r => Processed r
         | Throw e => Failed (exn_String e)
         end.

End Basic.

(** ** Shapes of texts

    The shapes the format rules of the validators accept, and the cut of a
    line at its first colon, stated on strings. *)

Module Shape.

(** Some character of the text satisfies [p]. *)
Fixpoint some (p : ascii -> bool) (s : string) : bool :=
  match s with
  | EmptyString => false
  | String c s' => p c || some p s'
  end.

(** Between [lo] and [hi] characters, all of them digits. *)
Definition digits_between (lo hi : nat) (s : string) : bool :=
  Spec.every JS.is_digit s && (lo <=? String.length s)%nat && (String.length s <=? hi)%nat.

(** Four letters followed by seven digits. *)
Definition container_number (s : string) : Prop :=
  exists letters digits,
    s = (letters ++ digits)%string
    /\ Spec.every JS.is_alpha letters = true /\ String.length letters = 4%nat
    /\ Spec.every JS.is_digit digits = true /\ String.length digits = 7%nat.

(** An optional INV, INVOICE or #, in either case; an optional dash; three
    to ten digits. *)
Definition invoice_number (s : string) : Prop :=
  exists prefix dash digits,
    s = (prefix ++ dash ++ digits)%string
    /\ In (Spec.lower prefix) [""; "inv"; "invoice"; "#"]
    /\ (dash = "" \/ dash = "-")
    /\ digits_between 3 10 digits = true.

(** One or two digits, a dash or slash, one or two digits, a dash or
    slash, two to four digits, anywhere in the text. *)
Definition holds_date (s : string) : Prop :=
  exists pre d1 sep1 d2 sep2 d3 post,
    s = (pre ++ d1 ++ String sep1 d2 ++ String sep2 d3 ++ post)%string
    /\ digits_between 1 2 d1 = true /\ Validator.is_dash_or_slash sep1 = true
    /\ digits_between 1 2 d2 = true /\ Validator.is_dash_or_slash sep2 = true
    /\ digits_between 2 4 d3 = true.

(** A digit, any white space, then kg or lb in either case, anywhere in
    the text. *)
Definition digit_then_kg_or_lb (s : string) : Prop :=
  exists pre d ws unit post,
    s = (pre ++ String d ws ++ unit ++ post)%string
    /\ JS.is_digit d = true /\ Spec.every JS.is_space ws = true
    /\ In (Spec.lower unit) ["kg"; "lb"].

(** Neither '!' nor '?'. *)
Definition plain (c : ascii) : bool := negb (JS.char_is "!" c || JS.char_is "?" c).

(** The text before the first [c] and the text after it. *)
Fixpoint before (c : ascii) (s : string) : string :=
  match s with
  | EmptyString => EmptyString
  | String x s' => if Ascii.eqb x c then EmptyString else String x (before c s')
  end.

Fixpoint after (c : ascii) (s : string) : string :=
  match s with
  | EmptyString => EmptyString
  | String x s' => if Ascii.eqb x c then s' else after c s'
  end.

(** The pair the layout stage makes of a line with a colon. *)
Definition pair_at_colon (line : string) : Layout.KeyValue :=
  {| Layout.key := JS.trim (before ":" line);
     Layout.value := JS.trim (after ":" line);
     Layout.kv_bbox := [50; 100; 300; 120] |}.

(** The messages of the enhanced validator, in the order of its rules. *)
Definition all_warnings : list string :=
  [ Validator.invoice_msg; Validator.hs_msg; Validator.container_msg;
    Validator.weight_format_msg; Validator.weight_value_msg;
    Validator.date_msg; Validator.quantity_msg ].

(** A chunk of the sentence chunker is one trimmed sentence, or exceeds
    the maximum by the two characters of a separator at most. *)
Definition bounded_chunk (maxChunkSize : Z) (sentences : list string) (chunk : string) : Prop :=
  In chunk (map JS.trim sentences) \/ JS.len chunk <= maxChunkSize + 2.

(** A chunk of the word chunker is not empty, and is one word or within
    the maximum. *)
Definition bounded_word_chunk (maxChunkSize : Z) (words : list string) (chunk : string) : Prop :=
  chunk <> EmptyString /\ (JS.len chunk <= maxChunkSize \/ In chunk words).

(** The row Step 5 of process-documents stores for an entity. *)
Definition entity_row (documentId : string) (entity : json) : ProcessDocuments.Entity :=
  {| ProcessDocuments.entity_document_id := documentId;
     ProcessDocuments.entity_type := Json.get "type" entity;
     ProcessDocuments.entity_value := Json.get "value" entity;
     ProcessDocuments.confidence := Json.get "confidence" entity |}.

End Shape.

(** ** Further sample requests and service answers

    As in [Samples]: JSON texts with the values [JSON.parse] gives for
    them, and services that answer with these texts. *)

Module Scenario.
Import Samples.

Definition backslash : string := String (ascii_of_nat 92) EmptyString.

(** The text of a string inside a JSON string literal: every double quote
    behind a backslash. *)
Fixpoint escape (s : string) : string :=
  match s with
  | EmptyString => EmptyString
  | String c s' =>
      if Ascii.eqb c (ascii_of_nat 34) then (backslash ++ dq ++ escape s')%string
      else String c (escape s')
  end.

(** [{"supplier":"Acme Co","entities":[{"type":"supplier","value":"Acme
    Co","confidence":0.9}]}] *)
Definition extraction : string :=
  "{" ++ q "supplier" ++ ":" ++ q "Acme Co" ++ "," ++ q "entities" ++ ":[{"
      ++ q "type" ++ ":" ++ q "supplier" ++ "," ++ q "value" ++ ":" ++ q "Acme Co" ++ ","
      ++ q "confidence" ++ ":0.9}]}".

(** [{"choices":[{"message":{"content":"..."}}]}] with the extraction as
    the content. *)
Definition model_reply : string :=
  "{" ++ q "choices" ++ ":[{" ++ q "message" ++ ":{" ++ q "content" ++ ":"
      ++ dq ++ escape extraction ++ dq ++ "}}]}".

(** [{"data":[{"embedding":[0.25,0.5,0.75]}]}] *)
Definition embeddings_reply : string :=
  "{" ++ q "data" ++ ":[{" ++ q "embedding" ++ ":[0.25,0.5,0.75]}]}".

(** [{"data":[{}]}]: an answer of the embedding service without a
    vector. *)
Definition hollow_embeddings_reply : string := "{" ++ q "data" ++ ":[{}]}".

(** [{"user_id":"u-1"}] *)
Definition user_request : string := "{" ++ q "user_id" ++ ":" ++ q "u-1" ++ "}".

(** [{"document_content":"Invoice 42","job_id":"job-9"}] *)
Definition stray_job_request : string :=
  "{" ++ q "document_content" ++ ":" ++ q "Invoice 42" ++ ","
      ++ q "job_id" ++ ":" ++ q "job-9" ++ "}".

Definition extraction_value : json :=
  JObj [ ("supplier", JStr "Acme Co");
         ("entities", JArr [ JObj [ ("type", JStr "supplier");
                                    ("value", JStr "Acme Co");
                                    ("confidence", JNum true "0.9") ] ]) ].

Definition parsed : list (string * json) :=
  [ ("{}", JObj []);
    (content_request, JObj [("content", JStr document)]);
    (job_request, JObj [("document_content", JStr "Invoice 42"); ("job_id", JStr "job-1")]);
    (stray_job_request,
     JObj [("document_content", JStr "Invoice 42"); ("job_id", JStr "job-9")]);
    (user_request, JObj [("user_id", JStr "u-1")]);
    (extraction, extraction_value);
    (model_reply,
     JObj [("choices", JArr [JObj [("message", JObj [("content", JStr extraction)])]])]);
    (hollow_embeddings_reply, JObj [("data", JArr [JObj []])]);
    (embeddings_reply,
     JObj [("data", JArr [JObj [("embedding",
                                 JArr [JNum true "0.25"; JNum true "0.5"; JNum true "0.75"])]])]) ].

Definition platform : Platform := {| Http.JSON_parse := fun text => Json.assoc text parsed |}.

(** Every service of process-documents answers. *)
Definition services_up : ProcessDocuments.Services :=
  {| ProcessDocuments.chat_completions := fun _ => Responded 200 "OK" model_reply;
     ProcessDocuments.embeddings_api := fun _ => Responded 200 "OK" embeddings_reply;
     ProcessDocuments.qdrant_points := fun _ => Responded 200 "OK" "{}";
     ProcessDocuments.randomUUID := "00000000-0000-4000-8000-000000000000";
     ProcessDocuments.started := 1000;
     ProcessDocuments.finished := 2500;
     ProcessDocuments.today := "2025-09-09";
     ProcessDocuments.now_iso := "2025-09-09T09:16:16.000Z" |}.

(** The model service of the enhanced pipeline answers 429. *)
Definition enhanced_model_busy : Enhanced.Services :=
  {| Enhanced.chat_completions := fun _ => Responded 429 "Too Many Requests" EmptyString;
     Enhanced.embeddings_api := fun _ => Responded 200 "OK" embeddings_reply;
     Enhanced.qdrant_collection := Responded 200 "OK" "{}";
     Enhanced.qdrant_create := Responded 200 "OK" "{}";
     Enhanced.qdrant_points := fun _ => Responded 200 "OK" "{}" |}.

(** Every service of the enhanced pipeline answers. *)
Definition enhanced_up : Enhanced.Services :=
  {| Enhanced.chat_completions := fun _ => Responded 200 "OK" model_reply;
     Enhanced.embeddings_api := fun _ => Responded 200 "OK" embeddings_reply;
     Enhanced.qdrant_collection := Responded 404 "Not Found" EmptyString;
     Enhanced.qdrant_create := Responded 200 "OK" "{}";
     Enhanced.qdrant_points := fun _ => Responded 200 "OK" "{}" |}.

(** Bodies of analyze-docs with a texts array and no content string:
    [{"content":5,"texts":["Supplier: Acme Co"]}], [{"texts":[]}] and
    [{"texts":[{"toString":1}]}]. *)
Definition number_content_request : string :=
  "{" ++ q "content" ++ ":5," ++ q "texts" ++ ":[" ++ q "Supplier: Acme Co" ++ "]}".

Definition empty_texts_request : string := "{" ++ q "texts" ++ ":[]}".

Definition opaque_texts_request : string :=
  "{" ++ q "texts" ++ ":[{" ++ q "toString" ++ ":1}]}".

Definition texts_bodies : list (string * json) :=
  [ ("{}", JObj []);
    (number_content_request,
     JObj [("content", JNum true "5"); ("texts", JArr [JStr "Supplier: Acme Co"])]);
    (empty_texts_request, JObj [("texts", JArr [])]);
    (opaque_texts_request, JObj [("texts", JArr [JObj [("toString", JNum true "1")]])]) ].

Definition texts_platform : Platform :=
  {| Http.JSON_parse := fun text => Json.assoc text texts_bodies |}.

(** The model service of analyze-docs answers 401 with a body of its own. *)
Definition refusing_model : AnalyzeDocs.Services :=
  {| AnalyzeDocs.chat_completions := fun _ => Responded 401 "Unauthorized" "invalid api key" |}.

(** Every service of the basic pipeline answers. *)
Definition basic_up : Basic.Services :=
  {| Basic.chat_completions := fun _ => Responded 200 "OK" model_reply;
     Basic.embeddings_api := fun _ => Responded 200 "OK" embeddings_reply;
     Basic.qdrant_points := fun _ _ => Responded 200 "OK" "{}" |}.

(** The embedding service of the basic pipeline answers without a
    vector. *)
Definition basic_hollow : Basic.Services :=
  {| Basic.chat_completions := fun _ => Responded 200 "OK" model_reply;
     Basic.embeddings_api := fun _ => Responded 200 "OK" hollow_embeddings_reply;
     Basic.qdrant_points := fun _ _ => Responded 200 "OK" "{}" |}.

(** The embedding service of the basic pipeline is down. *)
Definition basic_embeddings_down : Basic.Services :=
  {| Basic.chat_completions := fun _ => Responded 200 "OK" model_reply;
     Basic.embeddings_api := fun _ => Responded 503 "Service Unavailable" EmptyString;
     Basic.qdrant_points := fun _ _ => Responded 200 "OK" "{}" |}.

End Scenario.

(* ===================================================================== *)
(** * Part II. Properties                                                 *)
(* ===================================================================== *)

(** ** Strings *)

Lemma append_cons (c : ascii) (s t : string) : String c s +:+ t = String c (s +:+ t).
Proof. reflexivity. Qed.

Lemma append_nil_l (s : string) : EmptyString +:+ s = s.
Proof. reflexivity. Qed.

Lemma append_nil_r (s : string) : s +:+ EmptyString = s.
Proof. induction s as [|c s IH]; [reflexivity | rewrite append_cons; f_equal; exact IH]. Qed.

Lemma append_assoc (a b c : string) : (a +:+ b) +:+ c = a +:+ (b +:+ c).
Proof. induction a as [|x a IH]; [reflexivity | rewrite !append_cons; f_equal; exact IH]. Qed.

Lemma length_append (a b : string) :
  String.length (a +:+ b) = (String.length a + String.length b)%nat.
Proof.
  induction a as [|x a IH]; [reflexivity | rewrite append_cons; simpl; f_equal; exact IH].
Qed.

Lemma len_append (a b : string) : JS.len (a +:+ b) = JS.len a + JS.len b.
Proof. unfold JS.len. rewrite length_append. lia. Qed.

Lemma nonempty_true (s : string) : JS.nonempty s = true <-> s <> EmptyString.
Proof. destruct s; simpl; split; congruence. Qed.

Lemma nonempty_false (s : string) : JS.nonempty s = false <-> s = EmptyString.
Proof. destruct s; simpl; split; congruence. Qed.

(** *** Trimming *)

Lemma trimStart_clean (s : string) : starts_clean (JS.trimStart s).
Proof.
  induction s as [|c s IH]; simpl; [exact I|].
  destruct (JS.is_space c) eqn:Hc; [exact IH | exact Hc].
Qed.

Lemma trimStart_fixed (s : string) : starts_clean s -> JS.trimStart s = s.
Proof. destruct s as [|c s]; simpl; [reflexivity|]. now intros ->. Qed.

Lemma trimEnd_clean (s : string) : starts_clean s -> starts_clean (JS.trimEnd s).
Proof.
  destruct s as [|c s]; simpl; [trivial|]. intros Hc.
  destruct (JS.trimEnd s); [rewrite Hc|]; exact Hc.
Qed.

Lemma trimEnd_idem (s : string) : JS.trimEnd (JS.trimEnd s) = JS.trimEnd s.
Proof.
  induction s as [|c s IH]; simpl; [reflexivity|].
  destruct (JS.trimEnd s) as [|d t] eqn:Ht.
  - destruct (JS.is_space c) eqn:Hc; simpl; [reflexivity | now rewrite Hc].
  - change (JS.trimEnd (String c (String d t))) with
      (match JS.trimEnd (String d t) with
       | EmptyString => if JS.is_space c then EmptyString else String c EmptyString
       | u => String c u
       end).
    now rewrite IH.
Qed.

Lemma tidy_trim (s : string) : JS.trim s <> EmptyString -> tidy (JS.trim s).
Proof.
  intros Hne. split; [exact Hne|]. unfold JS.trim. split.
  - apply trimEnd_clean, trimStart_clean.
  - apply trimEnd_idem.
Qed.

Lemma trim_tidy (s : string) : tidy s -> JS.trim s = s.
Proof. intros (_ & Hs & He). unfold JS.trim. now rewrite (trimStart_fixed s Hs). Qed.

Lemma trimEnd_append (a b : string) :
  b <> EmptyString -> JS.trimEnd b = b -> JS.trimEnd (a +:+ b) = a +:+ b.
Proof.
  intros Hne Hb. induction a as [|c a IH]; [exact Hb|].
  rewrite append_cons. simpl. rewrite IH. destruct (a +:+ b) eqn:Hab; [|reflexivity].
  destruct a; [rewrite append_nil_l in Hab; congruence | discriminate].
Qed.

Lemma tidy_append (a m b : string) : tidy a -> tidy b -> tidy (a +:+ m +:+ b).
Proof.
  intros (Ha & Hsa & _) (Hb & _ & Heb). split; [|split].
  - destruct a; [congruence | discriminate].
  - destruct a; [congruence | exact Hsa].
  - rewrite <- append_assoc. now apply trimEnd_append.
Qed.

(** ** Text chunker *)

Lemma join_cons2 (sep x y : string) (l : list string) :
  JS.join sep (x :: y :: l) = x +:+ sep +:+ JS.join sep (y :: l).
Proof. reflexivity. Qed.

Lemma join_app (sep : string) (l1 l2 : list string) :
  l1 <> [] -> l2 <> [] ->
  JS.join sep (l1 ++ l2) = JS.join sep l1 +:+ sep +:+ JS.join sep l2.
Proof.
  intros H1 H2. induction l1 as [|x l1 IH]; [congruence|].
  destruct l1 as [|y l1].
  - destruct l2 as [|z l2]; [congruence | reflexivity].
  - change ((x :: y :: l1) ++ l2) with (x :: y :: (l1 ++ l2)).
    rewrite !join_cons2. change (y :: l1 ++ l2) with ((y :: l1) ++ l2).
    rewrite IH by discriminate. now rewrite !append_assoc.
Qed.

Lemma render_snoc (g : list string) (t : string) :
  g <> [] -> Spec.render (g ++ [t]) = Spec.render g +:+ ". " +:+ t.
Proof. intros Hg. unfold Spec.render. now rewrite join_app. Qed.

Lemma tidy_render (g : list string) :
  g <> [] -> Forall tidy g -> tidy (Spec.render g).
Proof.
  intros Hne Hall. induction Hall as [|x l Hx Hl IH]; [congruence|].
  destruct l as [|y l]; [exact Hx|].
  unfold Spec.render. rewrite join_cons2. apply tidy_append; [exact Hx|].
  apply IH. discriminate.
Qed.

Lemma render_nonempty (g : list string) :
  Forall tidy g -> JS.nonempty (Spec.render g) = true <-> g <> [].
Proof.
  intros Hall. split.
  - intros H ->. discriminate.
  - intros Hne. apply nonempty_true. now destruct (tidy_render g Hne Hall).
Qed.

Lemma concat_nonempty (gs : list (list string)) :
  gs <> [] -> Forall (fun g => g <> []) gs -> concat gs <> [].
Proof.
  intros Hne Hall. destruct Hall as [|g gs Hg _]; [congruence|].
  simpl. destruct g; [congruence | discriminate].
Qed.

Lemma join_groups (gs : list (list string)) :
  Forall (fun g => g <> []) gs ->
  JS.join ". " (map Spec.render gs) = JS.join ". " (concat gs).
Proof.
  induction 1 as [|g gs Hg Hgs IH]; [reflexivity|].
  destruct gs as [|g' gs].
  - simpl. now rewrite app_nil_r.
  - change (map Spec.render (g :: g' :: gs))
      with (Spec.render g :: Spec.render g' :: map Spec.render gs).
    rewrite join_cons2.
    change (Spec.render g' :: map Spec.render gs) with (map Spec.render (g' :: gs)).
    rewrite IH. change (concat (g :: g' :: gs)) with (g ++ concat (g' :: gs)).
    rewrite join_app; [reflexivity | exact Hg |].
    apply concat_nonempty; [discriminate | exact Hgs].
Qed.

(** The loop keeps a grouping of the sentences read so far: the chunks
    pushed are the closed groups, [currentChunk] is the open one. *)
Lemma step_groups (maxChunkSize : Z) (ss : list string) :
  Forall (fun s => JS.nonempty (JS.trim s) = true) ss ->
  forall (gs : list (list string)) (g : list string),
    Forall (fun x => x <> []) gs ->
    Forall tidy (concat gs ++ g) ->
    exists gs' g',
      fold_left (Chunker.step maxChunkSize) ss (map Spec.render gs, Spec.render g)
      = (map Spec.render gs', Spec.render g')
      /\ Forall (fun x => x <> []) gs'
      /\ Forall tidy (concat gs' ++ g')
      /\ concat gs' ++ g' = (concat gs ++ g) ++ map JS.trim ss.
Proof.
  induction 1 as [|s ss Hs Hss IH]; intros gs g Hgs Htidy.
  - exists gs, g. simpl. now rewrite app_nil_r.
  - assert (Ht : tidy (JS.trim s)) by (apply tidy_trim; now apply nonempty_true).
    assert (Hg : Forall tidy g) by (apply Forall_app in Htidy; tauto).
    assert (Hc : Forall tidy (concat gs)) by (apply Forall_app in Htidy; tauto).
    pose proof (render_nonempty g Hg) as Hne.
    cbn [fold_left]. unfold Chunker.step at 2.
    destruct ((JS.len (Spec.render g ++ s) >? maxChunkSize)
              && JS.nonempty (Spec.render g)) eqn:Hcond.
    + apply andb_true_iff in Hcond as [_ Hcur]. apply Hne in Hcur.
      rewrite (trim_tidy (Spec.render g)) by now apply tidy_render.
      destruct (IH (gs ++ [g]) [JS.trim s]) as (gs' & g' & Hfold & H1 & H2 & H3).
      * apply Forall_app; split; [exact Hgs | now constructor].
      * rewrite concat_app. simpl. rewrite app_nil_r.
        apply Forall_app; split; [exact Htidy | now constructor].
      * exists gs', g'. rewrite map_app in Hfold.
        change (Spec.render [JS.trim s]) with (JS.trim s) in Hfold.
        change (map Spec.render [g]) with [Spec.render g] in Hfold.
        rewrite Hfold. repeat split; try assumption.
        rewrite H3, concat_app. simpl. now rewrite app_nil_r, <- app_assoc.
    + destruct (IH gs (g ++ [JS.trim s])) as (gs' & g' & Hfold & H1 & H2 & H3).
      * exact Hgs.
      * rewrite app_assoc. apply Forall_app; split; [exact Htidy | now constructor].
      * exists gs', g'.
        assert (Hr : (Spec.render g ++
                       (if JS.nonempty (Spec.render g) then ". " else "") ++ JS.trim s)%string
                     = Spec.render (g ++ [JS.trim s])).
        { destruct g as [|x g]; [reflexivity|].
          rewrite render_snoc by discriminate.
          now rewrite (proj2 Hne) by discriminate. }
        rewrite Hr, Hfold. repeat split; try assumption.
        rewrite H3. now rewrite <- !app_assoc.
Qed.

Lemma sentences_nonblank (text : string) :
  Forall (fun s => JS.nonempty (JS.trim s) = true) (Chunker.sentences text).
Proof. apply Forall_forall. intros s Hs. now apply filter_In in Hs. Qed.

(** The chunks assembled before the length filter are a grouping of all
    the trimmed sentences, in order. *)
Lemma assemble_groups (maxChunkSize : Z) (ss : list string) :
  Forall (fun s => JS.nonempty (JS.trim s) = true) ss ->
  exists groups,
    Forall (fun g => g <> []) groups
    /\ concat groups = map JS.trim ss
    /\ Chunker.assemble maxChunkSize ss = map Spec.render groups.
Proof.
  intros Hss.
  destruct (step_groups maxChunkSize ss Hss [] []) as (gs & g & Hfold & H1 & H2 & H3);
    [constructor | constructor |].
  unfold Chunker.assemble.
  change (fold_left (Chunker.step maxChunkSize) ss ([], EmptyString))
    with (fold_left (Chunker.step maxChunkSize) ss (map Spec.render [], Spec.render [])).
  rewrite Hfold.
  assert (Hg : Forall tidy g) by (apply Forall_app in H2; tauto).
  destruct (JS.nonempty (Spec.render g)) eqn:Hne.
  - apply (render_nonempty g Hg) in Hne.
    exists (gs ++ [g]). split; [|split].
    + apply Forall_app; split; [exact H1 | now constructor].
    + rewrite concat_app. simpl. now rewrite app_nil_r.
    + rewrite map_app. simpl. now rewrite (trim_tidy (Spec.render g)) by now apply tidy_render.
  - assert (g = []) as ->.
    { destruct g as [|x g]; [reflexivity|].
      assert (JS.nonempty (Spec.render (x :: g)) = true) by (now apply render_nonempty).
      congruence. }
    exists gs. rewrite app_nil_r in H3. now repeat split.
Qed.

(** C1, as stated, fails on a three-sentence text with max-chunk-size 25:
    the last sentence, a chunk of its own of length 1, is dropped by the
    length filter, and the first chunk has 26 characters although no
    sentence is longer than 13. *)
Lemma chunkText_drops_and_overflows :
  Chunker.sentences "aaaaaaaaaaaa. bbbbbbbbbbbb. c" = ["aaaaaaaaaaaa"; " bbbbbbbbbbbb"; " c"]
  /\ Chunker.chunkText "aaaaaaaaaaaa. bbbbbbbbbbbb. c" 25 = ["aaaaaaaaaaaa. bbbbbbbbbbbb"]
  /\ Spec.reproduces_sentences "aaaaaaaaaaaa. bbbbbbbbbbbb. c" 25 = false
  /\ Spec.within_size "aaaaaaaaaaaa. bbbbbbbbbbbb. c" 25 = false.
Proof. repeat split; vm_compute; reflexivity. Qed.

(** C1, as amended: for every text and max-chunk-size the chunks assembled
    by the loop, before the length filter, are a grouping of all the trimmed
    sentences of the text in their order, each chunk being the sentences of
    its group joined by ". "; joined by ". " again they give back the joined
    sentences; and [chunkText] emits the chunks longer than 20 characters, so
    the sentences it loses are those of the shorter chunks. *)
Theorem chunkText_groups_sentences (text : string) (maxChunkSize : Z) :
  exists groups : list (list string),
    Forall (fun g => g <> []) groups
    /\ concat groups = map JS.trim (Chunker.sentences text)
    /\ Chunker.assemble maxChunkSize (Chunker.sentences text) = map Spec.render groups
    /\ JS.join ". " (Chunker.assemble maxChunkSize (Chunker.sentences text))
       = JS.join ". " (map JS.trim (Chunker.sentences text))
    /\ Chunker.chunkText text maxChunkSize
       = List.filter Chunker.long_enough (map Spec.render groups).
Proof.
  destruct (assemble_groups maxChunkSize (Chunker.sentences text) (sentences_nonblank text))
    as (groups & Hne & Hcat & Hasm).
  exists groups. repeat split; try assumption.
  - rewrite Hasm, join_groups by exact Hne. now rewrite Hcat.
  - unfold Chunker.chunkText. now rewrite Hasm.
Qed.

Lemma filter_nothing {A : Type} (f : A -> bool) (l : list A) :
  (forall x, In x l -> f x = false) -> List.filter f l = [].
Proof.
  induction l as [|x l IH]; intros H; [reflexivity|]. simpl.
  rewrite (H x (or_introl eq_refl)). apply IH. intros y Hy. apply H. now right.
Qed.

(** C8, as stated, fails on a text of exactly 20 characters: its only
    chunk has length 20 and is dropped. *)
Lemma chunkText_drops_length_20 :
  Chunker.assemble 500 (Chunker.sentences "abcdefghijklmnopqrst") = ["abcdefghijklmnopqrst"]
  /\ JS.len "abcdefghijklmnopqrst" = 20
  /\ Chunker.chunkText "abcdefghijklmnopqrst" 500 = []
  /\ Spec.emits_from_20 "abcdefghijklmnopqrst" 500 = false.
Proof. repeat split; vm_compute; reflexivity. Qed.

(** C8, as amended: [chunkText] emits, in order, exactly the assembled
    chunks that are longer than 20 characters (a chunk of exactly 20 is
    dropped); when no assembled chunk is longer than 20, nothing is
    emitted. *)
Theorem chunkText_keeps_longer_than_20 (text : string) (maxChunkSize : Z) :
  let assembled := Chunker.assemble maxChunkSize (Chunker.sentences text) in
  Chunker.chunkText text maxChunkSize = List.filter (fun chunk => 20 <? JS.len chunk) assembled
  /\ (forall chunk, In chunk (Chunker.chunkText text maxChunkSize)
                    <-> In chunk assembled /\ 20 < JS.len chunk)
  /\ ((forall chunk, In chunk assembled -> JS.len chunk <= 20)
      -> Chunker.chunkText text maxChunkSize = []).
Proof.
  intros assembled.
  assert (Hfilter : Chunker.chunkText text maxChunkSize
                    = List.filter (fun chunk => 20 <? JS.len chunk) assembled).
  { unfold Chunker.chunkText. apply List.filter_ext. intros c.
    unfold Chunker.long_enough. apply Z.gtb_ltb. }
  split; [exact Hfilter|]. split.
  - intros chunk. rewrite Hfilter, filter_In, Z.ltb_lt. tauto.
  - intros Hshort. rewrite Hfilter. apply filter_nothing.
    intros x Hx. apply Z.ltb_ge. now apply Hshort.
Qed.

(** An input text shorter than 20 characters can still yield a chunk: the
    separators the loop inserts make the chunk longer than the text. *)
Example short_text_long_chunk :
  JS.len "a.b.c.d.e.f.g.h" = 15
  /\ Chunker.chunkText "a.b.c.d.e.f.g.h" 500 = ["a. b. c. d. e. f. g. h"].
Proof. split; vm_compute; reflexivity. Qed.

(** ** Field validator *)

Lemma format_warning_other (v : option json) (ok : string -> bool) (msg target : string) :
  msg <> target ->
  count_occ string_dec (Validator.format_warning v ok msg) target = 0%nat.
Proof.
  intros Hne. unfold Validator.format_warning.
  destruct (Json.truthy v); [|reflexivity].
  destruct (ok _); [reflexivity|].
  apply count_occ_not_In. intros [H | []]. contradiction.
Qed.

Lemma weight_warnings_cases (v : option json) :
  Validator.weight_warnings v = []
  \/ Validator.weight_warnings v = [Validator.weight_format_msg]
  \/ Validator.weight_warnings v = [Validator.weight_value_msg].
Proof.
  unfold Validator.weight_warnings.
  destruct (Json.truthy v); [|now left].
  destruct (RegExp.exec _ _) as [m|]; [|now right; left].
  destruct (RegExp.group _ _) as [g1|]; [|now left].
  destruct (Validator.parseFloat _) as [value|]; [|now left].
  destruct (_ || _); [now right; right | now left].
Qed.

Lemma weight_warnings_other (v : option json) (target : string) :
  Validator.weight_format_msg <> target -> Validator.weight_value_msg <> target ->
  count_occ string_dec (Validator.weight_warnings v) target = 0%nat.
Proof.
  intros H1 H2.
  destruct (weight_warnings_cases v) as [-> | [-> | ->]]; [reflexivity | |];
    apply count_occ_not_In; intros [H | []]; contradiction.
Qed.

(** The container warnings of a result are those of the container rule. *)
Lemma container_warnings_rule (extracted : json) :
  Spec.container_warnings (Validator.validateDocument extracted)
  = count_occ string_dec
      (Validator.format_warning (Json.get "containerNo" extracted)
         (fun s => RegExp.test Validator.container_re (JS.remove_all JS.is_space s))
         Validator.container_msg)
      Validator.container_msg.
Proof.
  unfold Spec.container_warnings, Validator.validateDocument. cbn [Validator.warnings].
  rewrite !count_occ_app.
  rewrite (format_warning_other _ _ Validator.invoice_msg),
          (format_warning_other _ _ Validator.hs_msg),
          (format_warning_other _ _ Validator.date_msg),
          (format_warning_other _ _ Validator.quantity_msg),
          weight_warnings_other
    by (intros H; vm_compute in H; discriminate).
  lia.
Qed.

(** C2, as stated, fails: "CNU2256987" has three letters before its seven
    digits, and the validator warns about it. *)
Lemma container_CNU2256987_warned :
  Validator.warnings (Validator.validateDocument (JObj [("containerNo", JStr "CNU2256987")]))
  = [Validator.container_msg]
  /\ Spec.container_warnings
       (Validator.validateDocument (JObj [("containerNo", JStr "CNU2256987")])) = 1%nat.
Proof. split; vm_compute; reflexivity. Qed.

(** C2, as amended: for every ExtractedData whose containerNo is
    "CNU2256987" or "CNU22569", [validateDocument] emits exactly one
    container-number-format warning; neither is four letters followed by
    seven digits. *)
Theorem container_number_warning (extracted : json) (s : string) :
  Json.get "containerNo" extracted = Some (JStr s) ->
  s = "CNU2256987" \/ s = "CNU22569" ->
  Spec.container_warnings (Validator.validateDocument extracted) = 1%nat.
Proof.
  intros Hget Hs. rewrite container_warnings_rule, Hget.
  destruct Hs as [-> | ->]; vm_compute; reflexivity.
Qed.

Lemma container_number_warning_witness :
  Spec.container_warnings
    (Validator.validateDocument
       (JObj [("supplier", JStr "Acme Co"); ("containerNo", JStr "CNU22569")])) = 1%nat.
Proof.
  apply (container_number_warning _ "CNU22569"); [reflexivity | right; reflexivity].
Defined.

(** A number of four letters and seven digits, in either case and with
    white space anywhere, raises no container warning. *)
Lemma container_number_accepted (extracted : json) (s : string) :
  Json.get "containerNo" extracted = Some (JStr s) ->
  s = "ABCD1234567" \/ s = "abcd 123 4567" ->
  Spec.container_warnings (Validator.validateDocument extracted) = 0%nat.
Proof.
  intros Hget Hs. rewrite container_warnings_rule, Hget.
  destruct Hs as [-> | ->]; vm_compute; reflexivity.
Qed.

Lemma errors_unfold (extracted : json) :
  Validator.errors (Validator.validateDocument extracted)
  = (if Validator.missing (Json.get "supplier" extracted)
     then [Validator.missing_msg "supplier"] else [])
    ++ (if Validator.missing (Json.get "buyer" extracted)
        then [Validator.missing_msg "buyer"] else [])
    ++ (if Validator.missing (Json.get "product" extracted)
        then [Validator.missing_msg "product"] else []).
Proof.
  unfold Validator.validateDocument, Validator.requiredFields.
  cbn [Validator.errors flat_map]. now rewrite app_nil_r.
Qed.

Lemma missing_absent_or_blank (v : option json) :
  Spec.absent_or_blank v -> Validator.missing v = true.
Proof.
  intros [-> | (s & -> & Hs)]; [reflexivity|].
  unfold Validator.missing. rewrite Hs. simpl. apply orb_true_r.
Qed.

Lemma missing_filled (v : option json) : Spec.filled v -> Validator.missing v = false.
Proof.
  intros (s & -> & Hs). unfold Validator.missing. simpl.
  assert (Ht : JS.nonempty (JS.trim s) = true) by now apply nonempty_true.
  rewrite Ht. destruct s as [|c s]; [now vm_compute in Hs | reflexivity].
Qed.

Lemma passed_iff_no_errors (extracted : json) :
  Validator.passed (Validator.validateDocument extracted) = true
  <-> Validator.errors (Validator.validateDocument extracted) = [].
Proof.
  unfold Validator.validateDocument. cbn [Validator.passed Validator.errors].
  destruct (flat_map _ _); simpl; split; congruence.
Qed.

(** C3: [passed] is true exactly when the error list is empty; a required
    field that is absent or blank puts its error in the list, so [passed]
    is false; when the three required fields are non-blank strings [passed]
    is true, whatever the format rules say; and [passed] is a function of
    the three required fields alone, so no warning affects it. *)
Theorem validateDocument_passed (extracted : json) :
  let r := Validator.validateDocument extracted in
  (Validator.passed r = true <-> Validator.errors r = [])
  /\ (forall field, In field Validator.requiredFields ->
        Spec.absent_or_blank (Json.get field extracted) ->
        In (Validator.missing_msg field) (Validator.errors r)
        /\ Validator.passed r = false)
  /\ ((forall field, In field Validator.requiredFields ->
         Spec.filled (Json.get field extracted)) ->
      Validator.errors r = [] /\ Validator.passed r = true)
  /\ (forall other,
        (forall field, In field Validator.requiredFields ->
           Json.get field other = Json.get field extracted) ->
        Validator.errors (Validator.validateDocument other) = Validator.errors r
        /\ Validator.passed (Validator.validateDocument other) = Validator.passed r).
Proof.
  intros r. subst r. split; [apply passed_iff_no_errors|]. split; [|split].
  - intros field Hin Hblank. apply missing_absent_or_blank in Hblank.
    assert (Herr : In (Validator.missing_msg field)
                      (Validator.errors (Validator.validateDocument extracted))).
    { rewrite errors_unfold. simpl in Hin.
      destruct Hin as [<- | [<- | [<- | []]]]; rewrite Hblank;
        rewrite !in_app_iff; simpl; tauto. }
    split; [exact Herr|].
    destruct (Validator.passed _) eqn:Hp; [|reflexivity].
    apply passed_iff_no_errors in Hp. rewrite Hp in Herr. destruct Herr.
  - intros Hall.
    assert (Herr : Validator.errors (Validator.validateDocument extracted) = []).
    { rewrite errors_unfold.
      rewrite !missing_filled by (apply Hall; simpl; tauto). reflexivity. }
    split; [exact Herr | now apply passed_iff_no_errors].
  - intros other Hsame.
    assert (Herr : Validator.errors (Validator.validateDocument other)
                   = Validator.errors (Validator.validateDocument extracted)).
    { rewrite !errors_unfold. rewrite !Hsame by (simpl; tauto). reflexivity. }
    split; [exact Herr|].
    unfold Validator.validateDocument in *. cbn [Validator.passed Validator.errors] in *.
    now rewrite Herr.
Qed.

(** A document with the three required fields passes although two of its
    format rules warn, and one without a buyer fails with no warning. *)
Lemma validateDocument_passed_witness :
  Validator.passed
    (Validator.validateDocument
       (JObj [("supplier", JStr "Acme Co"); ("buyer", JStr "Globex");
              ("product", JStr "Lamps"); ("hsCode", JStr "94"); ("weight", JStr "heavy")]))
  = true
  /\ List.length
       (Validator.warnings
          (Validator.validateDocument
             (JObj [("supplier", JStr "Acme Co"); ("buyer", JStr "Globex");
                    ("product", JStr "Lamps"); ("hsCode", JStr "94");
                    ("weight", JStr "heavy")]))) = 2%nat
  /\ Validator.passed
       (Validator.validateDocument
          (JObj [("supplier", JStr "Acme Co"); ("buyer", JStr "  "); ("product", JStr "Lamps")]))
     = false.
Proof.
  split; [|split].
  - apply (validateDocument_passed
             (JObj [("supplier", JStr "Acme Co"); ("buyer", JStr "Globex");
                    ("product", JStr "Lamps"); ("hsCode", JStr "94");
                    ("weight", JStr "heavy")])).
    intros field [<- | [<- | [<- | []]]]; eexists; (split; [reflexivity | discriminate]).
  - reflexivity.
  - apply (validateDocument_passed
             (JObj [("supplier", JStr "Acme Co"); ("buyer", JStr "  ");
                    ("product", JStr "Lamps")]) )
      with (field := "buyer"); [simpl; tauto|].
    right. exists "  ". split; reflexivity.
Defined.

(** ** Layout stage *)

Lemma classify_table_priority (line : string) :
  JS.includes "|" line = true -> Layout.classify line = Layout.TableRow (Spec.cells line).
Proof.
  intros Hbar. unfold Layout.classify. rewrite Hbar.
  now rewrite andb_false_r.
Qed.

Lemma scan_step_flat (lines : list string) :
  forall kvs rows,
    fold_left Layout.scan_step lines (kvs, rows)
    = (kvs ++ flat_map Spec.pair_of lines, rows ++ flat_map Spec.row_of lines).
Proof.
  induction lines as [|line lines IH]; intros kvs rows.
  - simpl. now rewrite !app_nil_r.
  - cbn [fold_left flat_map].
    assert (Hstep : Layout.scan_step (kvs, rows) line
                    = (kvs ++ Spec.pair_of line, rows ++ Spec.row_of line)).
    { unfold Layout.scan_step, Spec.pair_of, Spec.row_of.
      destruct (Layout.classify line); cbn [fst snd]; now rewrite ?app_nil_r. }
    rewrite Hstep, IH. now rewrite <- !app_assoc.
Qed.

Lemma rows_of_lines (lines : list string) :
  flat_map Spec.row_of lines = map Spec.cells (List.filter (JS.includes "|") lines).
Proof.
  induction lines as [|line lines IH]; [reflexivity|].
  cbn [flat_map List.filter]. unfold Spec.row_of at 1.
  destruct (JS.includes "|" line) eqn:Hbar.
  - rewrite classify_table_priority by exact Hbar. simpl. now rewrite IH.
  - unfold Layout.classify. rewrite Hbar, andb_true_r.
    destruct (JS.includes ":" line); [destruct (JS.split ":" line)|]; exact IH.
Qed.

(** C7: a line that contains both ':' and '|' is taken for a table row
    (the test for '|' decides), so the rows of the table are the lines with
    a '|' and no such line yields a key-value pair; with fewer than two
    rows the table list is empty. *)
Theorem parseLayout_table_priority (ocrResult : Layout.OCRResult) :
  let lines := Layout.lines_of (Layout.ocr_text ocrResult) in
  let rows := map Spec.cells (List.filter (JS.includes "|") lines) in
  let layout := Layout.structure (Layout.parseLayout ocrResult) in
  (forall line, JS.includes ":" line = true -> JS.includes "|" line = true ->
      Layout.classify line = Layout.TableRow (Spec.cells line)
      /\ Spec.pair_of line = [])
  /\ Layout.keyValuePairs layout = flat_map Spec.pair_of lines
  /\ Layout.tables layout = Layout.tables_of rows
  /\ ((List.length rows < 2)%nat -> Layout.tables layout = []).
Proof.
  intros lines rows layout.
  assert (Hscan : Layout.scan lines = (flat_map Spec.pair_of lines, rows)).
  { unfold Layout.scan. rewrite scan_step_flat. simpl. now rewrite rows_of_lines. }
  assert (Htables : Layout.tables layout = Layout.tables_of rows).
  { subst layout. unfold Layout.parseLayout. fold lines. now rewrite Hscan. }
  split; [|split; [|split]].
  - intros line _ Hbar. unfold Spec.pair_of.
    now rewrite classify_table_priority by exact Hbar.
  - subst layout. unfold Layout.parseLayout. fold lines. now rewrite Hscan.
  - exact Htables.
  - intros Hfew. rewrite Htables. unfold Layout.tables_of.
    destruct (Z.of_nat (List.length rows) >? 1) eqn:Hgt; [|reflexivity].
    apply Z.gtb_lt in Hgt. lia.
Qed.

(** One row with a colon in it and one key-value line: the row is not a
    pair, and a single row makes no table. *)
Lemma parseLayout_table_priority_witness :
  Layout.classify "Total: 5 | Net: 4" = Layout.TableRow ["Total: 5"; "Net: 4"]
  /\ Layout.tables (Layout.structure (Layout.parseLayout
       {| Layout.ocr_text := "Total: 5 | Net: 4"; Layout.blocks := [] |})) = [].
Proof.
  split.
  - apply (parseLayout_table_priority
             {| Layout.ocr_text := "Total: 5 | Net: 4"; Layout.blocks := [] |});
      reflexivity.
  - apply (parseLayout_table_priority
             {| Layout.ocr_text := "Total: 5 | Net: 4"; Layout.blocks := [] |}).
    vm_compute. lia.
Defined.

(** ** Conversions to a string *)

Lemma to_String_returns (v : option json) (text : string) :
  Throwing.to_String v = Ok text -> text = Json.to_String_opt v.
Proof.
  unfold Throwing.to_String. destruct v as [x|]; [|now intros [= <-]].
  destruct (Json.converts x); [now intros [= <-] | discriminate].
Qed.

Lemma format_warning_returns (v : option json) (ok : string -> bool) (msg : string)
    (found : list string) :
  Throwing.format_warning v ok msg = Ok found -> found = Validator.format_warning v ok msg.
Proof.
  unfold Throwing.format_warning, Validator.format_warning.
  destruct (Json.truthy v); [|now intros [= <-]].
  destruct (Throwing.to_String v) as [text|e] eqn:Htext; cbn [mbind result_bind Http.bind];
    [|discriminate].
  apply to_String_returns in Htext. subst text. now intros [= <-].
Qed.

Lemma weight_warnings_returns (v : option json) (found : list string) :
  Throwing.weight_warnings v = Ok found -> found = Validator.weight_warnings v.
Proof.
  unfold Throwing.weight_warnings. destruct (Json.truthy v) eqn:Htruthy.
  - destruct (Throwing.to_String v); cbn [mbind result_bind Http.bind];
      [now intros [= <-] | discriminate].
  - intros [= <-]. unfold Validator.weight_warnings. now rewrite Htruthy.
Qed.

(** When the call of the validator returns, it returns the result of
    [Validator.validateDocument]. *)
Lemma validateDocument_returns (extracted : json) (r : Validator.ValidationResult) :
  Throwing.validateDocument extracted = Ok r -> r = Validator.validateDocument extracted.
Proof.
  unfold Throwing.validateDocument, Validator.validateDocument.
  destruct extracted; [discriminate|..].
  all: repeat match goal with
         | |- context [Throwing.format_warning ?v ?ok ?msg] =>
             let E := fresh "E" in
             destruct (Throwing.format_warning v ok msg) eqn:E;
             cbn [mbind result_bind Http.bind];
             [apply format_warning_returns in E; subst | discriminate]
         | |- context [Throwing.weight_warnings ?v] =>
             let E := fresh "E" in
             destruct (Throwing.weight_warnings v) eqn:E;
             cbn [mbind result_bind Http.bind];
             [apply weight_warnings_returns in E; subst | discriminate]
         end.
  all: now intros [= <-].
Qed.

(** A rule either returns, its field being falsy or convertible, or throws
    on a truthy field that does not convert. *)
Lemma format_warning_cases (v : option json) (ok : string -> bool) (msg : string) :
  (Throwing.format_warning v ok msg = Ok (Validator.format_warning v ok msg)
   /\ forall x, v = Some x -> Json.truthy (Some x) = true -> Json.converts x = true)
  \/ (Throwing.format_warning v ok msg = Throw Throwing.cannot_convert
      /\ exists x, v = Some x /\ Json.truthy (Some x) = true /\ Json.converts x = false).
Proof.
  unfold Throwing.format_warning, Validator.format_warning.
  destruct v as [x|]; [|left; split; [reflexivity | discriminate]].
  destruct (Json.truthy (Some x)) eqn:Htruthy;
    [|left; split; [reflexivity | intros y [= <-]; congruence]].
  cbn [Throwing.to_String Json.to_String_opt]. destruct (Json.converts x) eqn:Hconverts.
  - left. split; [reflexivity|]. now intros y [= <-].
  - right. split; [reflexivity|]. now exists x.
Qed.

Lemma weight_warnings_call_cases (v : option json) :
  (Throwing.weight_warnings v = Ok (Validator.weight_warnings v)
   /\ forall x, v = Some x -> Json.truthy (Some x) = true -> Json.converts x = true)
  \/ (Throwing.weight_warnings v = Throw Throwing.cannot_convert
      /\ exists x, v = Some x /\ Json.truthy (Some x) = true /\ Json.converts x = false).
Proof.
  unfold Throwing.weight_warnings.
  destruct v as [x|];
    [|left; split; [reflexivity | discriminate]].
  destruct (Json.truthy (Some x)) eqn:Htruthy.
  - cbn [Throwing.to_String]. destruct (Json.converts x) eqn:Hconverts.
    + left. split; [reflexivity|]. now intros y [= <-].
    + right. split; [reflexivity|]. now exists x.
  - left. split; [|intros y [= <-]; congruence].
    unfold Validator.weight_warnings. now rewrite Htruthy.
Qed.

Lemma validateDocument_unfold (extracted : json) :
  extracted <> JNull ->
  Throwing.validateDocument extracted
  = (invoice ← Throwing.format_warning (Json.get "invoiceNumber" extracted)
                 (RegExp.test Validator.invoice_re) Validator.invoice_msg;
     hs ← Throwing.format_warning (Json.get "hsCode" extracted)
            (fun s => RegExp.test Validator.hs_re (JS.remove_all JS.is_space s)) Validator.hs_msg;
     container ← Throwing.format_warning (Json.get "containerNo" extracted)
                   (fun s => RegExp.test Validator.container_re (JS.remove_all JS.is_space s))
                   Validator.container_msg;
     weight ← Throwing.weight_warnings (Json.get "weight" extracted);
     date ← Throwing.format_warning (Json.get "inspectionDate" extracted)
              (RegExp.test Validator.date_re) Validator.date_msg;
     quantity ← Throwing.format_warning (Json.get "quantityDeclared" extracted)
                  (RegExp.test Validator.quantity_re) Validator.quantity_msg;
     let errors :=
       flat_map (fun field =>
                   if Validator.missing (Json.get field extracted)
                   then [Validator.missing_msg field] else [])
                Validator.requiredFields in
     Ok {| Validator.passed := Nat.eqb (List.length errors) 0;
           Validator.errors := errors;
           Validator.warnings := invoice ++ hs ++ container ++ weight ++ date ++ quantity |}).
Proof. destruct extracted; [contradiction | reflexivity..]. Qed.

(** The call of the validator throws exactly on [null] and on a document
    with a checked field that is truthy and does not convert to a string. *)
Lemma validateDocument_throws (extracted : json) :
  (exists e, Throwing.validateDocument extracted = Throw e)
  <-> extracted = JNull \/ Exists (Spec.unconvertible extracted) Spec.converted_fields.
Proof.
  assert (Hdec : extracted = JNull \/ extracted <> JNull)
    by (destruct extracted; [now left | right; discriminate..]).
  destruct Hdec as [-> | Hnull].
  - split; [now left | intros _; now eexists].
  - rewrite (validateDocument_unfold _ Hnull). unfold Spec.converted_fields.
    rewrite !Exists_cons, Exists_nil. unfold Spec.unconvertible.
    destruct (format_warning_cases (Json.get "invoiceNumber" extracted)
                (RegExp.test Validator.invoice_re) Validator.invoice_msg) as [[-> C1] | [-> H1]];
      cbn [mbind result_bind Http.bind]; [|split; [tauto | intros _; now eexists]].
    destruct (format_warning_cases (Json.get "hsCode" extracted)
                (fun s => RegExp.test Validator.hs_re (JS.remove_all JS.is_space s))
                Validator.hs_msg) as [[-> C2] | [-> H2]];
      cbn [mbind result_bind Http.bind]; [|split; [tauto | intros _; now eexists]].
    destruct (format_warning_cases (Json.get "containerNo" extracted)
                (fun s => RegExp.test Validator.container_re (JS.remove_all JS.is_space s))
                Validator.container_msg) as [[-> C3] | [-> H3]];
      cbn [mbind result_bind Http.bind]; [|split; [tauto | intros _; now eexists]].
    destruct (weight_warnings_call_cases (Json.get "weight" extracted)) as [[-> C4] | [-> H4]];
      cbn [mbind result_bind Http.bind]; [|split; [tauto | intros _; now eexists]].
    destruct (format_warning_cases (Json.get "inspectionDate" extracted)
                (RegExp.test Validator.date_re) Validator.date_msg) as [[-> C5] | [-> H5]];
      cbn [mbind result_bind Http.bind]; [|split; [tauto | intros _; now eexists]].
    destruct (format_warning_cases (Json.get "quantityDeclared" extracted)
                (RegExp.test Validator.quantity_re) Validator.quantity_msg) as [[-> C6] | [-> H6]];
      cbn [mbind result_bind Http.bind]; [|split; [tauto | intros _; now eexists]].
    split; [intros [e He]; discriminate|].
    intros [Hn | [(x & G & T & N) | [(x & G & T & N) | [(x & G & T & N) | [(x & G & T & N)
           | [(x & G & T & N) | [(x & G & T & N) | []]]]]]]];
      [contradiction|..];
      match goal with
      | C : forall y, Json.get ?f extracted = Some y -> _, G : Json.get ?f extracted = Some x |- _ =>
          rewrite (C x G T) in N; discriminate
      end.
Qed.

(** An array of strings joins without an exception. *)
Lemma join_values_strings (sep : string) (strings : list string) :
  Throwing.join_values sep (map JStr strings) = Ok (JS.join sep strings).
Proof.
  unfold Throwing.join_values, Json.join_values.
  replace (forallb _ (map JStr strings)) with true
    by (symmetry; apply forallb_forall; intros x Hx;
        apply in_map_iff in Hx as (s & <- & _); reflexivity).
  rewrite map_map. cbn [Json.to_String]. now rewrite map_id.
Qed.

(** ** analyze-docs *)

(** C10, as stated, fails: a body whose content is the number 5 has no
    content string and has a texts array, and so has a body whose texts array
    is empty; neither is analysed, both are answered with the 400 reply.  A
    texts array that holds an object with a key toString cannot be joined:
    the reply is the 500 reply. *)
Lemma analyze_docs_texts_not_analysed :
  Http.req_json_or_empty Scenario.texts_platform (Samples.post Scenario.number_content_request)
  = JObj [("content", JNum true "5"); ("texts", JArr [JStr "Supplier: Acme Co"])]
  /\ AnalyzeDocs.serve Scenario.texts_platform Samples.reticent_model
       (Samples.post Scenario.number_content_request)
     = (AnalyzeDocs.NoContent, [])
  /\ Http.req_json_or_empty Scenario.texts_platform (Samples.post Scenario.empty_texts_request)
     = JObj [("texts", JArr [])]
  /\ AnalyzeDocs.serve Scenario.texts_platform Samples.reticent_model
       (Samples.post Scenario.empty_texts_request)
     = (AnalyzeDocs.NoContent, [])
  /\ AnalyzeDocs.status_code
       (fst (AnalyzeDocs.serve Scenario.texts_platform Samples.reticent_model
               (Samples.post Scenario.opaque_texts_request))) = 500
  /\ snd (AnalyzeDocs.serve Scenario.texts_platform Samples.reticent_model
             (Samples.post Scenario.opaque_texts_request)) = [].
Proof. repeat split; vm_compute; reflexivity. Qed.

(** C10, as amended: when the content of the body is falsy (absent, empty,
    0, false or null) and its texts are an array, the content is the texts
    joined by blank lines; when the joined text is not empty it is what the
    model is sent, once, and when it is empty the reply is the 400
    "No content provided" with no model call; an array that cannot be joined
    is answered with status 500 and no model call.  A content that is truthy
    but not a string, and a body with neither a truthy content nor a texts
    array, are answered with the 400 reply and no model call. *)
Theorem analyze_docs_content (P : Platform) (E : AnalyzeDocs.Services) (req : Request) :
  Http.method req <> "OPTIONS" ->
  let body := Http.req_json_or_empty P req in
  (Json.truthy (Json.get "content" body) = false ->
   forall texts, Json.get "texts" body = Some (JArr texts) ->
     (forall strings, texts = map JStr strings ->
        AnalyzeDocs.content_of body = Ok (JStr (JS.join AnalyzeDocs.blank_line strings)))
     /\ (forall joined, Throwing.join_values AnalyzeDocs.blank_line texts = Ok joined ->
           AnalyzeDocs.content_of body = Ok (JStr joined)
           /\ (joined <> EmptyString ->
               AnalyzeDocs.serve P E req
               = (AnalyzeDocs.after_fetch P (AnalyzeDocs.chat_completions E joined), [joined]))
           /\ (joined = EmptyString -> AnalyzeDocs.serve P E req = (AnalyzeDocs.NoContent, [])))
     /\ (forall e, Throwing.join_values AnalyzeDocs.blank_line texts = Throw e ->
           exists error,
             AnalyzeDocs.serve P E req = (AnalyzeDocs.Failed error, [])
             /\ AnalyzeDocs.status_code (AnalyzeDocs.Failed error) = 500))
  /\ (Json.truthy (Json.get "content" body) = true ->
      Json.is_string (Json.get "content" body) = false ->
      AnalyzeDocs.serve P E req = (AnalyzeDocs.NoContent, []))
  /\ (Json.truthy (Json.get "content" body) = false ->
      (forall texts, Json.get "texts" body <> Some (JArr texts)) ->
      AnalyzeDocs.serve P E req = (AnalyzeDocs.NoContent, []))
  /\ AnalyzeDocs.status_code AnalyzeDocs.NoContent = 400.
Proof.
  intros Hmethod body.
  assert (Hm : String.eqb (Http.method req) "OPTIONS" = false)
    by now apply String.eqb_neq.
  split; [|split; [|split; [|reflexivity]]].
  - intros Hcontent texts Htexts.
    assert (Hjoin : forall joined,
               Throwing.join_values AnalyzeDocs.blank_line texts = Ok joined ->
               AnalyzeDocs.content_of body = Ok (JStr joined)).
    { intros joined Hjoined. unfold AnalyzeDocs.content_of.
      rewrite Hcontent, Htexts, Hjoined. reflexivity. }
    split; [|split].
    + intros strings ->. apply Hjoin, join_values_strings.
    + intros joined Hjoined. split; [now apply Hjoin|].
      unfold AnalyzeDocs.serve. rewrite Hm. fold body. rewrite (Hjoin joined Hjoined). split.
      * intros Hne. apply nonempty_true in Hne. now rewrite Hne.
      * intros Hempty. now rewrite Hempty.
    + intros e He. exists (Http.exn_String e). split; [|reflexivity].
      unfold AnalyzeDocs.serve. rewrite Hm. fold body. unfold AnalyzeDocs.content_of.
      rewrite Hcontent, Htexts, He. reflexivity.
  - intros Htruthy Hstring.
    unfold AnalyzeDocs.serve, AnalyzeDocs.content_of, Enhanced.or_else. rewrite Hm.
    fold body. rewrite Htruthy.
    destruct (Json.get "content" body) as [[| | | | |]|]; try discriminate; reflexivity.
  - intros Hcontent Hnone.
    unfold AnalyzeDocs.serve. rewrite Hm. fold body. unfold AnalyzeDocs.content_of.
    rewrite Hcontent.
    destruct (Json.get "texts" body) as [[| | | |texts|]|] eqn:Htexts; try reflexivity.
    now destruct (Hnone texts).
Qed.

(** A body with two texts is analysed as the two texts separated by a blank
    line; an empty object is refused. *)
Lemma analyze_docs_content_witness :
  AnalyzeDocs.serve Samples.platform Samples.reticent_model (Samples.post Samples.texts_request)
  = (AnalyzeDocs.Analyzed (JObj []) (JObj []),
     ["Supplier: Acme Co" +:+ AnalyzeDocs.blank_line +:+ "Buyer: Globex"])
  /\ AnalyzeDocs.serve Samples.platform Samples.reticent_model (Samples.post "{}")
     = (AnalyzeDocs.NoContent, []).
Proof.
  split.
  - destruct (analyze_docs_content Samples.platform Samples.reticent_model
                (Samples.post Samples.texts_request)) as (Harray & _);
      [discriminate|].
    destruct (Harray eq_refl [JStr "Supplier: Acme Co"; JStr "Buyer: Globex"] eq_refl)
      as (_ & Hsent & _).
    destruct (Hsent ("Supplier: Acme Co" +:+ AnalyzeDocs.blank_line +:+ "Buyer: Globex")
                eq_refl) as (_ & Hcall & _).
    rewrite Hcall by discriminate. reflexivity.
  - destruct (analyze_docs_content Samples.platform Samples.reticent_model
                (Samples.post "{}")) as (_ & _ & Hnone & _);
      [discriminate|].
    apply Hnone; [reflexivity|]. intros texts. discriminate.
Defined.

(** ** The enhanced pipeline *)

Lemma parseLayout_text (ocrResult : Layout.OCRResult) :
  Layout.text (Layout.parseLayout ocrResult) = Layout.ocr_text ocrResult.
Proof.
  unfold Layout.parseLayout. now destruct (Layout.scan _).
Qed.

(** When the embedding call fails the stage answers an empty array. *)
Lemma embeddings_empty_on_failure (P : Platform) (E : Enhanced.Services) (chunks : list string) :
  Spec.embedding_fails E chunks -> Enhanced.generateEmbeddingsForChunks P E chunks = [].
Proof.
  unfold Spec.embedding_fails, Enhanced.generateEmbeddingsForChunks,
    Enhanced.embeddings_of_response.
  destruct (Enhanced.embeddings_api E chunks) as [e | status statusText body];
    [reflexivity|].
  intros Hfail. cbn. now rewrite Hfail.
Qed.

(** C5, as stated, fails: with the embedding service down and the vector
    index refusing the points, the embedding stage answers an empty array
    and the vector step is reported "error", but the orchestrator goes on to
    validation and answers with status 200, not with a failure response. *)
Lemma enhanced_embedding_failure_is_200 :
  Enhanced.generateEmbeddingsForChunks Samples.platform Samples.embeddings_down
    (Chunker.chunkText Samples.document Chunker.default_maxChunkSize) = []
  /\ Enhanced.status_code
       (Enhanced.serve Samples.platform Samples.embeddings_down
          (Samples.post Samples.content_request)) = 200
  /\ match Enhanced.serve Samples.platform Samples.embeddings_down
             (Samples.post Samples.content_request) with
     | Enhanced.Processed r =>
         map Enhanced.status (Enhanced.steps r)
         = [Enhanced.completed; Enhanced.completed; Enhanced.completed;
            Enhanced.error; Enhanced.completed]
     | _ => False
     end.
Proof. repeat split; vm_compute; reflexivity. Qed.

Lemma map_indexed_combine {A B : Type} (f : nat -> A -> B) (l : list A) :
  forall i, Layout.map_indexed f i l
            = map (fun ia : nat * A => f (fst ia) (snd ia)) (combine (seq i (List.length l)) l).
Proof.
  induction l as [|x l IH]; intros i; [reflexivity|]. cbn. now rewrite IH.
Qed.

(** Without embeddings the points sent are the bare points. *)
Lemma points_without_embeddings (chunks : list string) :
  Enhanced.points_of chunks [] = Spec.bare_points chunks.
Proof.
  unfold Enhanced.points_of, Spec.bare_points. rewrite map_indexed_combine.
  apply map_ext. intros [i chunk]. cbn [fst snd]. unfold Enhanced.vector_at.
  now destruct i.
Qed.

(** The collection is there when the request for it is answered 2xx, or is
    answered 404 and the request that creates it 2xx. *)
Lemma ensure_collection_answers (E : Enhanced.Services) :
  Enhanced.ensureQdrantCollection E
  = Spec.answered_ok (Enhanced.qdrant_collection E)
    || Spec.answered_404 (Enhanced.qdrant_collection E)
       && Spec.answered_ok (Enhanced.qdrant_create E).
Proof.
  unfold Enhanced.ensureQdrantCollection.
  destruct (Enhanced.qdrant_collection E) as [e|status statusText body]; [reflexivity|].
  cbn [Spec.answered_ok Spec.answered_404].
  destruct (status =? 404) eqn:H404.
  - apply Z.eqb_eq in H404. subst status.
    destruct (Enhanced.qdrant_create E); reflexivity.
  - now rewrite andb_false_l, orb_false_r.
Qed.

Lemma store_without_embeddings (E : Enhanced.Services) (chunks : list string) :
  Enhanced.storeChunksInVectorDB E chunks [] = Spec.storage_accepts E chunks.
Proof.
  unfold Enhanced.storeChunksInVectorDB, Spec.storage_accepts.
  rewrite ensure_collection_answers, points_without_embeddings.
  destruct (_ || _); [|reflexivity].
  now destruct (Enhanced.qdrant_points E (Spec.bare_points chunks)).
Qed.

(** C5, as amended: if the embedding service call fails, the embedding
    stage returns an empty embeddings array without raising, and the
    orchestrator goes on to storage and validation.  When the validator
    returns, the answer is the normal result with status 200 and an empty
    embeddings preview; its vector step is "completed" exactly when the
    vector index has the collection (the request for it is answered 2xx, or
    404 and the creation 2xx) and answers 2xx to the upsert of the points,
    one per chunk with an empty vector, and "error" otherwise.  When the
    validator throws, which it does exactly when the extracted data are
    [null] or hold a checked field that is truthy and does not convert to a
    string, the answer is the 500 error response. *)
Theorem enhanced_embedding_failure
    (P : Platform) (E : Enhanced.Services) (req : Request)
    (content : string) (analysis : Enhanced.Analysis) :
  Http.method req <> "OPTIONS" ->
  Json.get "content" (Http.req_json_or_empty P req) = Some (JStr content) ->
  content <> EmptyString ->
  Enhanced.performAIAnalysis P E (Layout.parseLayout (Layout.performOCR content)) = Ok analysis ->
  Spec.embedding_fails E (Chunker.chunkText content Chunker.default_maxChunkSize) ->
  let chunks := Chunker.chunkText content Chunker.default_maxChunkSize in
  Enhanced.generateEmbeddingsForChunks P E chunks = []
  /\ (forall checked,
        Throwing.validateDocument (Enhanced.extracted analysis) = Ok checked ->
        exists r,
          Enhanced.serve P E req = Enhanced.Processed r
          /\ Enhanced.status_code (Enhanced.Processed r) = 200
          /\ Enhanced.embeddings r = JArr []
          /\ map Enhanced.status (Enhanced.steps r)
             = [Enhanced.completed; Enhanced.completed; Enhanced.completed;
                if Spec.storage_accepts E chunks then Enhanced.completed else Enhanced.error;
                Enhanced.completed]
          /\ Enhanced.validation r = checked
          /\ checked = Validator.validateDocument (Enhanced.extracted analysis))
  /\ (forall e,
        Throwing.validateDocument (Enhanced.extracted analysis) = Throw e ->
        (exists error, Enhanced.serve P E req = Enhanced.Failed error)
        /\ Enhanced.status_code (Enhanced.serve P E req) = 500)
  /\ ((exists e, Throwing.validateDocument (Enhanced.extracted analysis) = Throw e)
      <-> Enhanced.extracted analysis = JNull
          \/ Exists (Spec.unconvertible (Enhanced.extracted analysis))
                Spec.converted_fields).
Proof.
  intros Hmethod Hcontent Hne Hai Hfail chunks.
  pose proof (embeddings_empty_on_failure P E chunks Hfail) as Hempty.
  split; [exact Hempty|].
  assert (Hm : String.eqb (Http.method req) "OPTIONS" = false)
    by now apply String.eqb_neq.
  apply nonempty_true in Hne.
  unfold Enhanced.serve. rewrite Hm, Hcontent.
  unfold Enhanced.or_else. cbn [Json.truthy]. rewrite Hne. cbn [negb].
  unfold Enhanced.process. cbn [mbind result_bind Http.bind].
  rewrite Hai. cbn [mbind result_bind Http.bind].
  rewrite parseLayout_text. cbn [Layout.performOCR Layout.ocr_text].
  fold chunks. rewrite Hempty. cbn [Enhanced.embeddings_preview mbind result_bind Http.bind].
  rewrite ?Hne. cbn [negb]. rewrite store_without_embeddings. split; [|split].
  - intros checked Hchecked. rewrite Hchecked. cbn [mbind result_bind Http.bind].
    eexists. split; [reflexivity|]. split; [reflexivity|]. split; [reflexivity|].
    split; [|split; [reflexivity | now apply validateDocument_returns]].
    cbn [Enhanced.steps]. destruct (Spec.storage_accepts E chunks); reflexivity.
  - intros e He. rewrite He. split; [now eexists | reflexivity].
  - apply validateDocument_throws.
Qed.

(** When the vector index accepts the points the vector step is reported
    "completed" although the embedding call failed. *)
Example embedding_failure_store_accepts :
  match Enhanced.serve Samples.platform Samples.embeddings_down_store_up
          (Samples.post Samples.content_request) with
  | Enhanced.Processed r =>
      map Enhanced.status (Enhanced.steps r)
      = [Enhanced.completed; Enhanced.completed; Enhanced.completed;
         Enhanced.completed; Enhanced.completed]
      /\ Enhanced.embeddings r = JArr []
  | _ => False
  end.
Proof. vm_compute. split; reflexivity. Qed.

Lemma enhanced_embedding_failure_witness :
  exists r,
    Enhanced.serve Samples.platform Samples.embeddings_down
      (Samples.post Samples.content_request) = Enhanced.Processed r
    /\ Enhanced.embeddings r = JArr []
    /\ Enhanced.validation r = Validator.validateDocument Json.empty_object.
Proof.
  destruct (enhanced_embedding_failure Samples.platform Samples.embeddings_down
              (Samples.post Samples.content_request) Samples.document
              {| Enhanced.extracted := Json.empty_object;
                 Enhanced.summary := JStr "No summary available" |})
    as (_ & Hreturns & _);
    [discriminate | reflexivity | discriminate | reflexivity | reflexivity |].
  destruct (Hreturns (Validator.validateDocument Json.empty_object) eq_refl)
    as (r & Hserve & _ & Hpreview & _ & Hvalidation & _).
  exists r. now repeat split.
Defined.

(** ** process-documents *)

Section ProcessDocumentsProps.
Import ProcessDocuments.

(** Storing the entities touches no other part of the world. *)
Lemma insert_entities_frame (documentId : string) (entities : list json) (w : World) :
  exists r es, insert_entities documentId entities w = (r, with_entities es w).
Proof.
  revert w. induction entities as [|entity rest IH]; intros w.
  - exists (Ok tt), (extracted_entities w). now destruct w.
  - cbn [insert_entities]. unfold mbind, M_bind, lift, required.
    destruct entity.
    1: { exists (Throw (Http.TypeError "Cannot read properties of undefined")),
           (extracted_entities w). now destruct w. }
    all: cbn.
    all: match goal with
         | |- context [insert_entities _ _ ?w'] =>
             destruct (IH w') as (r & es & Hr); rewrite Hr; exists r, es; reflexivity
         end.
Qed.

Lemma store_entities_frame (d : json) (j : option Job) (w : World) :
  exists r es, store_entities d j w = (r, with_entities es w).
Proof.
  assert (Hok : exists r es, (@Ok unit tt, w) = (r, with_entities es w))
    by (exists (Ok tt), (extracted_entities w); now destruct w).
  unfold store_entities, mbind, M_bind, lift, required.
  destruct d.
  1: { exists (Throw (Http.TypeError "Cannot read properties of undefined")),
         (extracted_entities w). now destruct w. }
  all: cbn -[insert_entities].
  all: destruct j as [job|]; [| exact Hok].
  all: try exact Hok.
  destruct (_ && _); [| exact Hok].
  destruct (iterate _) as [items|e];
    [apply insert_entities_frame
    | exists (Throw e), (extracted_entities w); now destruct w].
Qed.

(** Symbolic execution of the handler: one case per outcome of each
    step. *)
Ltac exec_step :=
  match goal with
  | |- context [store_entities ?d ?j ?w] =>
      let r := fresh "r" in
      let es := fresh "es" in
      let H := fresh "H" in
      destruct (store_entities_frame d j w) as (r & es & H); rewrite H; clear H; destruct r
  | |- context [match Http.payload ?r with _ => _ end] => destruct (Http.payload r) eqn:?
  | |- context [match Http.parse ?P ?t with _ => _ end] =>
      destruct (Http.parse P t) as [[]|] eqn:?
  | |- context [if Json.truthy ?v then _ else _] => destruct (Json.truthy v) eqn:?
  | |- context [if negb (Json.truthy ?v) && _ then _ else _] => destruct (Json.truthy v) eqn:?
  | |- context [if negb (Json.truthy ?v) then _ else _] => destruct (Json.truthy v) eqn:?
  | |- context [match ?m !! ?k with _ => _ end] => destruct (m !! k) eqn:?
  | |- context [match performOCR ?c with _ => _ end] => destruct (performOCR c) eqn:?
  | |- context [match extractStructuredData ?P ?E ?l with _ => _ end] =>
      destruct (extractStructuredData P E l) eqn:?
  | |- context [match generateEmbeddings ?P ?E ?l with _ => _ end] =>
      destruct (generateEmbeddings P E l) eqn:?
  | |- context [match storeInQdrant ?E ?a ?b ?c with _ => _ end] =>
      destruct (storeInQdrant E a b c) as [[]|] eqn:?
  end.

Ltac exec_handler :=
  unfold handle, on_error, read_json, clone, arrival, when_job, select_job, update_job;
  unfold mbind, M_bind, mret, M_ret, lift, required;
  unfold Http.req_json_or_empty, Http.req_json;
  repeat (exec_step;
          cbn -[performOCR extractStructuredData generateEmbeddings storeInQdrant
                store_entities alter progress_written lookup]).

(** Whatever the services answer, the progress values written to a job
    during one call never decrease. *)
Lemma progress_nondecreasing (P : Platform) (E : Services) (req : Request)
    (jobs : gmap string Job) (id : string) :
  StronglySorted Z.le (progress_written id (snd (serve P E req (arrival jobs)))).
Proof.
  unfold serve.
  destruct (String.eqb _ "OPTIONS"); [constructor|].
  destruct (negb _); [constructor|].
  exec_handler.
  all: cbn; try constructor.
  all: destruct (String.eqb _ id); cbn.
  all: repeat (constructor; try lia).
Qed.

(** A request that carries a body cannot be cloned once the handler has
    read it: when the [try] block throws, the [catch] block throws in turn,
    before it reaches the update that would mark the job failed. *)
Lemma failure_never_recorded (P : Platform) (E : Services) (req : Request)
    (jobs : gmap string Job) (body : string) (e : Http.exn) (w : World) :
  Http.method req = "POST" ->
  Http.payload req = Some body ->
  handle P E req (arrival jobs) = (Throw e, w) ->
  serve P E req (arrival jobs) = (Unhandled (Http.TypeError "Body is unusable"), w).
Proof.
  intros Hmethod Hbody. unfold serve. rewrite Hmethod. cbn [String.eqb Ascii.eqb negb].
  change (("POST" =? "OPTIONS")%string) with false.
  change (negb ("POST" =? "POST")%string) with false. cbn iota.
  exec_handler.
  all: try discriminate.
  all: intros [= <- <-]; reflexivity.
Qed.

(** A call that answers with success for a job that exists leaves the job
    completed at 100, having written 10, 30, 50, 70, 90 and 100. *)
Lemma completed_run_ends_at_100 (P : Platform) (E : Services) (req : Request)
    (jobs : gmap string Job) (body : json) (job : Job) (r : Success) (w : World) :
  Http.req_json P req = Ok body ->
  Json.truthy (Json.get "job_id" body) = true ->
  jobs !! job_key (Json.get "job_id" body) = Some job ->
  serve P E req (arrival jobs) = (Completed r, w) ->
  progress_written (job_key (Json.get "job_id" body)) w = [10; 30; 50; 70; 90; 100]
  /\ exists job',
       processing_jobs w !! job_key (Json.get "job_id" body) = Some job'
       /\ status job' = job_completed
       /\ progress job' = 100
       /\ result_payload job' = Some (extracted_data r).
Proof.
  intros Hbody Hid Hjob. unfold serve.
  destruct (String.eqb _ "OPTIONS"); [discriminate|].
  destruct (negb _); [discriminate|].
  unfold Http.req_json in Hbody.
  destruct (Http.payload req) as [sent|] eqn:Hsent; [|discriminate].
  unfold handle, on_error, read_json, clone, arrival, when_job, select_job, update_job.
  unfold mbind, M_bind, mret, M_ret, lift, required.
  unfold Http.req_json_or_empty, Http.req_json. rewrite Hsent, Hbody.
  destruct body; cbn in Hid; try discriminate.
  cbn -[performOCR extractStructuredData generateEmbeddings storeInQdrant
        store_entities alter progress_written lookup].
  cbn in Hjob. rewrite ?Hid, ?Hjob.
  repeat (exec_step;
          cbn -[performOCR extractStructuredData generateEmbeddings storeInQdrant
                store_entities alter progress_written lookup];
          rewrite ?Hid, ?Hjob).
  all: intros Hserve; try discriminate Hserve.
  all: inversion Hserve; subst; clear Hserve; cbn -[alter lookup].
  all: rewrite ?String.eqb_refl; split; [reflexivity|].
  all: rewrite !lookup_alter_eq, Hjob; cbn; eexists; repeat split; reflexivity.
Qed.

(** A request without a body has nothing to clone twice: the [catch] block
    runs to its end and answers the structured failure. *)
Example request_without_body_fails_cleanly (jobs : gmap string Job) :
  serve Samples.platform Samples.model_down
    {| Http.method := "POST"; Http.payload := None |} (arrival jobs)
  = (Failed "Unexpected end of JSON input" "2025-09-09T09:16:16.000Z", arrival jobs).
Proof. reflexivity. Qed.

(** C4: a request for the existing job "job-1" arrives while the model
    service answers 500.  The extraction stage throws after the progress
    values 10, 30 and 50 were written; the [catch] block then throws on
    [req.clone()], so the handler ends with an unhandled exception and the
    job stays "running" at 50 with no error message: it is not marked
    "failed". *)
Theorem job_left_running_after_failure :
  let run := serve Samples.platform Samples.model_down
               (Samples.post Samples.job_request) (arrival Samples.jobs) in
  fst run = Unhandled (Http.TypeError "Body is unusable")
  /\ processing_jobs (snd run) !! "job-1"
     = Some {| document_id := "doc-1"; status := job_running; progress := 50;
               result_payload := None; error_message := None;
               processing_time_ms := None; completed_at := None |}
  /\ progress_written "job-1" (snd run) = [10; 30; 50]
  /\ Forall (fun u : string * Patch => to_status (snd u) <> Some job_failed)
            (updates (snd run)).
Proof.
  repeat split; try (vm_compute; reflexivity).
  vm_compute. repeat constructor; discriminate.
Qed.

End ProcessDocumentsProps.

(** ** Regular expressions: the matcher finds exactly the matches *)

Section RegExpProps.
Import RegExp.

Lemma advances_refl (cur : cursor) : advances cur cur.
Proof. exists EmptyString. split; [reflexivity | simpl; lia]. Qed.

Lemma advances_trans (c1 c2 c3 : cursor) : advances c1 c2 -> advances c2 c3 -> advances c1 c3.
Proof.
  intros (w1 & H1 & I1) (w2 & H2 & I2). exists (w1 +:+ w2). split.
  - now rewrite H1, H2, append_assoc.
  - rewrite length_append. lia.
Qed.

Lemma Matches_advances (r : regex) (cur cur' : cursor) : Matches r cur cur' -> advances cur cur'.
Proof.
  induction 1; try apply advances_refl; eauto using advances_trans.
  exists (String c EmptyString). split; [reflexivity | simpl; lia].
Qed.

Lemma advances_shorter (cur cur' : cursor) :
  advances cur cur' -> index cur' <> index cur ->
  (String.length (ahead cur') < String.length (ahead cur))%nat.
Proof.
  intros (w & Hw & Hi) Hne. rewrite Hw, length_append.
  destruct w; simpl in *; lia.
Qed.

(** Soundness: every outcome of the matcher is a match. *)
Lemma star_body_sound (step : cursor -> captures -> list outcome) (r : regex) :
  (forall cur caps o, In o (step cur caps) -> Matches r cur (fst o)) ->
  forall fuel cur caps o, In o (star_body step fuel cur caps) -> Matches (Star r) cur (fst o).
Proof.
  intros Hstep. induction fuel as [|fuel IH]; intros cur caps o Hin.
  - destruct Hin as [<- | []]. apply M_Star_stop.
  - cbn [star_body] in Hin. apply in_app_iff in Hin as [Hin | [<- | []]];
      [|apply M_Star_stop].
    apply in_flat_map in Hin as (o1 & Hin1 & Hin).
    destruct (Nat.eqb (index (fst o1)) (index cur)) eqn:Heq; [destruct Hin|].
    apply Nat.eqb_neq in Heq.
    eapply M_Star_more; [eapply Hstep; exact Hin1 | exact Heq | eapply IH; exact Hin].
Qed.

Lemma run_sound (r : regex) :
  forall cur caps o, In o (run r cur caps) -> Matches r cur (fst o).
Proof.
  induction r as [|p|r1 IH1 r2 IH2|r1 IH1 r2 IH2|r IH|n r IH| |]; intros cur caps o Hin;
    cbn [run] in Hin.
  - destruct Hin as [<- | []]. constructor.
  - destruct cur as [i [|c s]]; cbn in Hin; [destruct Hin|].
    destruct (p c) eqn:Hp; [|destruct Hin].
    destruct Hin as [<- | []]. now constructor.
  - apply in_flat_map in Hin as (o1 & Hin1 & Hin2).
    eapply M_Cat; [eapply IH1; exact Hin1 | eapply IH2; exact Hin2].
  - apply in_app_iff in Hin as [Hin | Hin];
      [apply M_Alt_l; eapply IH1 | apply M_Alt_r; eapply IH2]; exact Hin.
  - eapply star_body_sound; [exact IH | exact Hin].
  - apply in_map_iff in Hin as (o1 & <- & Hin). apply M_Group. cbn [fst].
    apply (IH cur caps o1 Hin).
  - destruct cur as [[|i] s]; cbn in Hin; [|destruct Hin].
    destruct Hin as [<- | []]. constructor.
  - destruct cur as [i [|c s]]; cbn in Hin; [|destruct Hin].
    destruct Hin as [<- | []]. constructor.
Qed.

(** Completeness: every match is among the outcomes. *)
Lemma star_body_complete (step : cursor -> captures -> list outcome) (r : regex) :
  (forall cur cur' caps, Matches r cur cur' -> exists caps', In (cur', caps') (step cur caps)) ->
  forall cur cur', Matches (Star r) cur cur' ->
  forall fuel caps, (String.length (ahead cur) <= fuel)%nat ->
  exists caps', In (cur', caps') (star_body step fuel cur caps).
Proof.
  intros Hstep cur cur' Hm. remember (Star r) as sr eqn:Hsr.
  induction Hm as [| | | | |r0 cur|r0 cur cur1 cur2 H1 _ Hne H2 IH2| | |];
    try discriminate; injection Hsr as ->; intros fuel caps Hfuel.
  - exists caps. destruct fuel; cbn [star_body]; [now left|].
    apply in_app_iff. right. now left.
  - pose proof (advances_shorter _ _ (Matches_advances _ _ _ H1) Hne) as Hshort.
    destruct fuel as [|fuel]; [lia|].
    destruct (Hstep _ _ caps H1) as (caps1 & Hin1).
    destruct (IH2 eq_refl fuel caps1) as (caps2 & Hin2); [lia|].
    exists caps2. cbn [star_body]. apply in_app_iff. left.
    apply in_flat_map. exists (cur1, caps1). split; [exact Hin1|].
    cbn [fst snd]. apply Nat.eqb_neq in Hne. now rewrite Hne.
Qed.

Lemma run_complete (r : regex) :
  forall cur cur' caps, Matches r cur cur' -> exists caps', In (cur', caps') (run r cur caps).
Proof.
  induction r as [|p|r1 IH1 r2 IH2|r1 IH1 r2 IH2|r IH|n r IH| |]; intros cur cur' caps Hm.
  - inversion Hm; subst. exists caps. now left.
  - inversion Hm; subst. exists caps. cbn.
    match goal with H : p _ = true |- _ => rewrite H end. now left.
  - inversion Hm; subst.
    match goal with
    | H1 : Matches r1 cur ?c1, H2 : Matches r2 ?c1 cur' |- _ =>
        destruct (IH1 _ _ caps H1) as (caps1 & Hin1);
        destruct (IH2 _ _ caps1 H2) as (caps2 & Hin2);
        exists caps2; cbn [run]; apply in_flat_map; now exists (c1, caps1)
    end.
  - inversion Hm; subst.
    + match goal with H : Matches r1 _ _ |- _ => destruct (IH1 _ _ caps H) as (caps' & Hin) end.
      exists caps'. cbn [run]. apply in_app_iff. now left.
    + match goal with H : Matches r2 _ _ |- _ => destruct (IH2 _ _ caps H) as (caps' & Hin) end.
      exists caps'. cbn [run]. apply in_app_iff. now right.
  - cbn [run]. eapply star_body_complete; [exact IH | exact Hm | lia].
  - inversion Hm; subst.
    match goal with H : Matches r _ _ |- _ => destruct (IH _ _ caps H) as (caps' & Hin) end.
    eexists. cbn [run]. apply in_map_iff. exists (cur', caps'). split; [reflexivity | exact Hin].
  - inversion Hm; subst. exists caps. now left.
  - inversion Hm; subst. exists caps. now left.
Qed.

(** The search reports no match exactly when the pattern matches at no
    position of the subject. *)
Lemma exec_from_none (r : regex) (s : string) :
  forall i, exec_from r i s = None <->
            forall pre t cur', s = pre +:+ t ->
                               ~ Matches r (Cursor (i + String.length pre) t) cur'.
Proof.
  induction s as [|c s IH]; intros i.
  - cbn [exec_from]. split.
    + intros Hnone pre t cur' Hs Hm.
      destruct pre; [|discriminate]. rewrite append_nil_l in Hs. subst t.
      destruct (run_complete _ _ _ [] Hm) as (caps' & Hin).
      cbn in Hin. rewrite Nat.add_0_r in Hin.
      destruct (run r (Cursor i EmptyString) []) as [|[]]; [destruct Hin | discriminate].
    + intros Hall. destruct (run r (Cursor i EmptyString) []) as [|[cur caps] l] eqn:Hrun;
        [reflexivity|].
      exfalso. apply (Hall EmptyString EmptyString cur eq_refl).
      cbn. rewrite Nat.add_0_r.
      apply (run_sound r _ [] (cur, caps)). rewrite Hrun. now left.
  - cbn [exec_from]. split.
    + intros Hnone pre t cur' Hs Hm.
      destruct (run r (Cursor i (String c s)) []) as [|[cur caps] l] eqn:Hrun; [|discriminate].
      destruct pre as [|x pre].
      * rewrite append_nil_l in Hs. subst t. cbn in Hm. rewrite Nat.add_0_r in Hm.
        destruct (run_complete _ _ _ [] Hm) as (caps' & Hin). rewrite Hrun in Hin.
        destruct Hin.
      * rewrite append_cons in Hs. injection Hs as -> Hs.
        apply (proj1 (IH (S i)) Hnone pre t cur' Hs).
        cbn [String.length] in Hm. now rewrite Nat.add_succ_r in Hm.
    + intros Hall.
      destruct (run r (Cursor i (String c s)) []) as [|[cur caps] l] eqn:Hrun.
      * apply IH. intros pre t cur' Hs Hm.
        apply (Hall (String c pre) t cur'); [rewrite append_cons; now f_equal|].
        cbn [String.length]. now rewrite Nat.add_succ_r.
      * exfalso. apply (Hall EmptyString (String c s) cur eq_refl).
        cbn. rewrite Nat.add_0_r.
        apply (run_sound r _ [] (cur, caps)). rewrite Hrun. now left.
Qed.

(** A reported match is the first outcome of the matcher at the position
    where the match starts. *)
Lemma exec_from_some (r : regex) (s : string) :
  forall i m, exec_from r i s = Some m ->
  exists pre t cur rest,
    s = pre +:+ t
    /\ run r (Cursor (i + String.length pre) t) [] = (cur, m_groups m) :: rest
    /\ m_start m = (i + String.length pre)%nat
    /\ m_end m = index cur /\ m_rest m = ahead cur.
Proof.
  induction s as [|c s IH]; intros i m; cbn [exec_from].
  - destruct (run r (Cursor i EmptyString) []) as [|[cur caps] rest] eqn:Hrun; [discriminate|].
    intros [= <-]. exists EmptyString, EmptyString, cur, rest. cbn.
    rewrite Nat.add_0_r. now repeat split.
  - destruct (run r (Cursor i (String c s)) []) as [|[cur caps] rest] eqn:Hrun.
    + intros Hm. destruct (IH _ _ Hm) as (pre & t & cur & rest & -> & Hrun' & Hs & He & Hr).
      exists (String c pre), t, cur, rest. cbn [String.length].
      rewrite Nat.add_succ_r. now repeat split.
    + intros [= <-]. exists EmptyString, (String c s), cur, rest. cbn.
      rewrite Nat.add_0_r. now repeat split.
Qed.

(** For a pattern without anchors, the matches are the words of its
    language. *)
Lemma Matches_lang (r : regex) (cur cur' : cursor) :
  Matches r cur cur' -> anchor_free r = true ->
  exists w, lang r w /\ ahead cur = w +:+ ahead cur'
            /\ index cur' = (index cur + String.length w)%nat.
Proof.
  induction 1 as [cur|p i c s Hp|r1 r2 cur cur1 cur2 _ IH1 _ IH2|r1 r2 cur cur' _ IH
                 |r1 r2 cur cur' _ IH|r cur|r cur cur1 cur2 _ IH1 Hne _ IH2
                 |n r cur cur' _ IH|s|i]; cbn [anchor_free]; intros Hfree.
  - exists EmptyString. cbn. repeat split. lia.
  - exists (String c EmptyString). cbn. repeat split; [now exists c | lia].
  - apply andb_true_iff in Hfree as [F1 F2].
    destruct (IH1 F1) as (u & Lu & Au & Iu). destruct (IH2 F2) as (v & Lv & Av & Iv).
    exists (u +:+ v). split; [now exists u, v|]. split.
    + now rewrite Au, Av, append_assoc.
    + rewrite length_append. lia.
  - apply andb_true_iff in Hfree as [F1 F2].
    destruct (IH F1) as (w & Lw & Aw & Iw). exists w. cbn. tauto.
  - apply andb_true_iff in Hfree as [F1 F2].
    destruct (IH F2) as (w & Lw & Aw & Iw). exists w. cbn. tauto.
  - exists EmptyString. cbn. split; [now exists []|]. split; [reflexivity | lia].
  - destruct (IH1 Hfree) as (u & Lu & Au & Iu).
    destruct (IH2 Hfree) as (v & (ws & -> & Hws) & Av & Iv).
    exists (u +:+ flatten ws). split; [|split].
    + exists (u :: ws). split; [reflexivity|]. constructor; [|exact Hws].
      split; [|exact Lu]. intros ->. cbn in Iu. lia.
    + now rewrite Au, Av, append_assoc.
    + rewrite length_append. lia.
  - destruct (IH Hfree) as (w & Lw & Aw & Iw). now exists w.
  - discriminate.
  - discriminate.
Qed.

Lemma lang_Matches (r : regex) :
  forall w, lang r w -> anchor_free r = true ->
  forall i t, Matches r (Cursor i (w +:+ t)) (Cursor (i + String.length w) t).
Proof.
  induction r as [|p|r1 IH1 r2 IH2|r1 IH1 r2 IH2|r IH|n r IH| |];
    cbn [lang anchor_free]; intros w Hw Hfree i t.
  - subst w. cbn. rewrite Nat.add_0_r. constructor.
  - destruct Hw as (c & -> & Hp). cbn. rewrite Nat.add_1_r. now constructor.
  - destruct Hw as (u & v & -> & Lu & Lv). apply andb_true_iff in Hfree as [F1 F2].
    rewrite append_assoc, length_append, Nat.add_assoc.
    eapply M_Cat; [apply IH1 | apply IH2]; assumption.
  - apply andb_true_iff in Hfree as [F1 F2].
    destruct Hw as [Hw | Hw]; [apply M_Alt_l, IH1 | apply M_Alt_r, IH2]; assumption.
  - destruct Hw as (ws & -> & Hws). revert i.
    induction Hws as [|u ws [Hne Lu] _ IHws]; intros i.
    + cbn. rewrite Nat.add_0_r. apply M_Star_stop.
    + cbn [flatten]. rewrite append_assoc, length_append, Nat.add_assoc.
      eapply M_Star_more; [apply IH; assumption | | apply IHws].
      cbn [index]. destruct u; [congruence | cbn; lia].
  - apply M_Group, IH; assumption.
  - discriminate.
  - discriminate.
Qed.

(** The search for a pattern without anchors fails exactly on the subjects
    that contain no word of its language. *)
Lemma exec_none_lang (r : regex) (s : string) :
  anchor_free r = true ->
  exec r s = None <-> ~ exists pre w post, s = pre +:+ w +:+ post /\ lang r w.
Proof.
  intros Hfree. unfold exec. rewrite exec_from_none. split.
  - intros Hnone (pre & w & post & -> & Hw).
    apply (Hnone pre (w +:+ post) (Cursor (0 + String.length pre + String.length w) post));
      [reflexivity|].
    now apply lang_Matches.
  - intros Hnone pre t cur' -> Hm.
    destruct (Matches_lang _ _ _ Hm Hfree) as (w & Lw & Aw & _). cbn [ahead] in Aw.
    apply Hnone. exists pre, w, (ahead cur'). now rewrite Aw.
Qed.

Lemma exec_some_lang (r : regex) (s : string) (m : match_result) :
  anchor_free r = true -> exec r s = Some m ->
  exists pre w, s = pre +:+ w +:+ m_rest m /\ lang r w.
Proof.
  intros Hfree Hm. apply exec_from_some in Hm as (pre & t & cur & rest & -> & Hrun & _ & _ & Hr).
  assert (Hin : In (cur, m_groups m) (run r (Cursor (0 + String.length pre) t) []))
    by (rewrite Hrun; now left).
  apply run_sound in Hin. apply Matches_lang in Hin as (w & Lw & Aw & _); [|exact Hfree].
  cbn [ahead fst] in Aw. exists pre, w. now rewrite Hr, Aw.
Qed.

End RegExpProps.

(** ** The weight rule *)

Section WeightProps.
Import RegExp.

Lemma every_append (p : ascii -> bool) (a b : string) :
  Spec.every p (a +:+ b) = Spec.every p a && Spec.every p b.
Proof.
  induction a as [|c a IH]; [reflexivity|].
  rewrite append_cons. cbn [Spec.every]. now rewrite IH, andb_assoc.
Qed.

Lemma lower_append (a b : string) : Spec.lower (a +:+ b) = Spec.lower a +:+ Spec.lower b.
Proof.
  induction a as [|c a IH]; [reflexivity|].
  rewrite append_cons. cbn [Spec.lower]. now rewrite IH.
Qed.

Lemma lower_split (x y u : string) :
  Spec.lower u = x +:+ y -> exists a b, u = a +:+ b /\ Spec.lower a = x /\ Spec.lower b = y.
Proof.
  revert u. induction x as [|c x IH]; intros u Hu.
  - exists EmptyString, u. now repeat split.
  - destruct u as [|d u]; [discriminate|]. rewrite append_cons in Hu.
    cbn [Spec.lower] in Hu. injection Hu as Hd Hu.
    destruct (IH u Hu) as (a & b & -> & Ha & Hb).
    exists (String d a), b. cbn [Spec.lower]. rewrite Hd, Ha. now repeat split.
Qed.

Lemma lang_star_chars (p : ascii -> bool) (w : string) :
  lang (Star (Chars p)) w <-> Spec.every p w = true.
Proof.
  cbn [lang]. split.
  - intros (ws & -> & Hws). induction Hws as [|u ws (_ & c & -> & Hp) _ IH]; [reflexivity|].
    cbn [flatten]. rewrite append_cons, append_nil_l. cbn [Spec.every]. now rewrite Hp, IH.
  - induction w as [|c w IH]; intros Hw.
    + now exists [].
    + cbn in Hw. apply andb_true_iff in Hw as [Hp Hw].
      destruct (IH Hw) as (ws & -> & Hws).
      exists (String c EmptyString :: ws). split; [reflexivity|].
      constructor; [|exact Hws]. split; [discriminate | now exists c].
Qed.

Lemma lang_plus_chars (p : ascii -> bool) (w : string) :
  lang (Plus (Chars p)) w <-> Spec.every p w = true /\ w <> EmptyString.
Proof.
  unfold Plus. change (lang (Cat (Chars p) (Star (Chars p))) w)
    with (exists u v, w = (u ++ v)%string /\ lang (Chars p) u /\ lang (Star (Chars p)) v).
  split.
  - intros (u & v & -> & (c & -> & Hp) & Hv). apply lang_star_chars in Hv.
    rewrite append_cons, append_nil_l. cbn [Spec.every]. rewrite Hp, Hv.
    split; [reflexivity | discriminate].
  - intros [Hw Hne]. destruct w as [|c w]; [congruence|].
    cbn in Hw. apply andb_true_iff in Hw as [Hp Hw].
    exists (String c EmptyString), w. split; [reflexivity|]. split; [now exists c|].
    now apply lang_star_chars.
Qed.

Lemma lang_LitCI (word w : string) : lang (LitCI word) w <-> Spec.lower w = Spec.lower word.
Proof.
  revert w. induction word as [|c word IH]; intros w; cbn [LitCI lang Spec.lower].
  - split; [now intros -> | destruct w; [reflexivity | discriminate]].
  - split.
    + intros (u & v & -> & (x & -> & Hx) & Hv). apply IH in Hv.
      rewrite append_cons. cbn [Spec.lower]. rewrite append_nil_l, Hv. f_equal.
      unfold JS.char_ci in Hx. apply Ascii.eqb_eq in Hx. now symmetry.
    + destruct w as [|x w]; [discriminate|]. cbn [Spec.lower]. intros [= Hx Hw].
      exists (String x EmptyString), w. split; [reflexivity|]. split; [|now apply IH].
      exists x. split; [reflexivity|]. unfold JS.char_ci. apply Ascii.eqb_eq. now symmetry.
Qed.

Lemma lang_number (w : string) : lang Validator.number_re w <-> Spec.is_number w.
Proof.
  unfold Validator.number_re, Spec.is_number.
  change (lang (Cat ?a ?b) w)
    with (exists u v, w = (u ++ v)%string /\ lang a u /\ lang b v).
  split.
  - intros (int & rest & -> & Hint & Hrest). apply lang_plus_chars in Hint as [Hd Hne].
    exists int, rest. repeat split; try assumption.
    destruct Hrest as [(u & v & -> & (sep & -> & Hsep) & Hfrac) | ->]; [right | now left].
    apply lang_plus_chars in Hfrac as [Hf Hfne].
    exists sep, v. now repeat split.
  - intros (int & rest & -> & Hd & Hne & Hrest). exists int, rest.
    split; [reflexivity|]. split; [now apply lang_plus_chars|].
    destruct Hrest as [-> | (sep & frac & -> & Hsep & Hf & Hfne)]; [now right | left].
    exists (String sep EmptyString), frac. split; [reflexivity|].
    split; [now exists sep | now apply lang_plus_chars].
Qed.

(** A unit with an optional plural s. *)
Lemma lang_unit_s (word u : string) :
  lang (Cat (LitCI word) (Opt (LitCI "s"))) u
  <-> Spec.lower u = Spec.lower word \/ Spec.lower u = Spec.lower word +:+ "s".
Proof.
  change (lang (Cat ?a ?b) u)
    with (exists x y, u = (x ++ y)%string /\ lang a x /\ lang b y).
  split.
  - intros (x & y & -> & Hx & [Hy | Hy]); apply lang_LitCI in Hx.
    + apply lang_LitCI in Hy. right. now rewrite lower_append, Hx, Hy.
    + cbn in Hy. subst y. left. now rewrite append_nil_r.
  - intros [Hu | Hu].
    + exists u, EmptyString. rewrite append_nil_r. split; [reflexivity|].
      split; [now apply lang_LitCI | now right].
    + apply lower_split in Hu as (a & b & -> & Ha & Hb).
      exists a, b. split; [reflexivity|]. split; [now apply lang_LitCI|].
      left. now apply lang_LitCI.
Qed.

Lemma lang_unit (u : string) : lang Validator.unit_re u <-> Spec.is_unit u.
Proof.
  unfold Validator.unit_re, Spec.is_unit, Spec.units.
  change (lang (Alt ?a ?b) u) with (lang a u \/ lang b u).
  change (lang (Alt ?a ?b) u) with (lang a u \/ lang b u).
  change (lang (Alt ?a ?b) u) with (lang a u \/ lang b u).
  rewrite !lang_unit_s, lang_LitCI. cbn [In].
  generalize (Spec.lower u). intros x.
  change (Spec.lower "kg") with "kg". change (Spec.lower "lb") with "lb".
  change (Spec.lower "ton") with "ton". change (Spec.lower "tonne") with "tonne".
  change ("lb" +:+ "s") with "lbs". change ("ton" +:+ "s") with "tons".
  change ("tonne" +:+ "s") with "tonnes".
  intuition congruence.
Qed.

Lemma lang_weight (w : string) :
  lang Validator.weight_re w
  <-> exists num ws unit,
        w = num +:+ ws +:+ unit
        /\ Spec.is_number num /\ Spec.every JS.is_space ws = true /\ Spec.is_unit unit.
Proof.
  unfold Validator.weight_re.
  change (lang (Cat (Group 1 ?a) (Cat ?b (Group 2 ?c))) w)
    with (exists u v, w = (u ++ v)%string /\ lang a u
                      /\ exists x y, v = (x ++ y)%string /\ lang b x /\ lang c y).
  split.
  - intros (num & v & -> & Hnum & ws & unit & -> & Hws & Hunit).
    exists num, ws, unit. split; [reflexivity|].
    split; [now apply lang_number|]. split; [now apply lang_star_chars | now apply lang_unit].
  - intros (num & ws & unit & -> & Hnum & Hws & Hunit).
    exists num, (ws +:+ unit). split; [reflexivity|]. split; [now apply lang_number|].
    exists ws, unit. split; [reflexivity|].
    split; [now apply lang_star_chars | now apply lang_unit].
Qed.

(** The weight pattern is found in a text exactly when the text contains
    a number followed by a recognized unit. *)
Lemma weight_match_none (s : string) :
  exec Validator.weight_re s = None <-> ~ Spec.number_with_unit s.
Proof.
  rewrite exec_none_lang by reflexivity. split.
  - intros Hnone (pre & num & ws & unit & post & -> & Hnum & Hws & Hunit). apply Hnone.
    exists pre, (num +:+ ws +:+ unit), post. rewrite !append_assoc. split; [reflexivity|].
    apply lang_weight. now exists num, ws, unit.
  - intros Hnone (pre & w & post & -> & Hw). apply Hnone.
    apply lang_weight in Hw as (num & ws & unit & -> & Hnum & Hws & Hunit).
    exists pre, num, ws, unit, post. rewrite !append_assoc. now repeat split.
Qed.

Lemma weight_match_some (s : string) (m : match_result) :
  exec Validator.weight_re s = Some m -> Spec.number_with_unit s.
Proof.
  intros Hm. apply exec_some_lang in Hm as (pre & w & -> & Hw); [|reflexivity].
  apply lang_weight in Hw as (num & ws & unit & -> & Hnum & Hws & Hunit).
  exists pre, num, ws, unit, (m_rest m). rewrite !append_assoc. now repeat split.
Qed.

(** Outcomes of a pattern without groups carry the captures they were
    given. *)
Lemma star_body_captures (step : cursor -> captures -> list outcome) :
  (forall cur caps o, In o (step cur caps) -> snd o = caps) ->
  forall fuel cur caps o, In o (star_body step fuel cur caps) -> snd o = caps.
Proof.
  intros Hstep. induction fuel as [|fuel IH]; intros cur caps o Hin.
  - now destruct Hin as [<- | []].
  - cbn [star_body] in Hin. apply in_app_iff in Hin as [Hin | [<- | []]]; [|reflexivity].
    apply in_flat_map in Hin as (o1 & Hin1 & Hin).
    destruct (Nat.eqb _ _); [destruct Hin|].
    apply IH in Hin. apply Hstep in Hin1. congruence.
Qed.

Lemma run_captures (r : regex) :
  group_free r = true -> forall cur caps o, In o (run r cur caps) -> snd o = caps.
Proof.
  induction r as [|p|r1 IH1 r2 IH2|r1 IH1 r2 IH2|r IH|n r IH| |]; cbn [group_free];
    intros Hfree cur caps o Hin; cbn [run] in Hin.
  - now destruct Hin as [<- | []].
  - destruct (ahead cur); [destruct Hin|]. destruct (p a); [|destruct Hin].
    now destruct Hin as [<- | []].
  - apply andb_true_iff in Hfree as [F1 F2].
    apply in_flat_map in Hin as (o1 & Hin1 & Hin2).
    apply (IH2 F2) in Hin2. apply (IH1 F1) in Hin1. congruence.
  - apply andb_true_iff in Hfree as [F1 F2].
    apply in_app_iff in Hin as [Hin | Hin]; [apply (IH1 F1) in Hin | apply (IH2 F2) in Hin];
      exact Hin.
  - eapply star_body_captures; [apply IH, Hfree | exact Hin].
  - discriminate.
  - destruct (Nat.eqb _ _); [|destruct Hin]. now destruct Hin as [<- | []].
  - destruct (ahead cur); [|destruct Hin]. now destruct Hin as [<- | []].
Qed.

Lemma take_append (w t : string) : JS.take (String.length w) (w +:+ t) = w.
Proof.
  unfold JS.take. induction w as [|c w IH]; [now destruct t|].
  rewrite append_cons. cbn. now rewrite IH.
Qed.

Lemma in_run_cat (r1 r2 : regex) (cur : cursor) (caps : captures) (o : outcome) :
  In o (run (Cat r1 r2) cur caps)
  <-> exists o1, In o1 (run r1 cur caps) /\ In o (run r2 (fst o1) (snd o1)).
Proof. cbn [run]. apply in_flat_map. Qed.

Lemma in_run_group (n : nat) (r : regex) (cur : cursor) (caps : captures) (o : outcome) :
  In o (run (Group n r) cur caps)
  <-> exists o1, In o1 (run r cur caps)
                 /\ o = (fst o1, (n, JS.take (index (fst o1) - index cur) (ahead cur)) :: snd o1).
Proof.
  cbn [run]. rewrite in_map_iff. split; intros (o1 & H1 & H2); exists o1; now split.
Qed.

(** The first group of a match of the weight pattern holds a number of the
    text, followed there by white space and a unit. *)
Lemma weight_capture (s : string) (m : match_result) :
  exec Validator.weight_re s = Some m ->
  exists pre num ws unit post,
    s = pre +:+ num +:+ ws +:+ unit +:+ post
    /\ Spec.is_number num /\ Spec.every JS.is_space ws = true /\ Spec.is_unit unit
    /\ group 1 (m_groups m) = Some num.
Proof.
  intros Hm. apply exec_from_some in Hm as (pre & t & cur & rest & -> & Hrun & _ & _ & Hr).
  assert (Hin : In (cur, m_groups m)
                   (run Validator.weight_re (Cursor (0 + String.length pre) t) []))
    by (rewrite Hrun; now left).
  clear Hrun. unfold Validator.weight_re in Hin.
  apply in_run_cat in Hin as (o1 & Hin1 & Hin).
  apply in_run_group in Hin1 as (o0 & Hin0 & ->). cbn [fst snd] in Hin.
  pose proof (run_captures Validator.number_re eq_refl _ _ _ Hin0) as Hcaps0.
  apply run_sound, Matches_lang in Hin0 as (num & Lnum & Anum & Inum); [|reflexivity].
  cbn [ahead index] in Anum, Inum.
  apply in_run_cat in Hin as (o2 & Hin2 & Hin).
  pose proof (run_captures (Star (Chars JS.is_space)) eq_refl _ _ _ Hin2) as Hcaps2.
  apply run_sound, Matches_lang in Hin2 as (ws & Lws & Aws & _); [|reflexivity].
  apply in_run_group in Hin as (o3 & Hin3 & Heq).
  pose proof (run_captures Validator.unit_re eq_refl _ _ _ Hin3) as Hcaps3.
  apply run_sound, Matches_lang in Hin3 as (unit & Lunit & Aunit & _); [|reflexivity].
  injection Heq as Hcur Hgroups.
  exists pre, num, ws, unit, (ahead cur). split; [|split; [|split; [|split]]].
  - rewrite Anum, Aws, Aunit, Hcur. reflexivity.
  - now apply lang_number.
  - now apply lang_star_chars.
  - now apply lang_unit.
  - rewrite Hgroups, Hcaps3, Hcaps2, Hcaps0. cbn [group Nat.eqb index ahead].
    rewrite Inum, Anum.
    replace (0 + String.length pre + String.length num - (0 + String.length pre))%nat
      with (String.length num) by lia.
    now rewrite take_append.
Qed.

(** *** The value read by [parseFloat] *)

Lemma digits_value_append (acc : N) (a b : string) :
  Spec.digits_value acc (a +:+ b) = Spec.digits_value (Spec.digits_value acc a) b.
Proof.
  revert acc. induction a as [|c a IH]; intros acc; [reflexivity|].
  rewrite append_cons. cbn [Spec.digits_value]. apply IH.
Qed.

Lemma read_digits_run (d t : string) :
  Spec.every JS.is_digit d = true ->
  match t with String c _ => JS.is_digit c = false | EmptyString => True end ->
  forall acc count,
    Validator.read_digits acc count (d +:+ t)
    = (Spec.digits_value acc d, (count + N.of_nat (String.length d))%N, t).
Proof.
  intros Hd Ht. induction d as [|c d IH]; intros acc count.
  - rewrite append_nil_l. cbn [String.length Spec.digits_value]. rewrite N.add_0_r.
    destruct t as [|c t]; [reflexivity|]. cbn [Validator.read_digits]. now rewrite Ht.
  - cbn in Hd. apply andb_true_iff in Hd as [Hc Hd].
    rewrite append_cons. cbn [Validator.read_digits Spec.digits_value String.length].
    rewrite Hc, (IH Hd). f_equal. f_equal. lia.
Qed.

Lemma replace_comma_digits (d t : string) :
  Spec.every JS.is_digit d = true ->
  JS.replace_first "," "." (d +:+ t) = d +:+ JS.replace_first "," "." t.
Proof.
  induction d as [|c d IH]; intros Hd; [reflexivity|].
  cbn in Hd. apply andb_true_iff in Hd as [Hc Hd].
  rewrite !append_cons. cbn [JS.replace_first].
  destruct (Ascii.eqb c ",") eqn:Hcomma.
  - apply Ascii.eqb_eq in Hcomma. subst c. discriminate.
  - now rewrite (IH Hd).
Qed.

(** On a number, [parseFloat] after the replacement of the comma reads the
    decimal made of all its digits, scaled by the digits of the
    fraction. *)
Lemma parseFloat_number (int frac : string) (sep : ascii) :
  Spec.every JS.is_digit int = true -> int <> EmptyString ->
  Spec.every JS.is_digit frac = true -> Validator.is_dot_or_comma sep = true ->
  Validator.parseFloat (JS.replace_first "," "." int)
  = Some (Validator.Decimal (Spec.digits_value 0 int) 0)
  /\ Validator.parseFloat (JS.replace_first "," "." (int +:+ String sep frac))
     = Some (Validator.Decimal (Spec.digits_value 0 (int +:+ frac))
                               (N.of_nat (String.length frac))).
Proof.
  intros Hint Hne Hfrac Hsep.
  assert (Hlen : (0 + N.of_nat (String.length int) =? 0)%N = false).
  { apply N.eqb_neq. destruct int; [congruence | cbn; lia]. }
  split.
  - rewrite <- (append_nil_r int) at 1. rewrite (replace_comma_digits _ _ Hint).
    cbn [JS.replace_first]. unfold Validator.parseFloat.
    rewrite (read_digits_run int EmptyString Hint I), Hlen. reflexivity.
  - rewrite (replace_comma_digits _ _ Hint).
    assert (Hrest : JS.replace_first "," "." (String sep frac) = String "." frac).
    { cbn [JS.replace_first]. unfold Validator.is_dot_or_comma, JS.char_is in Hsep.
      destruct (Ascii.eqb sep ",") eqn:Hcomma; [reflexivity|].
      apply orb_true_iff in Hsep as [Hdot | Hc].
      - apply Ascii.eqb_eq in Hdot as <-. f_equal.
        rewrite <- (append_nil_r frac) at 1. rewrite (replace_comma_digits _ _ Hfrac).
        apply append_nil_r.
      - rewrite Ascii.eqb_sym in Hc. congruence. }
    rewrite Hrest. unfold Validator.parseFloat.
    rewrite (read_digits_run int (String "." frac) Hint eq_refl), Hlen.
    rewrite <- (append_nil_r frac) at 1.
    rewrite (read_digits_run frac EmptyString Hfrac I).
    now rewrite digits_value_append, N.add_0_l.
Qed.

(** With at most eleven digits in the fraction, the two comparisons made
    on the double decide exactly whether the decimal lies outside the
    interval (0, 100000]. *)
Lemma out_of_range_exact (value : Validator.decimal) :
  (Validator.scale value <= 11)%N ->
  Spec.out_of_range value = true <-> Spec.outside_interval value.
Proof.
  destruct value as [m k]. unfold Spec.out_of_range, Spec.outside_interval,
    Validator.le_zero, Validator.gt_100000. cbn [Validator.mantissa Validator.scale].
  intros Hk.
  assert (Hpow : (1 <= 10 ^ k <= 10 ^ 11)%N).
  { split; [|now apply N.pow_le_mono_r].
    change 1%N with (10 ^ 0)%N. apply N.pow_le_mono_r; lia. }
  change (10 ^ 11)%N with 100000000000%N in Hpow.
  rewrite orb_true_iff, N.leb_le, N.ltb_lt.
  remember (10 ^ k)%N as t eqn:Ht. clear Ht Hk k.
  assert (H37 : (2 ^ 37 = 137438953472)%N) by reflexivity.
  assert (Hbig : (100000000000 < 2 ^ 1075)%N) by (apply N.ltb_lt; vm_compute; reflexivity).
  rewrite H37. remember (2 ^ 1075)%N as huge eqn:Hh. clear Hh H37.
  split.
  - intros [Hzero | Hgt].
    + left. destruct (N.eq_dec m 0) as [-> | Hm]; [reflexivity|]. nia.
    + right. nia.
  - intros [-> | Hgt]; [left; lia | right; nia].
Qed.

(** The value parsed from a text with a number and a unit is the decimal
    of the number of its first match: its digits, scaled by the digits
    after the dot or comma. *)
Lemma parsed_weight_decimal (s : string) :
  Spec.number_with_unit s ->
  exists pre num ws unit post int frac,
    s = pre +:+ num +:+ ws +:+ unit +:+ post
    /\ Spec.every JS.is_space ws = true /\ Spec.is_unit unit
    /\ Spec.every JS.is_digit int = true /\ Spec.every JS.is_digit frac = true
    /\ (num = int /\ frac = EmptyString
        \/ exists sep, Validator.is_dot_or_comma sep = true /\ num = int +:+ String sep frac)
    /\ Spec.parsed_weight s
       = Some (Validator.Decimal (Spec.digits_value 0 (int +:+ frac))
                                 (N.of_nat (String.length frac))).
Proof.
  intros Hfound. unfold Spec.parsed_weight.
  destruct (exec Validator.weight_re s) as [m|] eqn:Hm;
    [|now apply weight_match_none in Hm].
  destruct (weight_capture _ _ Hm)
    as (pre & num & ws & unit & post & -> & (int & rest & -> & Hint & Hne & Hrest)
        & Hws & Hunit & Hgroup).
  rewrite Hgroup.
  destruct Hrest as [-> | (sep & frac & -> & Hsep & Hfrac & Hfne)].
  - exists pre, (int +:+ EmptyString), ws, unit, post, int, EmptyString.
    rewrite !append_nil_r.
    destruct (parseFloat_number int EmptyString "." Hint Hne eq_refl eq_refl) as [-> _].
    repeat split; try assumption. now left.
  - exists pre, (int +:+ String sep frac), ws, unit, post, int, frac.
    destruct (parseFloat_number int frac sep Hint Hne Hfrac Hsep) as [_ ->].
    repeat split; try assumption. right. now exists sep.
Qed.

Lemma in_format_warning (v : option json) (ok : string -> bool) (msg target : string) :
  In target (Validator.format_warning v ok msg) -> target = msg.
Proof.
  unfold Validator.format_warning.
  destruct (Json.truthy v); [|intros []]. destruct (ok _); [intros []|].
  intros [<- | []]. reflexivity.
Qed.

(** The weight warnings of a result are those of the weight rule. *)
Lemma weight_warned_rule (extracted : json) :
  Spec.weight_warned (Validator.validateDocument extracted)
  <-> Validator.weight_warnings (Json.get "weight" extracted) <> [].
Proof.
  unfold Spec.weight_warned, Validator.validateDocument. cbn [Validator.warnings].
  rewrite !in_app_iff. split.
  - intros [H | H]; repeat destruct H as [H | H];
      try (apply in_format_warning in H; vm_compute in H; discriminate);
      intros Hnil; rewrite Hnil in H; destruct H.
  - intros Hne.
    destruct (weight_warnings_cases (Json.get "weight" extracted)) as [H | [H | H]];
      [contradiction | left | right]; rewrite H; cbn [In]; tauto.
Qed.

(** A reported match starts at the first position where the pattern
    matches. *)
Lemma exec_from_first (r : regex) (s : string) :
  forall i m, exec_from r i s = Some m ->
  exists pre t cur rest,
    s = pre +:+ t
    /\ run r (Cursor (i + String.length pre) t) [] = (cur, m_groups m) :: rest
    /\ forall pre' t' cur',
         s = pre' +:+ t' -> (String.length pre' < String.length pre)%nat ->
         ~ Matches r (Cursor (i + String.length pre') t') cur'.
Proof.
  induction s as [|c s IH]; intros i m; cbn [exec_from].
  - destruct (run r (Cursor i EmptyString) []) as [|[cur caps] rest] eqn:Hrun; [discriminate|].
    intros [= <-]. exists EmptyString, EmptyString, cur, rest. cbn [String.length m_groups].
    rewrite Nat.add_0_r. split; [reflexivity|]. split; [exact Hrun|].
    intros pre' t' cur' _ Hlt. lia.
  - destruct (run r (Cursor i (String c s)) []) as [|[cur caps] rest] eqn:Hrun.
    + intros Hm. destruct (IH _ _ Hm) as (pre & t & cur & rest & -> & Hrun' & Hfirst).
      exists (String c pre), t, cur, rest. cbn [String.length].
      rewrite Nat.add_succ_r. split; [reflexivity|]. split; [exact Hrun'|].
      intros pre' t' cur' Hs Hlt Hmatch. destruct pre' as [|x pre'].
      * rewrite append_nil_l in Hs. subst t'. cbn [String.length] in Hmatch.
        rewrite Nat.add_0_r in Hmatch.
        destruct (run_complete _ _ _ [] Hmatch) as (caps' & Hin). rewrite Hrun in Hin.
        destruct Hin.
      * rewrite !append_cons in Hs. injection Hs as -> Hs.
        apply (Hfirst pre' t' cur' Hs); [cbn [String.length] in Hlt; lia|].
        cbn [String.length] in Hmatch. now rewrite Nat.add_succ_r in Hmatch.
    + intros [= <-]. exists EmptyString, (String c s), cur, rest. cbn [String.length m_groups].
      rewrite Nat.add_0_r. split; [reflexivity|]. split; [exact Hrun|].
      intros pre' t' cur' _ Hlt. lia.
Qed.

(** White space, separators and the first letters of the units are not
    digits. *)
Lemma space_not_digit (c : ascii) :
  JS.is_space c = true -> JS.is_digit c = false /\ Validator.is_dot_or_comma c = false.
Proof.
  destruct c as [[] [] [] [] [] [] [] []]; vm_compute; intros H; try discriminate H;
    split; reflexivity.
Qed.

Lemma separator_not_digit (c : ascii) :
  Validator.is_dot_or_comma c = true -> JS.is_digit c = false.
Proof.
  destruct c as [[] [] [] [] [] [] [] []]; vm_compute; intros H; try discriminate H;
    reflexivity.
Qed.

Lemma unit_letter_not_digit (c : ascii) :
  In (JS.to_lower c) ["k"; "l"; "t"]%char ->
  JS.is_digit c = false /\ Validator.is_dot_or_comma c = false.
Proof.
  destruct c as [[] [] [] [] [] [] [] []]; vm_compute;
    intros [H | [H | [H | []]]]; try discriminate H; split; reflexivity.
Qed.

Lemma unit_head (unit : string) :
  Spec.is_unit unit ->
  exists c rest, unit = String c rest /\ In (JS.to_lower c) ["k"; "l"; "t"]%char.
Proof.
  unfold Spec.is_unit, Spec.units. destruct unit as [|c rest]; cbn [Spec.lower In].
  - intuition discriminate.
  - intros H. exists c, rest. split; [reflexivity|].
    repeat (destruct H as [H | H]; [injection H as <- _; cbn [In]; tauto|]). destruct H.
Qed.

(** What follows a number in a weight: after any white space, a unit; its
    first character is neither a digit nor a separator. *)
Lemma after_number_head (ws unit post : string) :
  Spec.every JS.is_space ws = true -> Spec.is_unit unit ->
  exists c rest,
    ws +:+ unit +:+ post = String c rest
    /\ JS.is_digit c = false /\ Validator.is_dot_or_comma c = false.
Proof.
  intros Hws Hunit. destruct ws as [|c ws].
  - destruct (unit_head unit Hunit) as (c & rest & -> & Hc).
    exists c, (rest +:+ post). rewrite append_nil_l, append_cons.
    split; [reflexivity | now apply unit_letter_not_digit].
  - cbn [Spec.every] in Hws. apply andb_true_iff in Hws as [Hc _].
    exists c, (ws +:+ unit +:+ post). rewrite append_cons.
    split; [reflexivity | now apply space_not_digit].
Qed.

(** A run of digits that ends before a character that is no digit is
    determined by the text. *)
Lemma digit_run_unique (a a' x x' : string) :
  Spec.every JS.is_digit a = true -> Spec.every JS.is_digit a' = true ->
  match x with String c _ => JS.is_digit c = false | EmptyString => True end ->
  match x' with String c _ => JS.is_digit c = false | EmptyString => True end ->
  a +:+ x = a' +:+ x' -> a = a' /\ x = x'.
Proof.
  revert a'. induction a as [|c a IH]; intros a' Ha Ha' Hx Hx' Heq.
  - destruct a' as [|c' a']; [now rewrite !append_nil_l in Heq|].
    rewrite append_nil_l, append_cons in Heq. subst x.
    cbn [Spec.every] in Ha'. apply andb_true_iff in Ha' as [Hc _]. congruence.
  - cbn [Spec.every] in Ha. apply andb_true_iff in Ha as [Hc Ha].
    destruct a' as [|c' a'].
    + rewrite append_nil_l, append_cons in Heq. subst x'. congruence.
    + cbn [Spec.every] in Ha'. apply andb_true_iff in Ha' as [_ Ha'].
      rewrite !append_cons in Heq. injection Heq as <- Heq.
      destruct (IH a' Ha Ha' Hx Hx' Heq) as [-> ->]. now split.
Qed.

(** The number that starts a text before a unit is determined by the
    text. *)
Lemma starts_with_weight_unique (t int frac int' frac' : string) :
  Spec.starts_with_weight t int frac -> Spec.starts_with_weight t int' frac' ->
  int = int' /\ frac = frac'.
Proof.
  intros (ws & unit & post & Hint & _ & Hfrac & Hws & Hunit & Hshape)
         (ws' & unit' & post' & Hint' & _ & Hfrac' & Hws' & Hunit' & Hshape').
  destruct (after_number_head ws unit post Hws Hunit) as (c & rest & Hc & Hcd & Hcs).
  destruct (after_number_head ws' unit' post' Hws' Hunit') as (c' & rest' & Hc' & Hcd' & Hcs').
  destruct Hshape as [[-> ->] | (Hne & sep & Hsep & ->)];
    destruct Hshape' as [[-> Heq] | (Hne' & sep' & Hsep' & Heq)].
  - rewrite Hc, Hc' in Heq.
    now destruct (digit_run_unique int int' (String _ _) (String _ _) Hint Hint' Hcd Hcd' Heq)
      as [-> _].
  - rewrite Hc in Heq.
    destruct (digit_run_unique int int' (String _ _) (String _ _) Hint Hint' Hcd
                (separator_not_digit _ Hsep') Heq) as [_ Hrest].
    injection Hrest as -> _. congruence.
  - rewrite Hc' in Heq.
    destruct (digit_run_unique int int' (String _ _) (String _ _) Hint Hint'
                (separator_not_digit _ Hsep) Hcd' Heq) as [_ Hrest].
    injection Hrest as -> _. congruence.
  - destruct (digit_run_unique int int' (String _ _) (String _ _) Hint Hint'
                (separator_not_digit _ Hsep) (separator_not_digit _ Hsep') Heq)
      as [-> Hrest].
    injection Hrest as _ Hrest. rewrite Hc, Hc' in Hrest.
    now destruct (digit_run_unique frac frac' (String _ _) (String _ _) Hfrac Hfrac' Hcd Hcd'
                    Hrest) as [-> _].
Qed.

(** A text that starts with a number and a unit starts with a word of the
    weight pattern. *)
Lemma starts_with_weight_lang (t int frac : string) :
  Spec.starts_with_weight t int frac ->
  exists w post, t = w +:+ post /\ lang Validator.weight_re w.
Proof.
  intros (ws & unit & post & Hint & Hne & Hfrac & Hws & Hunit & Hshape).
  destruct Hshape as [[-> ->] | (Hfne & sep & Hsep & ->)].
  - exists (int +:+ ws +:+ unit), post. rewrite !append_assoc. split; [reflexivity|].
    apply lang_weight. exists int, ws, unit. split; [reflexivity|].
    split; [|now split]. exists int, EmptyString. rewrite append_nil_r.
    split; [reflexivity|]. split; [exact Hint|]. split; [exact Hne | now left].
  - exists ((int +:+ String sep frac) +:+ ws +:+ unit), post.
    rewrite !append_assoc. split; [reflexivity|].
    apply lang_weight. exists (int +:+ String sep frac), ws, unit.
    rewrite !append_assoc. split; [reflexivity|].
    split; [|now split]. exists int, (String sep frac).
    split; [reflexivity|]. split; [exact Hint|]. split; [exact Hne|].
    right. now exists sep, frac.
Qed.

Lemma starts_with_weight_found (pre t int frac : string) :
  Spec.starts_with_weight t int frac -> Spec.number_with_unit (pre +:+ t).
Proof.
  intros (ws & unit & post & Hint & Hne & Hfrac & Hws & Hunit & Hshape).
  destruct Hshape as [[-> ->] | (Hfne & sep & Hsep & ->)].
  - exists pre, int, ws, unit, post. split; [reflexivity|].
    split; [|now split]. exists int, EmptyString. rewrite append_nil_r.
    split; [reflexivity|]. split; [exact Hint|]. split; [exact Hne | now left].
  - exists pre, (int +:+ String sep frac), ws, unit, post.
    rewrite !append_assoc. split; [reflexivity|].
    split; [|now split]. exists int, (String sep frac).
    split; [reflexivity|]. split; [exact Hint|]. split; [exact Hne|].
    right. now exists sep, frac.
Qed.

Lemma append_same_length (a a' x x' : string) :
  a +:+ x = a' +:+ x' -> String.length a = String.length a' -> a = a' /\ x = x'.
Proof.
  revert a'. induction a as [|c a IH]; intros [|c' a'] Heq Hlen; try discriminate Hlen.
  - now rewrite !append_nil_l in Heq.
  - rewrite !append_cons in Heq. injection Heq as <- Heq. injection Hlen as Hlen.
    destruct (IH a' Heq Hlen) as [-> ->]. now split.
Qed.

(** The first number of a text is determined by the text. *)
Lemma first_number_unique (s int frac int' frac' : string) :
  Spec.first_number s int frac -> Spec.first_number s int' frac' ->
  int = int' /\ frac = frac'.
Proof.
  intros (pre & t & Hs & Hstart & Hfirst) (pre' & t' & Hs' & Hstart' & Hfirst').
  pose proof (Hfirst pre' t' int' frac' Hs' Hstart') as Hle.
  pose proof (Hfirst' pre t int frac Hs Hstart) as Hle'.
  rewrite Hs in Hs'.
  destruct (append_same_length pre pre' t t' Hs') as [_ <-]; [lia|].
  exact (starts_with_weight_unique t int frac int' frac' Hstart Hstart').
Qed.

(** The match of the weight pattern is at the first number followed by a
    unit, and its first group holds that number. *)
Lemma weight_capture_first (s : string) (m : match_result) :
  exec Validator.weight_re s = Some m ->
  exists int frac,
    Spec.first_number s int frac
    /\ (group 1 (m_groups m) = Some int /\ frac = EmptyString
        \/ exists sep, Validator.is_dot_or_comma sep = true
                       /\ group 1 (m_groups m) = Some (int +:+ String sep frac)).
Proof.
  intros Hm. apply exec_from_first in Hm as (pre & t & cur & rest & -> & Hrun & Hfirst).
  assert (Hin : In (cur, m_groups m)
                   (run Validator.weight_re (Cursor (0 + String.length pre) t) []))
    by (rewrite Hrun; now left).
  clear Hrun. unfold Validator.weight_re in Hin.
  apply in_run_cat in Hin as (o1 & Hin1 & Hin).
  apply in_run_group in Hin1 as (o0 & Hin0 & ->). cbn [fst snd] in Hin.
  pose proof (run_captures Validator.number_re eq_refl _ _ _ Hin0) as Hcaps0.
  apply run_sound, Matches_lang in Hin0 as (num & Lnum & Anum & Inum); [|reflexivity].
  cbn [ahead index] in Anum, Inum.
  apply in_run_cat in Hin as (o2 & Hin2 & Hin).
  pose proof (run_captures (Star (Chars JS.is_space)) eq_refl _ _ _ Hin2) as Hcaps2.
  apply run_sound, Matches_lang in Hin2 as (ws & Lws & Aws & _); [|reflexivity].
  apply in_run_group in Hin as (o3 & Hin3 & Heq).
  pose proof (run_captures Validator.unit_re eq_refl _ _ _ Hin3) as Hcaps3.
  apply run_sound, Matches_lang in Hin3 as (unit & Lunit & Aunit & _); [|reflexivity].
  injection Heq as Hcur Hgroups.
  assert (Hgroup : group 1 (m_groups m) = Some num).
  { rewrite Hgroups, Hcaps3, Hcaps2, Hcaps0. cbn [group Nat.eqb index ahead].
    rewrite Inum, Anum.
    replace (0 + String.length pre + String.length num - (0 + String.length pre))%nat
      with (String.length num) by lia.
    now rewrite take_append. }
  assert (Ht : t = num +:+ ws +:+ unit +:+ ahead cur)
    by (rewrite Anum, Aws, Aunit, Hcur; reflexivity).
  apply lang_number in Lnum as (int & tail & -> & Hint & Hne & Htail).
  apply lang_star_chars in Lws. apply lang_unit in Lunit.
  assert (Hleft : forall frac,
             Spec.starts_with_weight t int frac -> Spec.first_number (pre +:+ t) int frac).
  { intros frac Hstart. exists pre, t. split; [reflexivity|]. split; [exact Hstart|].
    intros pre' t' int' frac' Hs Hstart'.
    destruct (Nat.le_gt_cases (String.length pre) (String.length pre')) as [Hle | Hlt];
      [exact Hle | exfalso].
    destruct (starts_with_weight_lang _ _ _ Hstart') as (w & post & -> & Hw).
    apply (Hfirst pre' (w +:+ post) (Cursor (0 + String.length pre' + String.length w) post)
             Hs Hlt).
    now apply lang_Matches. }
  destruct Htail as [-> | (sep & frac & -> & Hsep & Hfrac & Hfne)].
  - rewrite append_nil_r in Hgroup, Ht. exists int, EmptyString. split; [|now left].
    apply Hleft. exists ws, unit, (ahead cur). repeat split; try assumption. now left.
  - exists int, frac. split; [|right; now exists sep].
    apply Hleft. exists ws, unit, (ahead cur). repeat split; try assumption.
    right. split; [exact Hfne|]. exists sep. split; [exact Hsep|].
    now rewrite Ht, !append_assoc.
Qed.

(** The value the validator reads from a text is the decimal of its first
    number followed by a unit. *)
Lemma first_number_parsed (s int frac : string) :
  Spec.first_number s int frac -> Spec.parsed_weight s = Some (Spec.decimal_of int frac).
Proof.
  intros Hfirst. unfold Spec.parsed_weight.
  destruct (exec Validator.weight_re s) as [m|] eqn:Hm.
  - destruct (weight_capture_first _ _ Hm) as (int' & frac' & Hfirst' & Hgroup).
    destruct (first_number_unique _ _ _ _ _ Hfirst Hfirst') as [<- <-].
    destruct Hfirst as (pre & t & _ & (ws & unit & post & Hint & Hne & Hfrac & _) & _).
    destruct Hgroup as [[-> ->] | (sep & Hsep & ->)].
    + destruct (parseFloat_number int EmptyString "." Hint Hne eq_refl eq_refl) as [-> _].
      unfold Spec.decimal_of. now rewrite append_nil_r.
    + now destruct (parseFloat_number int frac sep Hint Hne Hfrac Hsep) as [_ ->].
  - apply weight_match_none in Hm. exfalso. apply Hm.
    destruct Hfirst as (pre & t & -> & Hstart & _).
    exact (starts_with_weight_found pre t int frac Hstart).
Qed.

Lemma first_number_exists (s : string) :
  Spec.number_with_unit s <-> exists int frac, Spec.first_number s int frac.
Proof.
  split.
  - intros Hfound. destruct (exec Validator.weight_re s) as [m|] eqn:Hm;
      [|now apply weight_match_none in Hm].
    destruct (weight_capture_first _ _ Hm) as (int & frac & Hfirst & _). now exists int, frac.
  - intros (int & frac & pre & t & -> & Hstart & _).
    exact (starts_with_weight_found pre t int frac Hstart).
Qed.

Lemma rounds_outside_iff (value : Validator.decimal) :
  Spec.out_of_range value = true <-> Spec.rounds_outside value.
Proof.
  unfold Spec.out_of_range, Spec.rounds_outside, Validator.le_zero, Validator.gt_100000.
  now rewrite orb_true_iff, N.leb_le, N.ltb_lt.
Qed.

(** The warnings of the weight rule on a text with a number and a unit. *)
Lemma weight_warnings_value (v : option json) (value : Validator.decimal) :
  Json.truthy v = true ->
  Spec.parsed_weight (Json.to_String_opt v) = Some value ->
  Validator.weight_warnings v
  = if Spec.out_of_range value then [Validator.weight_value_msg] else [].
Proof.
  unfold Validator.weight_warnings, Spec.parsed_weight, Spec.out_of_range. intros ->.
  destruct (exec Validator.weight_re _) as [m|]; [|discriminate].
  destruct (group 1 (m_groups m)) as [g1|]; [|discriminate].
  now intros ->.
Qed.

(** C9, as stated, fails on a weight that is present but falsy: an empty
    text, or the number 0, holds no number followed by a unit, and no warning
    is emitted. *)
Lemma empty_weight_not_warned :
  Json.get "weight" (JObj [("weight", JStr EmptyString)]) = Some (JStr EmptyString)
  /\ Validator.warnings (Validator.validateDocument (JObj [("weight", JStr EmptyString)])) = []
  /\ ~ Spec.number_with_unit EmptyString
  /\ Validator.warnings (Validator.validateDocument (JObj [("weight", JNum false "0")])) = []
  /\ ~ Spec.number_with_unit (Json.to_String (JNum false "0")).
Proof.
  split; [reflexivity|]. split; [reflexivity|]. split; [now apply weight_match_none|].
  split; [reflexivity | now apply weight_match_none].
Qed.

(** C9, as amended: for every ExtractedData whose weight field is truthy
    (not absent, empty, zero, null or false) and on which [validateDocument]
    returns, it emits a weight warning if and only if the text of the weight
    does not contain a number followed by a recognized unit
    (kg/lbs/tons/tonnes), or the numeric value parsed from the first such
    number lies outside the interval (0, 100000].  The first such number is
    the one that starts leftmost; its value is the double nearest to the
    decimal it denotes, and with at most eleven digits after the dot or
    comma it is outside the interval exactly when the decimal is. *)
Theorem weight_warning_iff (extracted : json) (r : Validator.ValidationResult) :
  Throwing.validateDocument extracted = Ok r ->
  Json.truthy (Json.get "weight" extracted) = true ->
  let weight := Json.to_String_opt (Json.get "weight" extracted) in
  (Spec.number_with_unit weight <-> exists int frac, Spec.first_number weight int frac)
  /\ (Spec.weight_warned r
      <-> (~ Spec.number_with_unit weight
           \/ exists int frac,
                Spec.first_number weight int frac
                /\ Spec.rounds_outside (Spec.decimal_of int frac)))
  /\ (forall int frac,
        Spec.first_number weight int frac -> (String.length frac <= 11)%nat ->
        (Spec.weight_warned r <-> Spec.outside_interval (Spec.decimal_of int frac))).
Proof.
  intros Hreturns Htruthy weight. apply validateDocument_returns in Hreturns. subst r.
  assert (Hvalue : forall int frac,
             Spec.first_number weight int frac ->
             (Spec.weight_warned (Validator.validateDocument extracted)
              <-> Spec.out_of_range (Spec.decimal_of int frac) = true)).
  { intros int frac Hfirst. rewrite weight_warned_rule.
    rewrite (weight_warnings_value _ _ Htruthy (first_number_parsed _ _ _ Hfirst)).
    destruct (Spec.out_of_range _); split; congruence. }
  split; [apply first_number_exists|]. split.
  - split.
    + intros Hwarned.
      destruct (exec Validator.weight_re weight) as [m|] eqn:Hm;
        [|left; now apply weight_match_none].
      right. destruct (weight_capture_first _ _ Hm) as (int & frac & Hfirst & _).
      exists int, frac. split; [exact Hfirst|].
      now apply rounds_outside_iff, (Hvalue int frac Hfirst).
    + intros [Hnone | (int & frac & Hfirst & Hout)].
      * apply weight_warned_rule. unfold Validator.weight_warnings. rewrite Htruthy.
        fold weight. apply weight_match_none in Hnone. now rewrite Hnone.
      * now apply (Hvalue int frac Hfirst), rounds_outside_iff.
  - intros int frac Hfirst Hlen. rewrite (Hvalue int frac Hfirst).
    apply out_of_range_exact. unfold Spec.decimal_of. cbn [Validator.scale]. lia.
Qed.

(** 120000 kg starts with the number 120000 and is too heavy; "heavy" holds
    no number. *)
Lemma weight_warning_iff_witness :
  Spec.weight_warned (Validator.validateDocument (JObj [("weight", JStr "120000 kg")]))
  /\ Spec.weight_warned (Validator.validateDocument (JObj [("weight", JStr "heavy")])).
Proof.
  split.
  - destruct (weight_warning_iff (JObj [("weight", JStr "120000 kg")])
                (Validator.validateDocument (JObj [("weight", JStr "120000 kg")])))
      as (_ & _ & Hrange); [vm_compute; reflexivity | reflexivity |].
    refine (proj2 (Hrange "120000" EmptyString _ _) _).
    + exists EmptyString, "120000 kg". split; [reflexivity|]. split.
      * exists " ", "kg", EmptyString. split; [reflexivity|]. split; [discriminate|].
        split; [reflexivity|]. split; [reflexivity|]. split; [vm_compute; tauto|].
        left. split; reflexivity.
      * intros pre' t' int' frac' _ _. cbn [String.length]. lia.
    + cbn [String.length]. lia.
    + right. vm_compute. reflexivity.
  - destruct (weight_warning_iff (JObj [("weight", JStr "heavy")])
                (Validator.validateDocument (JObj [("weight", JStr "heavy")])))
      as (_ & Hwarned & _); [vm_compute; reflexivity | reflexivity |].
    apply Hwarned. left. now apply weight_match_none.
Defined.

(** The unit may follow at once or after spaces, in either case, and a
    comma counts as the decimal point; the bounds are those of the double
    that [parseFloat] returns. *)
Example weight_examples :
  Validator.weight_warnings (Some (JStr "1000 kg")) = []
  /\ Validator.weight_warnings (Some (JStr "Gross 12,5 Tonnes")) = []
  /\ Validator.weight_warnings (Some (JStr "100000 lbs")) = []
  /\ Validator.weight_warnings (Some (JStr "100000.5kg")) = [Validator.weight_value_msg]
  /\ Validator.weight_warnings (Some (JStr "0.0 kg")) = [Validator.weight_value_msg]
  /\ Validator.weight_warnings (Some (JStr "100000.000000000001 kg")) = []
  /\ Validator.weight_warnings (Some (JStr "12 boxes")) = [Validator.weight_format_msg]
  /\ Validator.weight_warnings (Some (JNum true "1000")) = [Validator.weight_format_msg].
Proof. repeat split; vm_compute; reflexivity. Qed.

End WeightProps.

(** ** Parsing of the model output *)

Section SalvageProps.
Import RegExp.

Lemma includes_append (c : ascii) (a b : string) :
  JS.includes c (a +:+ b) = JS.includes c a || JS.includes c b.
Proof.
  induction a as [|x a IH]; [reflexivity|].
  rewrite append_cons. cbn [JS.includes]. now rewrite IH, orb_assoc.
Qed.

Lemma substring_skip (pre x : string) (n : nat) :
  String.substring (String.length pre) n (pre +:+ x) = String.substring 0 n x.
Proof. induction pre as [|c pre IH]; [reflexivity|]. rewrite append_cons. exact IH. Qed.

Lemma substring_take (x y : string) :
  String.substring 0 (String.length x) (x +:+ y) = x.
Proof.
  induction x as [|c x IH]; [now destruct y|].
  rewrite append_cons. cbn. now rewrite IH.
Qed.

(** The greedy [[\s\S]*\}] tries the closing braces from the last one
    back to the first. *)
Lemma run_tail_cons (j : nat) (c : ascii) (u : string) (caps : captures) :
  run tail_re (Cursor j (String c u)) caps
  = run tail_re (Cursor (S j) u) caps
    ++ (if Ascii.eqb "}" c then [(Cursor (S j) u, caps)] else []).
Proof.
  unfold tail_re. cbn [run ahead String.length star_body index fst snd flat_map].
  replace (Nat.eqb (S j) j) with false
    by (symmetry; apply Nat.eqb_neq; lia).
  rewrite app_nil_r, flat_map_app. f_equal.
  cbn [flat_map run ahead index fst snd Lit JS.char_is]. unfold JS.char_is.
  destruct (Ascii.eqb "}" c); reflexivity.
Qed.

Lemma run_tail_nil (j : nat) (caps : captures) :
  run tail_re (Cursor j EmptyString) caps = [].
Proof. reflexivity. Qed.

Lemma run_tail_head (u : string) :
  forall j caps,
    match run tail_re (Cursor j u) caps with
    | [] => JS.includes "}" u = false
    | (cur, caps') :: _ =>
        exists a b, u = a +:+ "}" +:+ b /\ JS.includes "}" b = false
                    /\ cur = Cursor (j + String.length a + 1) b
    end.
Proof.
  induction u as [|c u IH]; intros j caps; [reflexivity|].
  rewrite run_tail_cons. specialize (IH (S j) caps).
  destruct (run tail_re (Cursor (S j) u) caps) as [|[cur caps'] rest].
  - cbn [app JS.includes]. destruct (Ascii.eqb "}" c) eqn:Hc.
    + apply Ascii.eqb_eq in Hc as <-. exists EmptyString, u.
      split; [reflexivity|]. split; [exact IH|]. cbn. f_equal. lia.
    + rewrite Ascii.eqb_sym, Hc. exact IH.
  - cbn [app]. destruct IH as (a & b & -> & Hb & ->).
    exists (String c a), b. split; [reflexivity|]. split; [exact Hb|].
    cbn. f_equal. lia.
Qed.

Lemma run_braces_cons (i : nat) (c : ascii) (s : string) :
  run Enhanced.braces_re (Cursor i (String c s)) []
  = if Ascii.eqb "{" c then run tail_re (Cursor (S i) s) [] else [].
Proof.
  unfold Enhanced.braces_re. fold tail_re.
  cbn [run Lit ahead index fst snd flat_map JS.char_is]. unfold JS.char_is.
  destruct (Ascii.eqb "{" c); [|reflexivity].
  cbn [flat_map fst snd app]. now rewrite !app_nil_r.
Qed.

(** The match of [/\{[\s\S]*\}/] starts at the first opening brace and
    ends at the last closing brace. *)
Lemma exec_braces (s : string) :
  forall i m, exec_from Enhanced.braces_re i s = Some m ->
  exists pre mid post,
    s = pre +:+ "{" +:+ mid +:+ "}" +:+ post
    /\ JS.includes "{" pre = false /\ JS.includes "}" post = false
    /\ m_start m = (i + String.length pre)%nat
    /\ m_end m = (i + String.length pre + String.length mid + 2)%nat.
Proof.
  induction s as [|c s IH]; intros i m; [discriminate|].
  cbn [exec_from]. rewrite run_braces_cons.
  destruct (Ascii.eqb "{" c) eqn:Hc.
  - apply Ascii.eqb_eq in Hc as <-.
    pose proof (run_tail_head s (S i) []) as Htail.
    destruct (run tail_re (Cursor (S i) s) []) as [|[cur caps] rest].
    + intros Hm. destruct (IH _ _ Hm) as (pre & mid & post & -> & _).
      rewrite !includes_append in Htail. cbn in Htail.
      rewrite !orb_true_r in Htail. discriminate.
    + intros [= <-]. destruct Htail as (a & b & -> & Hb & ->).
      exists EmptyString, a, b. cbn. repeat split; [exact Hb | lia | lia].
  - intros Hm. destruct (IH _ _ Hm) as (pre & mid & post & -> & Hpre & Hpost & Hs & He).
    exists (String c pre), mid, post. cbn [JS.includes String.length].
    rewrite Ascii.eqb_sym, Hc. repeat split; try assumption; lia.
Qed.

Lemma salvage_spec (s candidate : string) :
  Enhanced.salvage s = Some candidate ->
  exists pre mid post,
    s = pre +:+ candidate +:+ post
    /\ candidate = "{" +:+ mid +:+ "}"
    /\ JS.includes "{" pre = false /\ JS.includes "}" post = false.
Proof.
  unfold Enhanced.salvage, exec.
  destruct (exec_from Enhanced.braces_re 0 s) as [m|] eqn:Hm; [|discriminate].
  intros [= <-].
  destruct (exec_braces _ _ _ Hm) as (pre & mid & post & -> & Hpre & Hpost & Hs & He).
  exists pre, mid, post. unfold matched. rewrite Hs, He. cbn [Nat.add].
  replace (String.length pre + String.length mid + 2 - String.length pre)%nat
    with (String.length ("{" +:+ mid +:+ "}")) by (rewrite !length_append; cbn; lia).
  rewrite substring_skip.
  replace ("{" +:+ mid +:+ "}" +:+ post) with (("{" +:+ mid +:+ "}") +:+ post)
    by now rewrite !append_assoc.
  rewrite substring_take. rewrite !append_assoc. now repeat split.
Qed.

(** There is nothing to salvage exactly when no opening brace is followed
    by a closing one. *)
Lemma salvage_none (s : string) :
  Enhanced.salvage s = None
  <-> ~ exists pre mid post, s = pre +:+ "{" +:+ mid +:+ "}" +:+ post.
Proof.
  unfold Enhanced.salvage.
  destruct (exec Enhanced.braces_re s) as [m|] eqn:Hm.
  - split; [discriminate|]. intros Hnone. exfalso. apply Hnone.
    destruct (exec_braces _ _ _ Hm) as (pre & mid & post & -> & _). now exists pre, mid, post.
  - split; [|reflexivity]. intros _ (pre & mid & post & ->).
    apply exec_none_lang in Hm; [|reflexivity]. apply Hm.
    exists pre, ("{" +:+ mid +:+ "}"), post. rewrite !append_assoc. split; [reflexivity|].
    exists "{", (mid +:+ "}"). split; [reflexivity|].
    split; [exists "{", EmptyString; repeat split; now exists "{"%char|].
    exists mid, "}". split; [reflexivity|]. split.
    + apply lang_star_chars. clear. induction mid; [reflexivity | assumption].
    + exists "}", EmptyString. repeat split. now exists "}"%char.
Qed.

(** The first opening brace and the last closing brace of a text are
    determined by the text. *)
Lemma first_brace_unique (pre pre' x x' : string) :
  JS.includes "{" pre = false -> JS.includes "{" pre' = false ->
  pre +:+ String "{" x = pre' +:+ String "{" x' -> pre = pre' /\ x = x'.
Proof.
  revert pre'. induction pre as [|c pre IH]; intros [|c' pre'] Hpre Hpre' Heq.
  - rewrite !append_nil_l in Heq. injection Heq as ->. now split.
  - rewrite append_nil_l, append_cons in Heq. injection Heq as <- _.
    cbn [JS.includes] in Hpre'. rewrite Ascii.eqb_refl in Hpre'. discriminate.
  - rewrite append_nil_l, append_cons in Heq. injection Heq as -> _.
    cbn [JS.includes] in Hpre. rewrite Ascii.eqb_refl in Hpre. discriminate.
  - rewrite !append_cons in Heq. injection Heq as <- Heq.
    cbn [JS.includes] in Hpre, Hpre'.
    apply orb_false_iff in Hpre as [_ Hpre]. apply orb_false_iff in Hpre' as [_ Hpre'].
    destruct (IH pre' Hpre Hpre' Heq) as [-> ->]. now split.
Qed.

Lemma last_brace_unique (a a' b b' : string) :
  JS.includes "}" b = false -> JS.includes "}" b' = false ->
  a +:+ String "}" b = a' +:+ String "}" b' -> a = a' /\ b = b'.
Proof.
  intros Hb Hb'. revert a'. induction a as [|c a IH]; intros [|c' a'] Heq.
  - rewrite !append_nil_l in Heq. injection Heq as ->. now split.
  - rewrite append_nil_l, append_cons in Heq. injection Heq as _ ->.
    rewrite includes_append in Hb. cbn [JS.includes] in Hb.
    rewrite Ascii.eqb_refl, orb_true_r in Hb. discriminate.
  - rewrite append_nil_l, append_cons in Heq. injection Heq as _ <-.
    rewrite includes_append in Hb'. cbn [JS.includes] in Hb'.
    rewrite Ascii.eqb_refl, orb_true_r in Hb'. discriminate.
  - rewrite !append_cons in Heq. injection Heq as <- Heq.
    destruct (IH a' Heq) as [-> ->]. now split.
Qed.

(** The text salvaged from a model output runs from its first opening
    brace to its last closing brace. *)
Lemma salvage_shape (pre mid post : string) :
  JS.includes "{" pre = false -> JS.includes "}" post = false ->
  Enhanced.salvage (pre +:+ "{" +:+ mid +:+ "}" +:+ post) = Some ("{" +:+ mid +:+ "}").
Proof.
  intros Hpre Hpost.
  destruct (Enhanced.salvage (pre +:+ "{" +:+ mid +:+ "}" +:+ post)) as [candidate|]
    eqn:Hsalvage.
  - destruct (salvage_spec _ _ Hsalvage) as (pre' & mid' & post' & Heq & -> & Hpre' & Hpost').
    rewrite !append_assoc, !append_cons, !append_nil_l in Heq.
    destruct (first_brace_unique _ _ _ _ Hpre Hpre' Heq) as [_ Hrest].
    now destruct (last_brace_unique _ _ _ _ Hpost Hpost' Hrest) as [-> _].
  - apply salvage_none in Hsalvage. exfalso. apply Hsalvage. now exists pre, mid, post.
Qed.

(** C6, as stated, fails on a model output that wraps its JSON object in
    prose holding a second pair of braces: the text the fallback parses runs
    from the first opening brace to the last closing brace, not to the brace
    that balances the first, so [performAIAnalysis] gives up where the first
    balanced substring would have parsed; and [extractStructuredData] makes
    no second attempt and answers a placeholder that is not empty. *)
Lemma salvage_is_not_first_balanced :
  Enhanced.salvage Samples.wrapped_output
  = Some (Samples.supplier_object +:+ " (see {notes}")
  /\ Spec.first_balanced Samples.wrapped_output = Some Samples.supplier_object
  /\ Enhanced.parse_analysis Samples.platform (JStr Samples.wrapped_output)
     = Ok {| Enhanced.extracted := Json.empty_object;
             Enhanced.summary := JStr "Failed to parse analysis results" |}
  /\ Spec.parsed_by_policy Samples.platform Samples.wrapped_output
     = Some (JObj [("supplier", JStr "Acme Co")])
  /\ Json.get "supplier"
       (ProcessDocuments.parse_extracted Samples.platform Samples.model_down
          (Some (JStr Samples.wrapped_output)))
     = Some (JStr "Unknown Supplier").
Proof. repeat split; vm_compute; reflexivity. Qed.

(** C6, as amended: the parsing of a model output first attempts a direct
    JSON parse.  On failure [performAIAnalysis] and analyze-docs parse the
    text from the first opening brace to the last closing brace after it,
    and on further failure, or without such a text, they answer an empty
    ExtractedData ([performAIAnalysis] with a fallback summary);
    [extractStructuredData] makes no second attempt and answers a fixed
    placeholder record.  None of the three raises on a text that does not
    parse. *)
Theorem parsing_policy (P : Platform) (E : ProcessDocuments.Services) (output : string) :
  (* the direct parse comes first *)
  (forall v, Http.JSON_parse P output = Some v -> v <> JNull ->
     Enhanced.parse_analysis P (JStr output)
     = Ok {| Enhanced.extracted :=
               Enhanced.or_else (Json.get "extracted" v) Json.empty_object;
             Enhanced.summary :=
               Enhanced.or_else (Json.get "summary" v) (JStr "No summary available") |}
     /\ AnalyzeDocs.extract P (JStr output) = Ok v
     /\ ProcessDocuments.parse_extracted P E (Some (JStr output)) = v)
  (* then the text between the first opening and the last closing brace *)
  /\ (forall pre mid post,
        direct_parse_fails P output ->
        output = pre +:+ "{" +:+ mid +:+ "}" +:+ post ->
        JS.includes "{" pre = false -> JS.includes "}" post = false ->
        (forall v, Http.JSON_parse P ("{" +:+ mid +:+ "}") = Some v -> v <> JNull ->
           Enhanced.parse_analysis P (JStr output)
           = Ok {| Enhanced.extracted := Enhanced.or_else (Json.get "extracted" v) v;
                   Enhanced.summary :=
                     Enhanced.or_else (Json.get "summary" v)
                       (JStr "Document processed successfully") |})
        /\ (direct_parse_fails P ("{" +:+ mid +:+ "}") ->
            Enhanced.parse_analysis P (JStr output)
            = Ok {| Enhanced.extracted := Json.empty_object;
                    Enhanced.summary := JStr "Failed to parse analysis results" |}))
  (* without such a text, the empty result *)
  /\ (direct_parse_fails P output ->
      (~ exists pre mid post, output = pre +:+ "{" +:+ mid +:+ "}" +:+ post) ->
      Enhanced.parse_analysis P (JStr output)
      = Ok {| Enhanced.extracted := Json.empty_object;
              Enhanced.summary := JStr "No analysis results available" |})
  (* analyze-docs: the same text, and the empty object when it does not
     parse or is not there *)
  /\ (forall pre mid post,
        Http.JSON_parse P output = None ->
        output = pre +:+ "{" +:+ mid +:+ "}" +:+ post ->
        JS.includes "{" pre = false -> JS.includes "}" post = false ->
        AnalyzeDocs.extract P (JStr output)
        = Ok (default Json.empty_object (Http.JSON_parse P ("{" +:+ mid +:+ "}"))))
  /\ (Http.JSON_parse P output = None ->
      (~ exists pre mid post, output = pre +:+ "{" +:+ mid +:+ "}" +:+ post) ->
      AnalyzeDocs.extract P (JStr output) = Ok Json.empty_object)
  (* process-documents: the placeholder, with no second attempt *)
  /\ (Http.JSON_parse P output = None ->
      ProcessDocuments.parse_extracted P E (Some (JStr output))
      = ProcessDocuments.fallback_data E)
  (* no exception in any case *)
  /\ (exists a, Enhanced.parse_analysis P (JStr output) = Ok a)
  /\ (exists v, AnalyzeDocs.extract P (JStr output) = Ok v).
Proof.
  assert (Hfail : direct_parse_fails P output ->
                  Enhanced.parse_analysis P (JStr output)
                  = match Enhanced.salvage output with
                    | Some candidate =>
                        match Enhanced.salvaged_analysis P candidate with
                        | Ok a => Ok a
                        | Throw _ =>
                            Ok {| Enhanced.extracted := Json.empty_object;
                                  Enhanced.summary := JStr "Failed to parse analysis results" |}
                        end
                    | None => Ok {| Enhanced.extracted := Json.empty_object;
                                    Enhanced.summary := JStr "No analysis results available" |}
                    end).
  { unfold Enhanced.parse_analysis, Enhanced.direct_analysis, Http.parse, Http.catch.
    cbn [mbind result_bind Http.bind Throwing.to_String Json.converts Json.to_String].
    intros [-> | ->]; cbn [mbind result_bind Http.bind];
      destruct (Enhanced.salvage output); try reflexivity;
      destruct (Enhanced.salvaged_analysis P s); reflexivity. }
  assert (Hextract : Http.JSON_parse P output = None ->
                     AnalyzeDocs.extract P (JStr output)
                     = Ok match Enhanced.salvage output with
                          | Some candidate =>
                              default Json.empty_object (Http.JSON_parse P candidate)
                          | None => Json.empty_object
                          end).
  { unfold AnalyzeDocs.extract, Http.parse, Http.catch.
    cbn [mbind result_bind Http.bind Throwing.to_String Json.converts Json.to_String].
    intros ->. destruct (Enhanced.salvage output) as [candidate|]; [|reflexivity].
    destruct (Http.JSON_parse P candidate); reflexivity. }
  split; [|split; [|split; [|split; [|split; [|split; [|split]]]]]].
  - intros v Hv Hnull.
    unfold Enhanced.parse_analysis, Enhanced.direct_analysis, AnalyzeDocs.extract,
      ProcessDocuments.parse_extracted, Http.parse, Http.catch.
    cbn [mbind result_bind Http.bind Throwing.to_String Json.converts Json.to_String].
    rewrite Hv.
    cbn [mbind result_bind Http.bind]. destruct v; try contradiction; now repeat split.
  - intros pre mid post Hdirect -> Hpre Hpost.
    rewrite (Hfail Hdirect), (salvage_shape pre mid post Hpre Hpost).
    unfold Enhanced.salvaged_analysis, Http.parse. split.
    + intros v -> Hnull. cbn [mbind result_bind Http.bind].
      destruct v; try contradiction; reflexivity.
    + intros [-> | ->]; reflexivity.
  - intros Hdirect Hnone. apply salvage_none in Hnone. now rewrite (Hfail Hdirect), Hnone.
  - intros pre mid post Hdirect -> Hpre Hpost.
    now rewrite (Hextract Hdirect), (salvage_shape pre mid post Hpre Hpost).
  - intros Hdirect Hnone. apply salvage_none in Hnone. now rewrite (Hextract Hdirect), Hnone.
  - unfold ProcessDocuments.parse_extracted, Http.parse.
    cbn [mbind result_bind Http.bind Throwing.to_String Json.converts Json.to_String].
    now intros ->.
  - destruct (Http.JSON_parse P output) as [v|] eqn:Hv.
    + destruct v; try (eexists; unfold Enhanced.parse_analysis, Enhanced.direct_analysis,
                         Http.parse, Http.catch;
                       cbn [mbind result_bind Http.bind Throwing.to_String Json.converts Json.to_String];
                       rewrite Hv;
                       cbn [mbind result_bind Http.bind]; reflexivity).
      rewrite Hfail by now right.
      destruct (Enhanced.salvage output) as [c|]; [|now eexists].
      destruct (Enhanced.salvaged_analysis P c); now eexists.
    + rewrite Hfail by now left.
      destruct (Enhanced.salvage output) as [c|]; [|now eexists].
      destruct (Enhanced.salvaged_analysis P c); now eexists.
  - destruct (Http.JSON_parse P output) as [v|] eqn:Hv.
    + exists v. unfold AnalyzeDocs.extract, Http.parse, Http.catch.
    cbn [mbind result_bind Http.bind Throwing.to_String Json.converts Json.to_String].
      now rewrite Hv.
    + rewrite (Hextract eq_refl). now eexists.
Qed.

(** On the wrapped output the text from the first opening brace to the
    last closing brace does not parse and the result is empty; a plain JSON
    object is read directly. *)
Lemma parsing_policy_witness :
  Enhanced.parse_analysis Samples.platform (JStr Samples.wrapped_output)
  = Ok {| Enhanced.extracted := Json.empty_object;
          Enhanced.summary := JStr "Failed to parse analysis results" |}
  /\ AnalyzeDocs.extract Samples.platform (JStr Samples.supplier_object)
     = Ok (JObj [("supplier", JStr "Acme Co")]).
Proof.
  split.
  - destruct (parsing_policy Samples.platform Samples.model_down Samples.wrapped_output)
      as (_ & Hsalvaged & _).
    destruct (Hsalvaged "Here you are: "
                (Samples.q "supplier" +:+ ":" +:+ Samples.q "Acme Co" +:+ "} (see {notes")
                ")") as [_ Hfails];
      [now left | vm_compute; reflexivity | reflexivity | reflexivity |].
    apply Hfails. now left.
  - destruct (parsing_policy Samples.platform Samples.model_down Samples.supplier_object)
      as (Hdirect & _).
    now destruct (Hdirect (JObj [("supplier", JStr "Acme Co")]) eq_refl) as (_ & -> & _).
Defined.

End SalvageProps.

(* ===================================================================== *)
(** * Part III. Further properties of the code                            *)
(* ===================================================================== *)

(** ** Strings, once more *)

Lemma length_trimStart_le (s : string) :
  (String.length (JS.trimStart s) <= String.length s)%nat.
Proof.
  induction s as [|c s IH]; simpl; [lia|]. destruct (JS.is_space c); simpl; lia.
Qed.

Lemma length_trimEnd_le (s : string) :
  (String.length (JS.trimEnd s) <= String.length s)%nat.
Proof.
  induction s as [|c s IH]; simpl; [lia|].
  destruct (JS.trimEnd s) eqn:H; [destruct (JS.is_space c)|]; simpl in *; lia.
Qed.

Lemma len_trim_le (s : string) : JS.len (JS.trim s) <= JS.len s.
Proof.
  unfold JS.len, JS.trim.
  pose proof (length_trimEnd_le (JS.trimStart s)). pose proof (length_trimStart_le s). lia.
Qed.

Lemma trim_idem (s : string) : JS.trim (JS.trim s) = JS.trim s.
Proof.
  destruct (JS.trim s) eqn:H; [reflexivity|]. rewrite <- H.
  apply trim_tidy, tidy_trim. rewrite H. discriminate.
Qed.

Lemma every_impl (p q : ascii -> bool) (s : string) :
  (forall c, p c = true -> q c = true) -> Spec.every p s = true -> Spec.every q s = true.
Proof.
  intros Hpq. induction s as [|c s IH]; [reflexivity|]. cbn [Spec.every].
  intros H. apply andb_true_iff in H as [Hc Hs]. now rewrite (Hpq c Hc), IH.
Qed.

Lemma every_trimStart (p : ascii -> bool) (s : string) :
  Spec.every p s = true -> Spec.every p (JS.trimStart s) = true.
Proof.
  induction s as [|c s IH]; [reflexivity|]. cbn [Spec.every JS.trimStart].
  intros H. apply andb_true_iff in H as [Hc Hs].
  destruct (JS.is_space c); [now apply IH|]. cbn [Spec.every]. now rewrite Hc, Hs.
Qed.

Lemma every_trimEnd (p : ascii -> bool) (s : string) :
  Spec.every p s = true -> Spec.every p (JS.trimEnd s) = true.
Proof.
  induction s as [|c s IH]; [reflexivity|]. cbn [Spec.every JS.trimEnd].
  intros H. apply andb_true_iff in H as [Hc Hs]. specialize (IH Hs).
  destruct (JS.trimEnd s) as [|d t].
  - destruct (JS.is_space c); [reflexivity|]. cbn [Spec.every]. now rewrite Hc.
  - cbn [Spec.every] in *. now rewrite Hc, IH.
Qed.

Lemma every_trim (p : ascii -> bool) (s : string) :
  Spec.every p s = true -> Spec.every p (JS.trim s) = true.
Proof. intros H. unfold JS.trim. now apply every_trimEnd, every_trimStart. Qed.

Lemma every_join (p : ascii -> bool) (sep : string) (l : list string) :
  Spec.every p sep = true -> Forall (fun s => Spec.every p s = true) l ->
  Spec.every p (JS.join sep l) = true.
Proof.
  intros Hsep. induction 1 as [|x l Hx Hl IH]; [reflexivity|].
  destruct l as [|y l]; [exact Hx|].
  rewrite join_cons2, !every_append, Hx, Hsep. exact IH.
Qed.

Lemma rev_string_append (s acc : string) :
  RegExp.rev_string acc s = RegExp.rev_string EmptyString s +:+ acc.
Proof.
  revert acc. induction s as [|c s IH]; intros acc; [reflexivity|].
  cbn [RegExp.rev_string]. rewrite (IH (String c acc)), (IH (String c EmptyString)).
  now rewrite append_assoc.
Qed.

Lemma every_rev_string (p : ascii -> bool) (s : string) :
  Spec.every p s = true -> Spec.every p (RegExp.rev_string EmptyString s) = true.
Proof.
  induction s as [|c s IH]; [reflexivity|]. cbn [Spec.every RegExp.rev_string].
  intros H. apply andb_true_iff in H as [Hc Hs].
  rewrite rev_string_append, every_append, (IH Hs). cbn [Spec.every]. now rewrite Hc.
Qed.

(** ** Text chunker (enhanced pipeline): sentences, sizes, punctuation *)

(** The sentence separator matches where a terminator stands, and then it
    consumes at least that terminator. *)
Lemma sentence_end_miss (i : nat) (c : ascii) (s : string) :
  Chunker.is_terminator c = false ->
  RegExp.run Chunker.sentence_end (RegExp.Cursor i (String c s)) [] = [].
Proof. intros Hc. cbn. now rewrite Hc. Qed.

Lemma sentence_end_hit (i : nat) (c : ascii) (s : string) :
  Chunker.is_terminator c = true ->
  exists cur caps rest,
    RegExp.run Chunker.sentence_end (RegExp.Cursor i (String c s)) [] = (cur, caps) :: rest
    /\ (i < RegExp.index cur)%nat.
Proof.
  intros Hc.
  assert (Hm : RegExp.Matches Chunker.sentence_end (RegExp.Cursor i (String c s))
                 (RegExp.Cursor (S i) s)).
  { eapply RegExp.M_Cat; [now apply RegExp.M_Chars | apply RegExp.M_Star_stop]. }
  destruct (run_complete _ _ _ [] Hm) as (caps' & Hin).
  destruct (RegExp.run Chunker.sentence_end (RegExp.Cursor i (String c s)) [])
    as [|[cur caps] rest] eqn:Hrun; [destruct Hin|].
  exists cur, caps, rest. split; [reflexivity|].
  assert (Hhead : In (cur, caps)
                     (RegExp.run Chunker.sentence_end (RegExp.Cursor i (String c s)) []))
    by (rewrite Hrun; now left).
  apply run_sound in Hhead. cbn [fst] in Hhead.
  inversion Hhead as [| |r1 r2 c0 c1 c2 H1 H2| | | | | | |]; subst.
  inversion H1; subst.
  apply Matches_advances in H2 as (w & _ & Hi). cbn [RegExp.index] in Hi. lia.
Qed.

Lemma split_loop_plain (fuel : nat) :
  forall piece cur,
    Spec.every (fun c => negb (Chunker.is_terminator c)) piece = true ->
    Forall (fun s => Spec.every (fun c => negb (Chunker.is_terminator c)) s = true)
           (RegExp.split_loop fuel Chunker.sentence_end piece cur).
Proof.
  induction fuel as [|fuel IH]; intros piece [i s] Hpiece; cbn [RegExp.split_loop RegExp.ahead].
  - constructor; [now apply every_rev_string | constructor].
  - destruct s as [|c s]; [constructor; [now apply every_rev_string | constructor]|].
    destruct (Chunker.is_terminator c) eqn:Hc.
    + destruct (sentence_end_hit i c s Hc) as (cur & caps & rest & -> & Hlt).
      cbn [RegExp.index].
      replace (Nat.eqb (RegExp.index cur) i) with false
        by (symmetry; apply Nat.eqb_neq; lia).
      cbn [andb]. constructor; [now apply every_rev_string | now apply IH].
    + rewrite (sentence_end_miss i c s Hc). apply IH.
      cbn [Spec.every]. now rewrite Hc, Hpiece.
Qed.

(** No sentence holds a terminator. *)
Lemma sentences_plain (text : string) :
  Forall (fun s => Spec.every (fun c => negb (Chunker.is_terminator c)) s = true)
         (Chunker.sentences text).
Proof.
  unfold Chunker.sentences. apply Forall_forall. intros s Hs.
  apply filter_In in Hs as [Hs _]. revert s Hs. apply Forall_forall.
  unfold RegExp.split. destruct text as [|c text].
  - destruct (RegExp.run _ _ _); repeat constructor.
  - now apply split_loop_plain.
Qed.

Lemma bounded_chunk_trim (maxChunkSize : Z) (ss : list string) (c : string) :
  Shape.bounded_chunk maxChunkSize ss c -> Shape.bounded_chunk maxChunkSize ss (JS.trim c).
Proof.
  intros [Hin | Hlen].
  - left. apply in_map_iff in Hin as (s & <- & Hs). rewrite trim_idem.
    apply in_map_iff. now exists s.
  - right. pose proof (len_trim_le c). lia.
Qed.

(** The loop keeps every chunk, pushed or open, within the bound. *)
Lemma step_bounded (maxChunkSize : Z) (ss l : list string) :
  incl l ss ->
  forall chunks cur,
    Forall (Shape.bounded_chunk maxChunkSize ss) chunks ->
    cur = EmptyString \/ Shape.bounded_chunk maxChunkSize ss cur ->
    Forall (Shape.bounded_chunk maxChunkSize ss)
           (fst (fold_left (Chunker.step maxChunkSize) l (chunks, cur)))
    /\ (snd (fold_left (Chunker.step maxChunkSize) l (chunks, cur)) = EmptyString
        \/ Shape.bounded_chunk maxChunkSize ss
             (snd (fold_left (Chunker.step maxChunkSize) l (chunks, cur)))).
Proof.
  induction l as [|s l IH]; intros Hincl chunks cur Hchunks Hcur; [now split|].
  assert (Hs : In s ss) by (apply Hincl; now left).
  assert (Hl : incl l ss) by (intros x Hx; apply Hincl; now right).
  cbn [fold_left]. unfold Chunker.step at 2 4 6.
  destruct ((JS.len (cur ++ s) >? maxChunkSize) && JS.nonempty cur) eqn:Hcond.
  - apply andb_true_iff in Hcond as [_ Hne]. apply nonempty_true in Hne.
    destruct Hcur as [-> | Hcur]; [congruence|].
    apply (IH Hl).
    + apply Forall_app. split; [exact Hchunks|]. constructor; [|constructor].
      now apply bounded_chunk_trim.
    + right. left. apply in_map_iff. now exists s.
  - apply (IH Hl); [exact Hchunks|]. right.
    destruct (JS.nonempty cur) eqn:Hne.
    + rewrite andb_true_r, Z.gtb_ltb in Hcond.
      right. apply Z.ltb_ge in Hcond.
      rewrite len_append in Hcond. rewrite !len_append.
      pose proof (len_trim_le s). change (JS.len ". ") with 2. lia.
    + apply nonempty_false in Hne. subst cur. left.
      rewrite !append_nil_l. apply in_map_iff. now exists s.
Qed.

Lemma assemble_bounded (maxChunkSize : Z) (ss : list string) :
  Forall (Shape.bounded_chunk maxChunkSize ss) (Chunker.assemble maxChunkSize ss).
Proof.
  unfold Chunker.assemble.
  destruct (step_bounded maxChunkSize ss ss (incl_refl ss) [] EmptyString)
    as [Hchunks Hcur]; [constructor | now left |].
  destruct (fold_left _ _ _) as [chunks cur]. cbn [fst snd] in *.
  destruct (JS.nonempty cur) eqn:Hne; [|exact Hchunks].
  apply nonempty_true in Hne. destruct Hcur as [-> | Hcur]; [congruence|].
  apply Forall_app. split; [exact Hchunks|]. constructor; [|constructor].
  now apply bounded_chunk_trim.
Qed.

(** X1: every chunk [chunkText] emits is one trimmed sentence of the text,
    or is at most two characters longer than the maximum: the size test of
    the loop leaves out the ". " it inserts, and a single sentence is never
    cut. *)
Theorem chunkText_length_bound (text : string) (maxChunkSize : Z) :
  Forall (Shape.bounded_chunk maxChunkSize (Chunker.sentences text))
         (Chunker.chunkText text maxChunkSize).
Proof.
  unfold Chunker.chunkText. apply Forall_forall. intros chunk Hin.
  apply filter_In in Hin as [Hin _]. revert chunk Hin. apply Forall_forall.
  apply assemble_bounded.
Qed.

(** X2: no chunk holds a '!' or a '?': the split removes the sentence
    terminators and the loop joins the sentences with ". " alone, so where
    the text had an exclamation or question mark the chunk has a full stop. *)
Theorem chunkText_rewrites_terminators (text : string) (maxChunkSize : Z) :
  Forall (fun chunk => Spec.every Shape.plain chunk = true)
         (Chunker.chunkText text maxChunkSize).
Proof.
  destruct (assemble_groups maxChunkSize (Chunker.sentences text) (sentences_nonblank text))
    as (groups & _ & Hcat & Hasm).
  unfold Chunker.chunkText. rewrite Hasm. apply Forall_forall. intros chunk Hin.
  apply filter_In in Hin as [Hin _]. apply in_map_iff in Hin as (g & <- & Hg).
  apply every_join; [reflexivity|]. apply Forall_forall. intros x Hx.
  assert (Hcon : In x (concat groups)) by (apply in_concat; now exists g).
  rewrite Hcat in Hcon. apply in_map_iff in Hcon as (s & <- & Hs).
  apply every_trim.
  pose proof (sentences_plain text) as Hplain.
  rewrite Forall_forall in Hplain. specialize (Hplain s Hs).
  revert Hplain. apply every_impl. intros c Hc.
  unfold Shape.plain, Chunker.is_terminator in *.
  destruct (JS.char_is "." c), (JS.char_is "!" c), (JS.char_is "?" c); try discriminate;
    reflexivity.
Qed.

(** A text without terminators is one sentence. *)
Lemma split_loop_one_sentence (fuel : nat) :
  forall piece i s,
    Spec.every (fun c => negb (Chunker.is_terminator c)) s = true ->
    (String.length s <= fuel)%nat ->
    RegExp.split_loop fuel Chunker.sentence_end piece (RegExp.Cursor i s)
    = [RegExp.rev_string EmptyString piece +:+ s].
Proof.
  induction fuel as [|fuel IH]; intros piece i s Hs Hfuel;
    cbn [RegExp.split_loop RegExp.ahead].
  - destruct s; [now rewrite append_nil_r | cbn in Hfuel; lia].
  - destruct s as [|c s]; [now rewrite append_nil_r|].
    cbn [Spec.every] in Hs. apply andb_true_iff in Hs as [Hc Hs].
    apply negb_true_iff in Hc. rewrite (sentence_end_miss i c s Hc).
    cbn [RegExp.index]. rewrite IH; [|exact Hs | cbn in Hfuel; lia].
    cbn [RegExp.rev_string]. rewrite (rev_string_append piece (String c EmptyString)).
    now rewrite append_assoc.
Qed.

Lemma sentences_one (text : string) :
  Spec.every (fun c => negb (Chunker.is_terminator c)) text = true ->
  Chunker.sentences text = if JS.nonempty (JS.trim text) then [text] else [].
Proof.
  intros Hplain. unfold Chunker.sentences, RegExp.split.
  destruct text as [|c text]; [reflexivity|].
  rewrite split_loop_one_sentence; [|exact Hplain | lia].
  cbn [RegExp.rev_string]. rewrite append_nil_l. reflexivity.
Qed.

(** X3: a text without '.', '!' or '?' is one sentence: whatever the
    maximum, [chunkText] answers the trimmed text as a single chunk when it
    is longer than 20 characters, and no chunk otherwise. *)
Theorem chunkText_without_terminator (text : string) (maxChunkSize : Z) :
  Spec.every (fun c => negb (Chunker.is_terminator c)) text = true ->
  Chunker.chunkText text maxChunkSize
  = if 20 <? JS.len (JS.trim text) then [JS.trim text] else [].
Proof.
  intros Hplain. unfold Chunker.chunkText. rewrite (sentences_one text Hplain).
  destruct (JS.nonempty (JS.trim text)) eqn:Hne.
  - unfold Chunker.assemble. cbn [fold_left Chunker.step JS.nonempty andb].
    rewrite andb_false_r. rewrite !append_nil_l, Hne, trim_idem.
    cbn [app List.filter]. unfold Chunker.long_enough. rewrite Z.gtb_ltb.
    now destruct (20 <? JS.len (JS.trim text)).
  - apply nonempty_false in Hne. rewrite Hne. reflexivity.
Qed.

(** A line of forty characters is one chunk even with a maximum of five. *)
Lemma chunkText_without_terminator_witness :
  Chunker.chunkText "  Bill of lading for forty crates of lamps " 5
  = ["Bill of lading for forty crates of lamps"].
Proof.
  rewrite (chunkText_without_terminator "  Bill of lading for forty crates of lamps " 5);
    reflexivity.
Defined.

(** ** Regular expressions: anchored tests and counted repetitions *)

Section AnchoredProps.
Import RegExp.

(** A test succeeds exactly when the pattern matches somewhere. *)
Lemma test_unanchored (r : regex) (s : string) :
  anchor_free r = true ->
  test r s = true <-> exists pre w post, s = pre +:+ w +:+ post /\ lang r w.
Proof.
  intros Hfree. unfold test. destruct (exec r s) as [m|] eqn:Hm.
  - split; [intros _ | reflexivity].
    destruct (exec_some_lang r s m Hfree Hm) as (pre & w & Hs & Hw).
    now exists pre, w, (m_rest m).
  - split; [discriminate|]. intros Hex.
    apply exec_none_lang in Hm; [|exact Hfree]. contradiction.
Qed.

(** A pattern that starts with [^] is tried at the start of the text
    only. *)
Lemma test_bol (r : regex) (s : string) :
  test (Cat Bol r) s = true <-> exists cur', Matches r (Cursor 0 s) cur'.
Proof.
  unfold test, exec. destruct (exec_from (Cat Bol r) 0 s) as [m|] eqn:Hm.
  - split; [intros _ | reflexivity].
    apply exec_from_some in Hm as (pre & t & cur & rest & -> & Hrun & _).
    assert (Hin : In (cur, m_groups m) (run (Cat Bol r) (Cursor (0 + String.length pre) t) []))
      by (rewrite Hrun; now left).
    apply run_sound in Hin. cbn [fst] in Hin.
    inversion Hin as [| |r1 r2 c0 c1 c2 H1 H2| | | | | | |]; subst.
    inversion H1 as [| | | | | | | |t0 Ht0|]; subst.
    destruct pre; [|discriminate]. rewrite append_nil_l. now exists cur.
  - split; [discriminate|]. intros (cur' & Hcur'). exfalso.
    apply (proj1 (exec_from_none _ s 0) Hm EmptyString s cur' eq_refl).
    cbn. eapply M_Cat; [apply M_Bol | exact Hcur'].
Qed.

Lemma matches_cat_eol (r : regex) (cur cur' : cursor) :
  Matches (Cat r Eol) cur cur' <-> Matches r cur cur' /\ ahead cur' = EmptyString.
Proof.
  split.
  - intros H. inversion H as [| |r1 r2 c0 c1 c2 H1 H2| | | | | | |]; subst.
    inversion H2; subst. now split.
  - intros [H He]. destruct cur' as [i t]. cbn in He. subst t.
    eapply M_Cat; [exact H | apply M_Eol].
Qed.

Lemma matches_cat_assoc (a b c : regex) (cur cur' : cursor) :
  Matches (Cat a (Cat b c)) cur cur' <-> Matches (Cat (Cat a b) c) cur cur'.
Proof.
  split; intros H.
  - inversion H as [| |r1 r2 c0 c1 c2 H1 H2| | | | | | |]; subst.
    inversion H2 as [| |r1 r2 c0 c3 c4 H3 H4| | | | | | |]; subst.
    eapply M_Cat; [eapply M_Cat|]; eassumption.
  - inversion H as [| |r1 r2 c0 c1 c2 H1 H2| | | | | | |]; subst.
    inversion H1 as [| |r1 r2 c0 c3 c4 H3 H4| | | | | | |]; subst.
    eapply M_Cat; [|eapply M_Cat]; eassumption.
Qed.

(** A match of the whole text is a word of the language. *)
Lemma whole_lang (r : regex) (s : string) :
  anchor_free r = true ->
  (exists cur', Matches r (Cursor 0 s) cur' /\ ahead cur' = EmptyString) <-> lang r s.
Proof.
  intros Hfree. split.
  - intros (cur' & Hm & He). apply Matches_lang in Hm as (w & Hw & Ha & _); [|exact Hfree].
    cbn [ahead] in Ha. rewrite He, append_nil_r in Ha. now subst w.
  - intros Hs. exists (Cursor (0 + String.length s) EmptyString). split; [|reflexivity].
    pose proof (lang_Matches r s Hs Hfree 0 EmptyString) as Hm.
    now rewrite append_nil_r in Hm.
Qed.

(** [/^r$/], [/^ab$/] and [/^abc$/] test the whole text. *)
Lemma test_whole (r : regex) (s : string) :
  anchor_free r = true -> test (Cat Bol (Cat r Eol)) s = true <-> lang r s.
Proof.
  intros Hfree. rewrite test_bol, <- (whole_lang r s Hfree).
  split; intros (cur' & H); exists cur'; now apply matches_cat_eol.
Qed.

Lemma test_whole2 (a b : regex) (s : string) :
  anchor_free a = true -> anchor_free b = true ->
  test (Cat Bol (Cat a (Cat b Eol))) s = true <-> lang (Cat a b) s.
Proof.
  intros Ha Hb. rewrite test_bol, <- (whole_lang (Cat a b) s) by (cbn; now rewrite Ha, Hb).
  split; intros (cur' & H); exists cur'.
  - now apply matches_cat_eol, matches_cat_assoc.
  - now apply matches_cat_assoc, matches_cat_eol.
Qed.

Lemma test_whole3 (a b c : regex) (s : string) :
  anchor_free a = true -> anchor_free b = true -> anchor_free c = true ->
  test (Cat Bol (Cat a (Cat b (Cat c Eol)))) s = true <-> lang (Cat a (Cat b c)) s.
Proof.
  intros Ha Hb Hc.
  rewrite test_bol, <- (whole_lang (Cat a (Cat b c)) s) by (cbn; now rewrite Ha, Hb, Hc).
  split; intros (cur' & H); exists cur'.
  - inversion H as [| |r1 r2 c0 c1 c2 H1 H2| | | | | | |]; subst.
    inversion H2 as [| |r1 r2 c0 c3 c4 H3 H4| | | | | | |]; subst.
    apply matches_cat_eol in H4 as [H4 He]. split; [|exact He].
    eapply M_Cat; [exact H1|]. eapply M_Cat; eassumption.
  - destruct H as [H He].
    inversion H as [| |r1 r2 c0 c1 c2 H1 H2| | | | | | |]; subst.
    inversion H2 as [| |r1 r2 c0 c3 c4 H3 H4| | | | | | |]; subst.
    eapply M_Cat; [exact H1|]. eapply M_Cat; [exact H3|]. now apply matches_cat_eol.
Qed.

Lemma lang_cat (a b : regex) (w : string) :
  lang (Cat a b) w <-> exists u v, w = u +:+ v /\ lang a u /\ lang b v.
Proof. reflexivity. Qed.

Lemma lang_opt (r : regex) (w : string) : lang (Opt r) w <-> lang r w \/ w = EmptyString.
Proof. reflexivity. Qed.

Lemma lang_chars (p : ascii -> bool) (w : string) :
  lang (Chars p) w <-> exists c, w = String c EmptyString /\ p c = true.
Proof. reflexivity. Qed.

Lemma lang_times_chars (p : ascii -> bool) (n : nat) :
  forall w, lang (Times n (Chars p)) w <-> Spec.every p w = true /\ String.length w = n.
Proof.
  induction n as [|n IH]; intros w; cbn [Times].
  - cbn [lang]. split; [now intros -> | intros [_ H]; now destruct w].
  - rewrite lang_cat. split.
    + intros (u & v & -> & (c & -> & Hc) & Hv). apply IH in Hv as [Hv Hn].
      rewrite append_cons, append_nil_l. cbn. now rewrite Hc, Hv, Hn.
    + intros [Hw Hn]. destruct w as [|c w]; [discriminate|].
      cbn in Hw, Hn. apply andb_true_iff in Hw as [Hc Hw].
      exists (String c EmptyString), w. split; [reflexivity|].
      split; [now exists c | apply IH; split; [exact Hw | lia]].
Qed.

Lemma lang_upto_chars (p : ascii -> bool) (n : nat) :
  forall w, lang (UpTo n (Chars p)) w <-> Spec.every p w = true /\ (String.length w <= n)%nat.
Proof.
  induction n as [|n IH]; intros w; cbn [UpTo].
  - cbn [lang]. split; [intros ->; now split | intros [_ H]; destruct w; [reflexivity | cbn in H; lia]].
  - rewrite lang_opt, lang_cat. split.
    + intros [(u & v & -> & (c & -> & Hc) & Hv) | ->]; [|split; [reflexivity | cbn; lia]].
      apply IH in Hv as [Hv Hn].
      rewrite append_cons, append_nil_l. cbn. rewrite Hc, Hv. split; [reflexivity | lia].
    + intros [Hw Hn]. destruct w as [|c w]; [now right | left].
      cbn in Hw, Hn. apply andb_true_iff in Hw as [Hc Hw].
      exists (String c EmptyString), w. split; [reflexivity|].
      split; [now exists c | apply IH; split; [exact Hw | lia]].
Qed.

Lemma string_split_at (n : nat) :
  forall w, (n <= String.length w)%nat ->
  exists u v, w = u +:+ v /\ String.length u = n.
Proof.
  induction n as [|n IH]; intros w Hn.
  - now exists EmptyString, w.
  - destruct w as [|c w]; [cbn in Hn; lia|].
    destruct (IH w) as (u & v & -> & Hu); [cbn in Hn; lia|].
    exists (String c u), v. cbn. now rewrite Hu.
Qed.

(** [\d{lo,hi}] as a word: between [lo] and [hi] digits. *)
Lemma lang_digits_between (lo hi : nat) (w : string) :
  (lo <= hi)%nat ->
  lang (Between lo hi (Chars JS.is_digit)) w <-> Shape.digits_between lo hi w = true.
Proof.
  intros Hle. unfold Between, Shape.digits_between. rewrite lang_cat.
  rewrite !andb_true_iff, !Nat.leb_le. split.
  - intros (u & v & -> & Hu & Hv).
    apply lang_times_chars in Hu as [Hu Hn]. apply lang_upto_chars in Hv as [Hv Hm].
    rewrite every_append, Hu, Hv, length_append. repeat split; lia.
  - intros [[Hw Hlo] Hhi].
    destruct (string_split_at lo w Hlo) as (u & v & -> & Hu).
    rewrite every_append in Hw. apply andb_true_iff in Hw as [Hdu Hdv].
    rewrite length_append in Hhi.
    exists u, v. split; [reflexivity|].
    split; [now apply lang_times_chars | apply lang_upto_chars; split; [exact Hdv | lia]].
Qed.

Lemma lang_lit_char (c : ascii) (w : string) :
  lang (Lit (String c EmptyString)) w <-> w = String c EmptyString.
Proof.
  cbn [Lit]. rewrite lang_cat. split.
  - intros (u & v & -> & (x & -> & Hx) & ->).
    unfold JS.char_is in Hx. apply Ascii.eqb_eq in Hx. now subst x.
  - intros ->. exists (String c EmptyString), EmptyString. split; [reflexivity|].
    split; [|reflexivity]. exists c. split; [reflexivity|]. apply Ascii.eqb_refl.
Qed.

(** Some character satisfies [p] exactly when the text holds a non-empty
    run of such characters. *)
Lemma some_run (p : ascii -> bool) (s : string) :
  Shape.some p s = true
  <-> exists pre w post, s = pre +:+ w +:+ post /\ Spec.every p w = true /\ w <> EmptyString.
Proof.
  split.
  - induction s as [|c s IH]; [discriminate|]. cbn [Shape.some].
    destruct (p c) eqn:Hc.
    + intros _. exists EmptyString, (String c EmptyString), s.
      cbn. rewrite Hc. now repeat split.
    + intros H. destruct (IH H) as (pre & w & post & -> & Hw & Hne).
      exists (String c pre), w, post. now repeat split.
  - intros (pre & w & post & -> & Hw & Hne). induction pre as [|c pre IH].
    + destruct w as [|c w]; [congruence|]. cbn in Hw. apply andb_true_iff in Hw as [Hc _].
      rewrite append_nil_l, append_cons. cbn. now rewrite Hc.
    + rewrite append_cons. cbn. rewrite IH. apply orb_true_r.
Qed.

End AnchoredProps.

(** ** Field validator (enhanced pipeline): the format rules *)

Section RuleProps.
Import RegExp.

Lemma false_iff_not (b : bool) (P : Prop) : (b = true <-> P) -> (b = false <-> ~ P).
Proof.
  intros H. destruct b; split; intros H'; try congruence.
  - exfalso. apply H', H. reflexivity.
  - intros HP. apply H in HP. discriminate.
Qed.

Lemma format_warning_iff (v : option json) (ok : string -> bool) (msg : string) :
  In msg (Validator.format_warning v ok msg)
  <-> Json.truthy v = true /\ ok (Json.to_String_opt v) = false.
Proof.
  unfold Validator.format_warning. destruct (Json.truthy v).
  - destruct (ok _); cbn [In]; intuition discriminate.
  - cbn [In]. intuition discriminate.
Qed.

Lemma in_weight_warnings (v : option json) (target : string) :
  In target (Validator.weight_warnings v) ->
  target = Validator.weight_format_msg \/ target = Validator.weight_value_msg.
Proof.
  destruct (weight_warnings_cases v) as [-> | [-> | ->]]; cbn [In]; intuition.
Qed.

(** A warning comes from one of the six rules. *)
Lemma warning_of_rule (extracted : json) (target : string) :
  In target (Validator.warnings (Validator.validateDocument extracted))
  <-> In target (Validator.format_warning (Json.get "invoiceNumber" extracted)
                   (test Validator.invoice_re) Validator.invoice_msg)
      \/ In target (Validator.format_warning (Json.get "hsCode" extracted)
                      (fun s => test Validator.hs_re (JS.remove_all JS.is_space s))
                      Validator.hs_msg)
      \/ In target (Validator.format_warning (Json.get "containerNo" extracted)
                      (fun s => test Validator.container_re (JS.remove_all JS.is_space s))
                      Validator.container_msg)
      \/ In target (Validator.weight_warnings (Json.get "weight" extracted))
      \/ In target (Validator.format_warning (Json.get "inspectionDate" extracted)
                      (test Validator.date_re) Validator.date_msg)
      \/ In target (Validator.format_warning (Json.get "quantityDeclared" extracted)
                      (test Validator.quantity_re) Validator.quantity_msg).
Proof. unfold Validator.validateDocument. cbn [Validator.warnings]. rewrite !in_app_iff. tauto. Qed.

(** The other rules do not speak the message of a rule. *)
Ltac other_rules :=
  match goal with
  | H : In _ (Validator.format_warning _ _ _) |- _ =>
      apply in_format_warning in H; vm_compute in H; discriminate
  | H : In _ (Validator.weight_warnings _) |- _ =>
      apply in_weight_warnings in H as [H | H]; vm_compute in H; discriminate
  end.

Lemma invoice_re_shape (s : string) :
  test Validator.invoice_re s = true <-> Shape.invoice_number s.
Proof.
  unfold Validator.invoice_re. rewrite test_whole3 by reflexivity.
  rewrite lang_cat. unfold Shape.invoice_number. split.
  - intros (prefix & v & -> & Hprefix & Hv).
    apply lang_cat in Hv as (dash & digits & -> & Hdash & Hdigits).
    exists prefix, dash, digits. split; [reflexivity|].
    apply lang_digits_between in Hdigits; [|lia].
    split; [|split; [|exact Hdigits]].
    + apply lang_opt in Hprefix as [Hprefix | ->]; [|now left].
      cbn [lang] in Hprefix. fold (lang (LitCI "INV") prefix) in Hprefix.
      fold (lang (LitCI "INVOICE") prefix) in Hprefix.
      fold (lang (LitCI "#") prefix) in Hprefix.
      rewrite !lang_LitCI in Hprefix. cbn [In].
      change (Spec.lower "INV") with "inv" in Hprefix.
      change (Spec.lower "INVOICE") with "invoice" in Hprefix.
      change (Spec.lower "#") with "#" in Hprefix.
      intuition.
    + apply lang_opt in Hdash as [Hdash | ->]; [|now left].
      apply lang_lit_char in Hdash. now right.
  - intros (prefix & dash & digits & -> & Hprefix & Hdash & Hdigits).
    exists prefix, (dash +:+ digits). split; [reflexivity|]. split.
    + apply lang_opt. cbn [In] in Hprefix.
      destruct Hprefix as [H | Hprefix].
      * right. destruct prefix; [reflexivity | discriminate].
      * left. cbn [lang]. fold (lang (LitCI "INV") prefix).
        fold (lang (LitCI "INVOICE") prefix). fold (lang (LitCI "#") prefix).
        rewrite !lang_LitCI.
        change (Spec.lower "INV") with "inv". change (Spec.lower "INVOICE") with "invoice".
        change (Spec.lower "#") with "#".
        intuition.
    + apply lang_cat. exists dash, digits. split; [reflexivity|].
      split; [|apply lang_digits_between; [lia | exact Hdigits]].
      apply lang_opt. destruct Hdash as [-> | ->]; [now right | left].
      now apply lang_lit_char.
Qed.

Lemma hs_re_shape (s : string) : test Validator.hs_re s = Shape.digits_between 6 10 s.
Proof.
  apply eq_true_iff_eq. unfold Validator.hs_re. rewrite test_whole by reflexivity.
  apply lang_digits_between. lia.
Qed.

Lemma container_re_shape (s : string) :
  test Validator.container_re s = true <-> Shape.container_number s.
Proof.
  unfold Validator.container_re. rewrite test_whole2 by reflexivity.
  rewrite lang_cat. unfold Shape.container_number.
  split; intros (letters & digits & -> & H1 & H2); exists letters, digits.
  - apply lang_times_chars in H1 as [? ?]. apply lang_times_chars in H2 as [? ?].
    now repeat split.
  - destruct H2 as (? & ? & ?). split; [reflexivity|].
    split; apply lang_times_chars; now split.
Qed.

Lemma quantity_re_shape (s : string) :
  test Validator.quantity_re s = Shape.some JS.is_digit s.
Proof.
  apply eq_true_iff_eq. unfold Validator.quantity_re.
  rewrite test_unanchored by reflexivity. rewrite some_run.
  split; intros (pre & w & post & -> & H); exists pre, w, post; (split; [reflexivity|]);
    now apply lang_plus_chars.
Qed.

Lemma date_re_shape (s : string) : test Validator.date_re s = true <-> Shape.holds_date s.
Proof.
  unfold Validator.date_re. rewrite test_unanchored by reflexivity.
  unfold Shape.holds_date. split.
  - intros (pre & w & post & -> & Hw).
    apply lang_cat in Hw as (d1 & w1 & -> & Hd1 & Hw).
    apply lang_cat in Hw as (x & w2 & -> & (sep1 & -> & Hsep1) & Hw).
    apply lang_cat in Hw as (d2 & w3 & -> & Hd2 & Hw).
    apply lang_cat in Hw as (y & d3 & -> & (sep2 & -> & Hsep2) & Hd3).
    apply lang_digits_between in Hd1, Hd2, Hd3; try lia.
    exists pre, d1, sep1, d2, sep2, d3, post. split; [|now repeat split].
    repeat (progress rewrite ?append_assoc, ?append_cons, ?append_nil_l). reflexivity.
  - intros (pre & d1 & sep1 & d2 & sep2 & d3 & post & -> & Hd1 & Hsep1 & Hd2 & Hsep2 & Hd3).
    exists pre, (d1 +:+ String sep1 EmptyString +:+ d2 +:+ String sep2 EmptyString +:+ d3), post.
    split.
    + repeat (progress rewrite ?append_assoc, ?append_cons, ?append_nil_l). reflexivity.
    + apply lang_cat. exists d1, (String sep1 EmptyString +:+ d2 +:+ String sep2 EmptyString +:+ d3).
      split; [reflexivity|]. split; [apply lang_digits_between; [lia | exact Hd1]|].
      apply lang_cat. exists (String sep1 EmptyString), (d2 +:+ String sep2 EmptyString +:+ d3).
      split; [reflexivity|]. split; [now exists sep1|].
      apply lang_cat. exists d2, (String sep2 EmptyString +:+ d3).
      split; [reflexivity|]. split; [apply lang_digits_between; [lia | exact Hd2]|].
      apply lang_cat. exists (String sep2 EmptyString), d3.
      split; [reflexivity|]. split; [now exists sep2|].
      apply lang_digits_between; [lia | exact Hd3].
Qed.

(** X4: the HS-code warning is raised exactly when the field is truthy and
    its text, white space removed, is not a run of six to ten digits. *)
Theorem hs_code_rule (extracted : json) :
  In Validator.hs_msg (Validator.warnings (Validator.validateDocument extracted))
  <-> Json.truthy (Json.get "hsCode" extracted) = true
      /\ Shape.digits_between 6 10
           (JS.remove_all JS.is_space (Json.to_String_opt (Json.get "hsCode" extracted)))
         = false.
Proof.
  rewrite warning_of_rule, <- hs_re_shape.
  rewrite <- (format_warning_iff _
                (fun s => test Validator.hs_re (JS.remove_all JS.is_space s)) Validator.hs_msg).
  split; [|tauto]. intros [H | [H | [H | [H | [H | H]]]]]; try exact H; other_rules.
Qed.

(** X5: the container-number warning is raised exactly when the field is
    truthy and its text, white space removed, is not four letters followed
    by seven digits. *)
Theorem container_number_rule (extracted : json) :
  In Validator.container_msg (Validator.warnings (Validator.validateDocument extracted))
  <-> Json.truthy (Json.get "containerNo" extracted) = true
      /\ ~ Shape.container_number
             (JS.remove_all JS.is_space (Json.to_String_opt (Json.get "containerNo" extracted))).
Proof.
  rewrite warning_of_rule.
  rewrite <- (false_iff_not _ _ (container_re_shape _)).
  rewrite <- (format_warning_iff _
                (fun s => test Validator.container_re (JS.remove_all JS.is_space s))
                Validator.container_msg).
  split; [|tauto]. intros [H | [H | [H | [H | [H | H]]]]]; try exact H; other_rules.
Qed.

(** X6: the invoice-number warning is raised exactly when the field is
    truthy and its text is not an optional INV, INVOICE or #, an optional
    dash and three to ten digits, with nothing before or after. *)
Theorem invoice_number_rule (extracted : json) :
  In Validator.invoice_msg (Validator.warnings (Validator.validateDocument extracted))
  <-> Json.truthy (Json.get "invoiceNumber" extracted) = true
      /\ ~ Shape.invoice_number (Json.to_String_opt (Json.get "invoiceNumber" extracted)).
Proof.
  rewrite warning_of_rule.
  rewrite <- (false_iff_not _ _ (invoice_re_shape _)).
  rewrite <- (format_warning_iff _ (test Validator.invoice_re) Validator.invoice_msg).
  split; [|tauto]. intros [H | [H | [H | [H | [H | H]]]]]; try exact H; other_rules.
Qed.

(** X7: the quantity warning is raised exactly when the field is truthy
    and its text holds no digit. *)
Theorem quantity_rule (extracted : json) :
  In Validator.quantity_msg (Validator.warnings (Validator.validateDocument extracted))
  <-> Json.truthy (Json.get "quantityDeclared" extracted) = true
      /\ Shape.some JS.is_digit (Json.to_String_opt (Json.get "quantityDeclared" extracted))
         = false.
Proof.
  rewrite warning_of_rule, <- quantity_re_shape.
  rewrite <- (format_warning_iff _ (test Validator.quantity_re) Validator.quantity_msg).
  split; [|tauto]. intros [H | [H | [H | [H | [H | H]]]]]; try exact H; other_rules.
Qed.

(** X8: the inspection-date warning is raised exactly when the field is
    truthy and its text nowhere holds one or two digits, a dash or slash,
    one or two digits, a dash or slash and two to four digits. *)
Theorem inspection_date_rule (extracted : json) :
  In Validator.date_msg (Validator.warnings (Validator.validateDocument extracted))
  <-> Json.truthy (Json.get "inspectionDate" extracted) = true
      /\ ~ Shape.holds_date (Json.to_String_opt (Json.get "inspectionDate" extracted)).
Proof.
  rewrite warning_of_rule.
  rewrite <- (false_iff_not _ _ (date_re_shape _)).
  rewrite <- (format_warning_iff _ (test Validator.date_re) Validator.date_msg).
  split; [|tauto]. intros [H | [H | [H | [H | [H | H]]]]]; try exact H; other_rules.
Qed.

Lemma format_warning_sublist (v : option json) (ok : string -> bool) (msg : string) :
  sublist (Validator.format_warning v ok msg) [msg].
Proof.
  unfold Validator.format_warning. destruct (Json.truthy v); [|apply sublist_nil_l].
  destruct (ok _); [apply sublist_nil_l | reflexivity].
Qed.

(** X9: each rule warns at most once and the warnings come in the order
    of the rules: the warning list is a sublist of the seven messages, and
    since the two weight messages exclude each other it has six entries at
    most. *)
Theorem warnings_in_rule_order (extracted : json) :
  sublist (Validator.warnings (Validator.validateDocument extracted)) Shape.all_warnings
  /\ (List.length (Validator.warnings (Validator.validateDocument extracted)) <= 6)%nat.
Proof.
  unfold Validator.validateDocument. cbn [Validator.warnings].
  set (a := Validator.format_warning (Json.get "invoiceNumber" extracted) _ _).
  set (b := Validator.format_warning (Json.get "hsCode" extracted) _ _).
  set (c := Validator.format_warning (Json.get "containerNo" extracted) _ _).
  set (w := Validator.weight_warnings _).
  set (d := Validator.format_warning (Json.get "inspectionDate" extracted) _ _).
  set (q := Validator.format_warning (Json.get "quantityDeclared" extracted) _ _).
  assert (Ha : sublist a [Validator.invoice_msg]) by apply format_warning_sublist.
  assert (Hb : sublist b [Validator.hs_msg]) by apply format_warning_sublist.
  assert (Hc : sublist c [Validator.container_msg]) by apply format_warning_sublist.
  assert (Hd : sublist d [Validator.date_msg]) by apply format_warning_sublist.
  assert (Hq : sublist q [Validator.quantity_msg]) by apply format_warning_sublist.
  assert (Hw : sublist w [Validator.weight_format_msg; Validator.weight_value_msg]
               /\ (List.length w <= 1)%nat).
  { subst w. destruct (weight_warnings_cases (Json.get "weight" extracted)) as [-> | [-> | ->]].
    - split; [apply sublist_nil_l | cbn; lia].
    - split; [apply sublist_skip, sublist_nil_l | cbn; lia].
    - split; [apply sublist_cons, sublist_skip, sublist_nil_l | cbn; lia]. }
  destruct Hw as [Hw Hw1]. split.
  - change Shape.all_warnings
      with ([Validator.invoice_msg] ++ [Validator.hs_msg] ++ [Validator.container_msg]
            ++ [Validator.weight_format_msg; Validator.weight_value_msg]
            ++ [Validator.date_msg] ++ [Validator.quantity_msg]).
    repeat apply sublist_app; assumption.
  - apply sublist_length in Ha, Hb, Hc, Hd, Hq. rewrite !length_app.
    cbn [List.length] in *. lia.
Qed.

End RuleProps.

(** ** OCR and layout stages (enhanced pipeline) *)

Lemma map_indexed_map {A B C : Type} (f : nat -> A -> B) (g : B -> C) (l : list A) :
  forall i, map g (Layout.map_indexed f i l) = Layout.map_indexed (fun k x => g (f k x)) i l.
Proof.
  induction l as [|x l IH]; intros i; [reflexivity|]. cbn. now rewrite IH.
Qed.

Lemma map_indexed_plain {A B : Type} (h : A -> B) (l : list A) :
  forall i, Layout.map_indexed (fun _ x => h x) i l = map h l.
Proof.
  induction l as [|x l IH]; intros i; [reflexivity|]. cbn. now rewrite IH.
Qed.

Lemma map_indexed_seq {A B : Type} (h : nat -> B) (l : list A) :
  forall i, Layout.map_indexed (fun k _ => h k) i l = map h (seq i (List.length l)).
Proof.
  induction l as [|x l IH]; intros i; [reflexivity|]. cbn. now rewrite IH.
Qed.

Lemma map_indexed_Forall {A B : Type} (f : nat -> A -> B) (Q : B -> Prop) (l : list A) :
  (forall k x, In x l -> Q (f k x)) ->
  forall i, Forall Q (Layout.map_indexed f i l).
Proof.
  induction l as [|x l IH]; intros H i; [constructor|]. cbn.
  constructor; [apply H; now left | apply IH; intros k y Hy; apply H; now right].
Qed.

Lemma NoDup_map_injective {A B : Type} (f : A -> B) (l : list A) :
  (forall x y, f x = f y -> x = y) -> NoDup l -> NoDup (map f l).
Proof.
  intros Hf. induction 1 as [|x l Hx Hl IH]; cbn; constructor; [|exact IH].
  rewrite in_map_iff. intros (y & Hy & Hin). apply Hf in Hy. now subst y.
Qed.

(** The box of the block of a line tells the number of the line. *)
Lemma ocr_box_injective (i j : nat) (a b : string) :
  Layout.block_bbox (Layout.ocr_block i a) = Layout.block_bbox (Layout.ocr_block j b) -> i = j.
Proof.
  unfold Layout.ocr_block, Layout.block_bbox. intros H.
  assert (Hcol : 10 + Z.of_nat (i mod 3) * 200 = 10 + Z.of_nat (j mod 3) * 200)
    by congruence.
  assert (Hrow : 50 + Z.of_nat (i / 3) * 30 = 50 + Z.of_nat (j / 3) * 30)
    by congruence.
  clear H.
  assert (Hc : (i mod 3 = j mod 3)%nat) by lia.
  assert (Hr : (i / 3 = j / 3)%nat) by lia.
  rewrite (Nat.div_mod_eq i 3), (Nat.div_mod_eq j 3). now rewrite Hc, Hr.
Qed.

(** X10: [performOCR] makes one block per non-blank line, in the order of
    the lines; the text of a block is the trimmed line and is never empty;
    no two blocks have the same bounding box; the text of the result is the
    content. *)
Theorem performOCR_blocks (content : string) :
  let blocks := Layout.blocks (Layout.performOCR content) in
  Layout.ocr_text (Layout.performOCR content) = content
  /\ map Layout.block_text blocks = map JS.trim (Layout.lines_of content)
  /\ Forall (fun b => Layout.block_text b <> EmptyString) blocks
  /\ NoDup (map Layout.block_bbox blocks).
Proof.
  intros blocks. subst blocks. cbn [Layout.performOCR Layout.blocks Layout.ocr_text].
  split; [reflexivity|]. split; [|split].
  - rewrite map_indexed_map. cbn [Layout.ocr_block Layout.block_text].
    apply map_indexed_plain.
  - apply map_indexed_Forall. intros k line Hline. cbn [Layout.ocr_block Layout.block_text].
    apply filter_In in Hline as [_ Hne]. now apply nonempty_true.
  - rewrite map_indexed_map.
    rewrite (map_indexed_seq (fun k => Layout.block_bbox (Layout.ocr_block k EmptyString))).
    apply NoDup_map_injective; [|apply seq_NoDup].
    intros i j. apply ocr_box_injective.
Qed.

(** *** Lines with a colon *)

Lemma split_not_nil (c : ascii) (s : string) : JS.split c s <> [].
Proof.
  induction s as [|x s IH]; [discriminate|]. cbn [JS.split].
  destruct (Ascii.eqb x c); [discriminate|]. now destruct (JS.split c s).
Qed.

(** Joining the pieces of a split with the separator gives the text
    back. *)
Lemma join_split (c : ascii) (s : string) :
  JS.join (String c EmptyString) (JS.split c s) = s.
Proof.
  induction s as [|x s IH]; [reflexivity|]. cbn [JS.split].
  pose proof (split_not_nil c s) as Hne.
  destruct (Ascii.eqb x c) eqn:Hx.
  - apply Ascii.eqb_eq in Hx. subst x.
    destruct (JS.split c s) as [|p ps]; [congruence|].
    rewrite join_cons2, IH. reflexivity.
  - destruct (JS.split c s) as [|p ps]; [congruence|].
    destruct ps as [|p' ps].
    + cbn in IH |- *. now rewrite IH.
    + rewrite join_cons2 in IH. rewrite join_cons2, append_cons. now rewrite IH.
Qed.

(** The first piece of a split is the text before the first separator; the
    other pieces are the split of the text after it. *)
Lemma split_at_first (c : ascii) (s : string) :
  JS.includes c s = true ->
  JS.split c s = Shape.before c s :: JS.split c (Shape.after c s).
Proof.
  induction s as [|x s IH]; [discriminate|].
  cbn [JS.includes JS.split Shape.before Shape.after].
  destruct (Ascii.eqb x c); [reflexivity|]. cbn [orb]. intros H.
  now rewrite (IH H).
Qed.

Lemma classify_line (line : string) :
  Layout.classify line
  = if JS.includes "|" line then Layout.TableRow (map JS.trim (JS.split "|" line))
    else if JS.includes ":" line then Layout.KeyValueLine (Shape.pair_at_colon line)
         else Layout.PlainLine.
Proof.
  unfold Layout.classify.
  destruct (JS.includes "|" line); [now rewrite andb_false_r|]. rewrite andb_true_r.
  destruct (JS.includes ":" line) eqn:Hcolon; [|reflexivity].
  rewrite (split_at_first ":" line Hcolon). unfold Shape.pair_at_colon.
  now rewrite join_split.
Qed.

(** X11: the key-value pairs of [parseLayout] are made of the non-blank
    lines that hold a ':' and no '|', one pair per line in the order of the
    lines; the key is the trimmed text before the first colon and the value
    the trimmed text after it, further colons included. *)
Theorem parseLayout_pairs (ocrResult : Layout.OCRResult) :
  Layout.keyValuePairs (Layout.structure (Layout.parseLayout ocrResult))
  = map Shape.pair_at_colon
      (List.filter (fun line => JS.includes ":" line && negb (JS.includes "|" line))
                   (Layout.lines_of (Layout.ocr_text ocrResult))).
Proof.
  unfold Layout.parseLayout, Layout.scan. rewrite scan_step_flat.
  cbn [Layout.structure Layout.keyValuePairs app].
  induction (Layout.lines_of (Layout.ocr_text ocrResult)) as [|line lines IH]; [reflexivity|].
  cbn [flat_map List.filter]. rewrite IH. unfold Spec.pair_of. rewrite classify_line.
  destruct (JS.includes "|" line); [now rewrite andb_false_r|].
  destruct (JS.includes ":" line); reflexivity.
Qed.

(** A time of day keeps its colon in the value. *)
Example pair_with_second_colon :
  Layout.classify "Departure : 10:30 " = Layout.KeyValueLine
    {| Layout.key := "Departure"; Layout.value := "10:30"; Layout.kv_bbox := [50; 100; 300; 120] |}.
Proof. reflexivity. Qed.

(** ** Storage stage (enhanced pipeline) *)

Lemma map_indexed_length {A B : Type} (f : nat -> A -> B) (l : list A) :
  forall i, List.length (Layout.map_indexed f i l) = List.length l.
Proof.
  induction l as [|x l IH]; intros i; [reflexivity|]. cbn. now rewrite IH.
Qed.

Lemma nth_error_map_indexed {A B : Type} (f : nat -> A -> B) (l : list A) :
  forall k i, nth_error (Layout.map_indexed f k l) i = option_map (f (k + i)%nat) (nth_error l i).
Proof.
  induction l as [|x l IH]; intros k [|i]; cbn; try reflexivity.
  - now rewrite Nat.add_0_r.
  - rewrite IH. now rewrite Nat.add_succ_r.
Qed.

(** X12: [storeChunksInVectorDB] sends one point per chunk, whatever the
    number of embeddings: the points carry the chunks in order and their
    index, and the vector of the point at an index is the embedding at that
    index when there is one and it is truthy, and the empty vector
    otherwise. *)
Theorem points_of_chunks (chunks : list string) (embeddings : list (option json)) :
  map Enhanced.point_text (Enhanced.points_of chunks embeddings) = chunks
  /\ map Enhanced.chunk_index (Enhanced.points_of chunks embeddings)
     = seq 0 (List.length chunks)
  /\ forall i p,
       nth_error (Enhanced.points_of chunks embeddings) i = Some p ->
       (forall v, nth_error embeddings i = Some (Some v) -> Json.truthy (Some v) = true ->
                  Enhanced.vector p = v)
       /\ (forall v, nth_error embeddings i = Some (Some v) -> Json.truthy (Some v) = false ->
                     Enhanced.vector p = JArr [])
       /\ (nth_error embeddings i = Some None -> Enhanced.vector p = JArr [])
       /\ ((List.length embeddings <= i)%nat -> Enhanced.vector p = JArr []).
Proof.
  unfold Enhanced.points_of. split; [|split].
  - rewrite map_indexed_map. cbn [Enhanced.point_text].
    rewrite map_indexed_plain. apply map_id.
  - rewrite map_indexed_map. cbn [Enhanced.chunk_index].
    rewrite (map_indexed_seq (fun k => k)). apply map_id.
  - intros i p. rewrite nth_error_map_indexed. cbn [Nat.add].
    destruct (nth_error chunks i) as [chunk|]; [|discriminate].
    intros [= <-]. cbn [Enhanced.vector]. unfold Enhanced.vector_at, Enhanced.or_else.
    split; [|split; [|split]].
    + intros v -> Hv. now rewrite Hv.
    + intros v -> Hv. now rewrite Hv.
    + now intros ->.
    + intros Hi. now rewrite (proj2 (nth_error_None embeddings i) Hi).
Qed.

(** ** Word chunker (process-documents) *)

Section WordChunker.
Import ProcessDocuments.

Lemma join_cons_nonempty (sep x : string) (l : list string) :
  l <> [] -> JS.join sep (x :: l) = x +:+ sep +:+ JS.join sep l.
Proof. destruct l; [congruence | reflexivity]. Qed.

(** Two neighbours joined by the separator count as joined. *)
Lemma join_merge (sep x y : string) (a b : list string) :
  JS.join sep (a ++ (x +:+ sep +:+ y) :: b) = JS.join sep (a ++ x :: y :: b).
Proof.
  induction a as [|z a IH].
  - cbn [app]. rewrite (join_cons2 sep x y b). destruct b as [|b0 b]; [reflexivity|].
    rewrite !join_cons2. now rewrite !append_assoc.
  - cbn [app]. rewrite !join_cons_nonempty by (destruct a; discriminate). now rewrite IH.
Qed.

(** With no empty word, the loop keeps the words read so far: joined by
    spaces, the chunks pushed and the open chunk give them back. *)
Lemma word_step_joined (maxChunkSize : Z) (l : list string) :
  Forall (fun w => w <> EmptyString) l ->
  forall chunks cur,
    cur <> EmptyString ->
    exists chunks' cur',
      fold_left (word_step maxChunkSize) l (chunks, cur) = (chunks', cur')
      /\ cur' <> EmptyString
      /\ JS.join " " (chunks' ++ [cur']) = JS.join " " (chunks ++ cur :: l).
Proof.
  induction 1 as [|w l Hw Hl IH]; intros chunks cur Hcur.
  - now exists chunks, cur.
  - cbn [fold_left word_step].
    assert (Hne : JS.nonempty cur = true) by now apply nonempty_true.
    rewrite Hne.
    destruct (JS.len cur + JS.len w + 1 <=? maxChunkSize).
    + destruct (IH chunks (cur ++ " " ++ w)%string) as (chunks' & cur' & Hfold & Hcur' & Hjoin).
      { destruct cur; [congruence | discriminate]. }
      exists chunks', cur'. split; [exact Hfold|]. split; [exact Hcur'|].
      rewrite Hjoin. apply join_merge.
    + destruct (IH (chunks ++ [cur]) w Hw) as (chunks' & cur' & Hfold & Hcur' & Hjoin).
      exists chunks', cur'. split; [exact Hfold|]. split; [exact Hcur'|].
      rewrite Hjoin. now rewrite <- app_assoc.
Qed.

(** X13: when the text has no empty word (no space at either end and no
    two spaces in a row), the chunks of the word chunker joined by single
    spaces give the text back, whatever the maximum. *)
Theorem word_chunks_rejoin (text : string) (maxChunkSize : Z) :
  Forall (fun w => w <> EmptyString) (JS.split " " text) ->
  JS.join " " (chunkText text maxChunkSize) = text.
Proof.
  intros Hwords. unfold chunkText.
  pose proof (join_split " " text) as Hback.
  destruct (JS.split " " text) as [|w l] eqn:Hsplit; [now apply split_not_nil in Hsplit|].
  apply Forall_cons_iff in Hwords as [Hw Hl].
  assert (Hfirst : word_step maxChunkSize ([], EmptyString) w = ([], w)).
  { cbn [word_step JS.nonempty]. destruct (_ <=? _); now rewrite ?append_nil_l. }
  cbn [fold_left]. rewrite Hfirst.
  destruct (word_step_joined maxChunkSize l Hl [] w Hw) as (chunks & cur & -> & Hcur & Hjoin).
  apply nonempty_true in Hcur. rewrite Hcur, Hjoin. exact Hback.
Qed.

Lemma word_chunks_rejoin_witness :
  JS.join " " (chunkText "Forty crates of lamps from Acme" 12)
  = "Forty crates of lamps from Acme"
  /\ chunkText "Forty crates of lamps from Acme" 12 = ["Forty crates"; "of lamps"; "from Acme"].
Proof.
  split; [|vm_compute; reflexivity].
  apply (word_chunks_rejoin "Forty crates of lamps from Acme" 12).
  vm_compute. repeat (constructor; [discriminate|]). constructor.
Defined.

(** A space at the start of the text is lost. *)
Example word_chunks_leading_space :
  chunkText " Forty crates" 500 = ["Forty crates"].
Proof. vm_compute. reflexivity. Qed.

Lemma word_step_bounded (maxChunkSize : Z) (words l : list string) :
  incl l words ->
  forall chunks cur,
    Forall (Shape.bounded_word_chunk maxChunkSize words) chunks ->
    cur = EmptyString \/ Shape.bounded_word_chunk maxChunkSize words cur ->
    Forall (Shape.bounded_word_chunk maxChunkSize words)
           (fst (fold_left (word_step maxChunkSize) l (chunks, cur)))
    /\ (snd (fold_left (word_step maxChunkSize) l (chunks, cur)) = EmptyString
        \/ Shape.bounded_word_chunk maxChunkSize words
             (snd (fold_left (word_step maxChunkSize) l (chunks, cur)))).
Proof.
  induction l as [|w l IH]; intros Hincl chunks cur Hchunks Hcur; [now split|].
  assert (Hw : In w words) by (apply Hincl; now left).
  assert (Hl : incl l words) by (intros x Hx; apply Hincl; now right).
  cbn [fold_left]. unfold word_step at 2 4 6.
  destruct (JS.len cur + JS.len w + 1 <=? maxChunkSize) eqn:Hfit.
  - apply (IH Hl); [exact Hchunks|]. apply Z.leb_le in Hfit.
    destruct (JS.nonempty cur) eqn:Hne.
    + right. split; [destruct cur; [discriminate Hne | discriminate]|].
      left. rewrite !len_append. change (JS.len " ") with 1. lia.
    + apply nonempty_false in Hne. subst cur. rewrite !append_nil_l.
      destruct w as [|c w]; [now left | right].
      split; [discriminate|]. now right.
  - destruct (JS.nonempty cur) eqn:Hne.
    + apply nonempty_true in Hne. destruct Hcur as [-> | Hcur]; [congruence|].
      apply (IH Hl).
      * apply Forall_app. split; [exact Hchunks|]. constructor; [exact Hcur | constructor].
      * destruct w as [|c w]; [now left | right]. split; [discriminate | now right].
    + apply (IH Hl); [exact Hchunks|].
      destruct w as [|c w]; [now left | right]. split; [discriminate | now right].
Qed.

(** X14: no chunk of the word chunker is empty, and every chunk is within
    the maximum unless it is a single word of the text: the size test counts
    the space it inserts. *)
Theorem word_chunks_bounded (text : string) (maxChunkSize : Z) :
  Forall (Shape.bounded_word_chunk maxChunkSize (JS.split " " text))
         (chunkText text maxChunkSize).
Proof.
  unfold chunkText.
  destruct (word_step_bounded maxChunkSize (JS.split " " text) (JS.split " " text)
              (incl_refl _) [] EmptyString) as [Hchunks Hcur];
    [constructor | now left |].
  destruct (fold_left _ _ _) as [chunks cur]. cbn [fst snd] in *.
  destruct (JS.nonempty cur) eqn:Hne; [|exact Hchunks].
  apply nonempty_true in Hne. destruct Hcur as [-> | Hcur]; [congruence|].
  apply Forall_app. split; [exact Hchunks|]. constructor; [exact Hcur | constructor].
Qed.

End WordChunker.

(** ** process-documents: the handler and the job store *)

(** Symbolic execution of the handler, one case per outcome of each
    step. *)
Ltac run_step :=
  match goal with
  | |- context [ProcessDocuments.store_entities ?d ?j ?w] =>
      let r := fresh "r" in
      let es := fresh "es" in
      let H := fresh "H" in
      destruct (store_entities_frame d j w) as (r & es & H); rewrite H; clear H; destruct r
  | |- context [match Http.payload ?r with _ => _ end] => destruct (Http.payload r) eqn:?
  | |- context [match Http.parse ?P ?t with _ => _ end] =>
      destruct (Http.parse P t) as [[]|] eqn:?
  | |- context [if Json.truthy ?v then _ else _] => destruct (Json.truthy v) eqn:?
  | |- context [if negb (Json.truthy ?v) && _ then _ else _] => destruct (Json.truthy v) eqn:?
  | |- context [if negb (Json.truthy ?v) then _ else _] => destruct (Json.truthy v) eqn:?
  | |- context [match ?m !! ?k with _ => _ end] => destruct (m !! k) eqn:?
  | |- context [match ProcessDocuments.performOCR ?c with _ => _ end] =>
      destruct (ProcessDocuments.performOCR c) eqn:?
  | |- context [match ProcessDocuments.extractStructuredData ?P ?E ?l with _ => _ end] =>
      destruct (ProcessDocuments.extractStructuredData P E l) eqn:?
  | |- context [match ProcessDocuments.generateEmbeddings ?P ?E ?l with _ => _ end] =>
      destruct (ProcessDocuments.generateEmbeddings P E l) eqn:?
  | |- context [match ProcessDocuments.storeInQdrant ?E ?a ?b ?c with _ => _ end] =>
      destruct (ProcessDocuments.storeInQdrant E a b c) as [[]|] eqn:?
  end.

Ltac run_cbn :=
  cbn -[ProcessDocuments.performOCR ProcessDocuments.extractStructuredData
        ProcessDocuments.generateEmbeddings ProcessDocuments.storeInQdrant
        ProcessDocuments.store_entities alter ProcessDocuments.progress_written lookup].

Ltac run_unfold :=
  unfold ProcessDocuments.handle, ProcessDocuments.on_error, ProcessDocuments.read_json,
    ProcessDocuments.clone, ProcessDocuments.arrival, ProcessDocuments.when_job,
    ProcessDocuments.select_job, ProcessDocuments.update_job;
  unfold mbind, ProcessDocuments.M_bind, mret, ProcessDocuments.M_ret,
    ProcessDocuments.lift, ProcessDocuments.required;
  unfold Http.req_json_or_empty, Http.req_json.

Ltac run_handler := run_unfold; repeat (run_step; run_cbn).

Section HandlerProps.
Import ProcessDocuments.

(** X15: whatever the request and whatever the services answer, the
    progress values written to a job during one call are, in this order,
    some of 10, 30, 50, 70, 90, 100: each at most once, and never a smaller
    value after a larger one. *)
Theorem progress_written_in_order (P : Platform) (E : Services) (req : Request)
    (jobs : gmap string Job) (id : string) :
  sublist (progress_written id (snd (serve P E req (arrival jobs)))) [10; 30; 50; 70; 90; 100].
Proof.
  unfold serve.
  destruct (String.eqb _ "OPTIONS"); [apply sublist_nil_l|].
  destruct (negb _); [apply sublist_nil_l|].
  run_handler.
  all: cbn; try apply sublist_nil_l.
  all: destruct (String.eqb _ id); cbn.
  all: repeat first [apply sublist_nil_l | apply sublist_skip | apply sublist_cons].
Qed.

(** X16: no call ever marks a job failed or records an error message.  A
    request with a body cannot be cloned once the [try] block has read it, so
    the [catch] block throws before its update; a request without a body has
    no job id to update. *)
Theorem job_never_marked_failed (P : Platform) (E : Services) (req : Request)
    (jobs : gmap string Job) :
  Forall (fun u : string * Patch =>
            to_status (snd u) <> Some job_failed /\ to_error_message (snd u) = None)
         (updates (snd (serve P E req (arrival jobs)))).
Proof.
  unfold serve.
  destruct (String.eqb _ "OPTIONS"); [constructor|].
  destruct (negb _); [constructor|].
  run_handler.
  all: cbn; repeat constructor; discriminate.
Qed.

Lemma lookup_alter_document (p : Patch) (k id : string) (m : gmap string Job) :
  document_id <$> (alter (patch p) k m !! id) = document_id <$> (m !! id).
Proof.
  destruct (decide (k = id)) as [-> | Hne].
  - rewrite lookup_alter_eq. now destruct (m !! id).
  - now rewrite lookup_alter_ne.
Qed.

(** X17: a call neither adds nor removes a row of [processing_jobs], and
    it never changes the document a job belongs to. *)
Theorem job_rows_keep_document (P : Platform) (E : Services) (req : Request)
    (jobs : gmap string Job) (id : string) :
  document_id <$> (processing_jobs (snd (serve P E req (arrival jobs))) !! id)
  = document_id <$> (jobs !! id).
Proof.
  unfold serve.
  destruct (String.eqb _ "OPTIONS"); [reflexivity|].
  destruct (negb _); [reflexivity|].
  run_handler.
  all: cbn -[alter lookup]; rewrite ?lookup_alter_document; reflexivity.
Qed.

End HandlerProps.

(** ** process-documents: what a call does to the job store *)

Section JobStoreProps.
Import ProcessDocuments.

Lemma alter_absent (f : Job -> Job) (k : string) (m : gmap string Job) :
  m !! k = None -> alter f k m = m.
Proof.
  intros Hk. apply map_eq. intros i. destruct (decide (k = i)) as [-> | Hne].
  - rewrite lookup_alter_eq, Hk. reflexivity.
  - now rewrite lookup_alter_ne.
Qed.

Lemma store_entities_no_job (d : json) (w : World) :
  exists r, store_entities d None w = (r, w).
Proof.
  unfold store_entities, mbind, M_bind, lift, required.
  destruct d; cbn; eexists; reflexivity.
Qed.

(** X18: a POST whose JSON body is not [null] and names neither a document
    content nor a file path is refused with the 400 reply before any stage
    runs: no job is looked up or updated and no entity is stored.  A POST
    whose body is the JSON text null is not answered by the handler: reading
    its fields throws, the [catch] block cannot clone the request, and the
    handler itself throws; the tables stay as they were. *)
Theorem missing_input_refused (P : Platform) (E : Services) (req : Request)
    (jobs : gmap string Job) (body : json) :
  Http.method req = "POST" ->
  Http.req_json P req = Ok body ->
  (body <> JNull ->
   Json.truthy (Json.get "document_content" body) = false ->
   Json.truthy (Json.get "file_path" body) = false ->
   fst (serve P E req (arrival jobs)) = MissingInput)
  /\ (body = JNull -> exists e, fst (serve P E req (arrival jobs)) = Unhandled e)
  /\ ((body = JNull
       \/ Json.truthy (Json.get "document_content" body) = false
          /\ Json.truthy (Json.get "file_path" body) = false) ->
      processing_jobs (snd (serve P E req (arrival jobs))) = jobs
      /\ updates (snd (serve P E req (arrival jobs))) = []
      /\ extracted_entities (snd (serve P E req (arrival jobs))) = []).
Proof.
  intros Hmethod Hbody. unfold serve. rewrite Hmethod.
  change (("POST" =? "OPTIONS")%string) with false.
  change (negb ("POST" =? "POST")%string) with false. cbn iota.
  unfold Http.req_json in Hbody.
  destruct (Http.payload req) as [sent|] eqn:Hsent; [|discriminate].
  run_unfold. rewrite Hsent, Hbody.
  split; [|split].
  - intros Hnull Hdoc Hfile.
    destruct body; try contradiction; cbn in Hdoc, Hfile |- *;
      rewrite ?Hdoc, ?Hfile; reflexivity.
  - intros ->. cbn. now eexists.
  - intros [-> | [Hdoc Hfile]].
    + cbn. now repeat split.
    + destruct body; cbn in Hdoc, Hfile |- *; rewrite ?Hdoc, ?Hfile; cbn;
        now repeat split.
Qed.

Lemma missing_input_refused_witness :
  fst (serve Scenario.platform Scenario.services_up (Samples.post Scenario.user_request)
         (arrival Samples.jobs)) = MissingInput
  /\ processing_jobs
       (snd (serve Scenario.platform Scenario.services_up
               (Samples.post Scenario.user_request) (arrival Samples.jobs)))
     = Samples.jobs.
Proof.
  destruct (missing_input_refused Scenario.platform Scenario.services_up
              (Samples.post Scenario.user_request) Samples.jobs
              (JObj [("user_id", JStr "u-1")]))
    as (Hreply & _ & Hjobs); try reflexivity.
  split; [apply Hreply; [discriminate | reflexivity | reflexivity]|].
  apply Hjobs. right. split; reflexivity.
Defined.

(** X19: when the job id of the request names no row of
    [processing_jobs], the call leaves the table as it was and stores no
    entity, whatever else it does: the updates it issues select no row. *)
Theorem unknown_job_changes_nothing (P : Platform) (E : Services) (req : Request)
    (jobs : gmap string Job) (body : json) :
  Http.req_json P req = Ok body ->
  jobs !! job_key (Json.get "job_id" body) = None ->
  processing_jobs (snd (serve P E req (arrival jobs))) = jobs
  /\ extracted_entities (snd (serve P E req (arrival jobs))) = [].
Proof.
  intros Hbody Hjob. unfold serve.
  destruct (String.eqb _ "OPTIONS"); [now split|].
  destruct (negb _); [now split|].
  unfold Http.req_json in Hbody.
  destruct (Http.payload req) as [sent|] eqn:Hsent; [|discriminate].
  run_unfold. rewrite Hsent, Hbody.
  destruct body; cbn in Hjob; run_cbn; try (now split).
  rewrite ?Hjob.
  repeat (first
            [ match goal with
              | |- context [store_entities ?d None ?w] =>
                  let r := fresh "r" in
                  let H := fresh "H" in
                  destruct (store_entities_no_job d w) as (r & H); rewrite H; clear H;
                  destruct r
              end
            | run_step ];
          run_cbn; rewrite ?Hjob).
  all: cbn -[alter lookup]; rewrite ?(alter_absent _ _ _ Hjob); now split.
Qed.

Lemma unknown_job_changes_nothing_witness :
  processing_jobs
    (snd (serve Scenario.platform Scenario.services_up
            (Samples.post Scenario.stray_job_request) (arrival Samples.jobs)))
  = Samples.jobs
  /\ match fst (serve Scenario.platform Scenario.services_up
                  (Samples.post Scenario.stray_job_request) (arrival Samples.jobs)) with
     | Completed r => reply_job_id r = JStr "job-9"
     | _ => False
     end.
Proof.
  split; [|vm_compute; reflexivity].
  apply (unknown_job_changes_nothing Scenario.platform Scenario.services_up
           (Samples.post Scenario.stray_job_request) Samples.jobs
           (JObj [("document_content", JStr "Invoice 42"); ("job_id", JStr "job-9")]));
    vm_compute; reflexivity.
Defined.

(** X20: a call that answers with success for a job that exists leaves
    that job completed at progress 100 with the extracted data as result, the
    processing time and the completion time, having written the progress
    values 10, 30, 50, 70, 90, 100; the reply carries the job id of the
    request; no other row of the table is changed. *)
Theorem completed_run_record (P : Platform) (E : Services) (req : Request)
    (jobs : gmap string Job) (body : json) (job : Job) (r : Success) (w : World) :
  Http.req_json P req = Ok body ->
  Json.truthy (Json.get "job_id" body) = true ->
  jobs !! job_key (Json.get "job_id" body) = Some job ->
  serve P E req (arrival jobs) = (Completed r, w) ->
  processing_jobs w !! job_key (Json.get "job_id" body)
  = Some {| document_id := document_id job;
            status := job_completed;
            progress := 100;
            result_payload := Some (extracted_data r);
            error_message := error_message job;
            processing_time_ms := Some (finished E - started E);
            completed_at := Some (now_iso E) |}
  /\ progress_written (job_key (Json.get "job_id" body)) w = [10; 30; 50; 70; 90; 100]
  /\ Some (reply_job_id r) = Json.get "job_id" body
  /\ (forall id, id <> job_key (Json.get "job_id" body) ->
        processing_jobs w !! id = jobs !! id).
Proof.
  intros Hbody Hid Hjob. unfold serve.
  destruct (String.eqb _ "OPTIONS"); [discriminate|].
  destruct (negb _); [discriminate|].
  unfold Http.req_json in Hbody.
  destruct (Http.payload req) as [sent|] eqn:Hsent; [|discriminate].
  run_unfold. rewrite Hsent, Hbody.
  destruct body; cbn in Hid; try discriminate.
  run_cbn. cbn in Hjob. rewrite ?Hid, ?Hjob.
  repeat (run_step; run_cbn; rewrite ?Hid, ?Hjob).
  all: intros Hserve; try discriminate Hserve.
  all: inversion Hserve; subst; clear Hserve; cbn -[alter lookup].
  all: rewrite ?String.eqb_refl.
  all: split; [rewrite !lookup_alter_eq, Hjob; reflexivity|].
  all: split; [reflexivity|].
  all: split; [unfold Enhanced.or_else; rewrite Hid;
               destruct (Json.assoc "job_id" fields); [reflexivity | discriminate]|].
  all: intros id Hne; rewrite !lookup_alter_ne by congruence; reflexivity.
Qed.

Lemma completed_run_record_witness :
  exists r w,
    serve Scenario.platform Scenario.services_up (Samples.post Samples.job_request)
      (arrival Samples.jobs) = (Completed r, w)
    /\ processing_jobs w !! "job-1"
       = Some {| document_id := "doc-1"; status := job_completed; progress := 100;
                 result_payload := Some Scenario.extraction_value;
                 error_message := None;
                 processing_time_ms := Some 1500;
                 completed_at := Some "2025-09-09T09:16:16.000Z" |}
    /\ progress_written "job-1" w = [10; 30; 50; 70; 90; 100].
Proof.
  destruct (serve Scenario.platform Scenario.services_up (Samples.post Samples.job_request)
              (arrival Samples.jobs)) as [reply w] eqn:Hrun.
  assert (Hreply : exists r, reply = Completed r /\ extracted_data r = Scenario.extraction_value).
  { apply (f_equal fst) in Hrun. cbn [fst] in Hrun. rewrite <- Hrun.
    vm_compute. eexists. split; reflexivity. }
  destruct Hreply as (r & -> & Hdata).
  exists r, w. split; [reflexivity|].
  destruct (completed_run_record Scenario.platform Scenario.services_up
              (Samples.post Samples.job_request) Samples.jobs
              (JObj [("document_content", JStr "Invoice 42"); ("job_id", JStr "job-1")])
              Samples.pending_job r w)
    as (Hrow & Hprogress & _); try reflexivity; [exact Hrun|].
  split; [|exact Hprogress].
  rewrite <- Hdata. exact Hrow.
Defined.

End JobStoreProps.

(** ** process-documents: points and entity rows *)

Section PointProps.
Import ProcessDocuments.

Lemma show_nat_injective (n m : nat) : Http.show_nat n = Http.show_nat m -> n = m.
Proof.
  unfold Http.show_nat. intros H.
  apply (f_equal NilEmpty.uint_of_string) in H. rewrite !NilEmpty.usu in H.
  injection H as H. apply (f_equal Nat.of_uint) in H.
  now rewrite !DecimalNat.Unsigned.of_to in H.
Qed.

Lemma append_inj_r (a b c : string) : a +:+ b = a +:+ c -> b = c.
Proof.
  induction a as [|x a IH]; [now rewrite !append_nil_l|].
  rewrite !append_cons. intros [= H]. now apply IH.
Qed.

(** X21: [storeInQdrant] sends one point per embedding, in order: the
    point carries the embedding, its index, the chunk at that index when
    there is one, and the id "<document id>_chunk_<index>"; no two points of
    a call have the same id. *)
Theorem points_of_embeddings (embeddings : list (option json)) (texts : list string)
    (documentId : string) :
  let points := points_of embeddings texts documentId in
  map vector points = embeddings
  /\ map chunk_index points = seq 0 (List.length embeddings)
  /\ Forall (fun p =>
               point_text p = nth_error texts (chunk_index p)
               /\ point_id p = documentId +:+ "_chunk_" +:+ Http.show_nat (chunk_index p)
               /\ point_document p = documentId) points
  /\ NoDup (map point_id points).
Proof.
  intros points. subst points. unfold points_of. split; [|split; [|split]].
  - rewrite map_indexed_map. cbn [vector]. rewrite map_indexed_plain. apply map_id.
  - rewrite map_indexed_map. cbn [chunk_index].
    rewrite (map_indexed_seq (fun k => k)). apply map_id.
  - apply map_indexed_Forall. intros k e _. now repeat split.
  - rewrite map_indexed_map. cbn [point_id].
    rewrite (map_indexed_seq (fun k => (documentId ++ "_chunk_" ++ Http.show_nat k)%string)).
    apply NoDup_map_injective; [|apply seq_NoDup].
    intros i j H. apply append_inj_r, append_inj_r in H. now apply show_nat_injective.
Qed.

Lemma insert_entities_rows (documentId : string) (items : list json) :
  Forall (fun e => e <> JNull) items ->
  forall w,
    insert_entities documentId items w
    = (Ok tt, with_entities (extracted_entities w ++ map (Shape.entity_row documentId) items) w).
Proof.
  induction 1 as [|e items He Hitems IH]; intros w.
  - cbn. rewrite app_nil_r. now destruct w.
  - cbn [insert_entities]. unfold mbind, M_bind, lift, required.
    destruct e; try contradiction; cbn -[insert_entities]; rewrite IH;
      cbn; unfold with_entities; cbn; now rewrite <- app_assoc.
Qed.

(** X22: for a job record with a document, Step 5 stores one row per
    entity of the extracted data, in order, each under the document of the
    job and with the type, value and confidence of the entity; without a job
    record it stores nothing. *)
Theorem store_entities_rows (data : json) (items : list json) (job : Job) (w : World) :
  Json.get "entities" data = Some (JArr items) ->
  Forall (fun e => e <> JNull) items ->
  document_id job <> EmptyString ->
  store_entities data (Some job) w
  = (Ok tt,
     with_entities (extracted_entities w ++ map (Shape.entity_row (document_id job)) items) w)
  /\ store_entities data None w = (Ok tt, w).
Proof.
  intros Hentities Hitems Hdoc.
  apply nonempty_true in Hdoc.
  unfold store_entities, mbind, M_bind, lift, required.
  destruct data; try discriminate. cbn [Json.get] in Hentities |- *.
  rewrite Hentities. cbn [Json.truthy andb]. rewrite Hdoc.
  cbn [Enhanced.or_else Json.truthy iterate].
  rewrite (insert_entities_rows _ _ Hitems). split; reflexivity.
Qed.

Lemma store_entities_rows_witness :
  store_entities Scenario.extraction_value (Some Samples.pending_job) (arrival Samples.jobs)
  = (Ok tt,
     with_entities
       [ {| entity_document_id := "doc-1";
            entity_type := Some (JStr "supplier");
            entity_value := Some (JStr "Acme Co");
            confidence := Some (JNum true "0.9") |} ]
       (arrival Samples.jobs)).
Proof.
  destruct (store_entities_rows Scenario.extraction_value
              [JObj [("type", JStr "supplier"); ("value", JStr "Acme Co");
                     ("confidence", JNum true "0.9")]]
              Samples.pending_job (arrival Samples.jobs)) as [Hrows _];
    [reflexivity | repeat constructor; discriminate | discriminate |].
  exact Hrows.
Defined.

End PointProps.

(** ** The enhanced pipeline: replies of the orchestrator *)

Section EnhancedReplies.
Import Enhanced.

(** X23: a request whose body is missing, is not JSON, or holds no truthy
    content is answered with the 400 "No content provided" reply, whatever
    the services would answer. *)
Theorem enhanced_no_content (P : Platform) (E : Services) (req : Request) :
  Http.method req <> "OPTIONS" ->
  ((forall e, Http.req_json P req = Throw e -> serve P E req = NoContent)
   /\ (Json.truthy (Json.get "content" (Http.req_json_or_empty P req)) = false ->
       serve P E req = NoContent))
  /\ status_code NoContent = 400.
Proof.
  intros Hmethod.
  assert (Hm : String.eqb (Http.method req) "OPTIONS" = false) by now apply String.eqb_neq.
  assert (Hfalsy : Json.truthy (Json.get "content" (Http.req_json_or_empty P req)) = false ->
                   serve P E req = NoContent).
  { intros Hcontent. unfold serve. rewrite Hm. unfold or_else.
    destruct (Json.get "content" _); [rewrite Hcontent|]; reflexivity. }
  split; [|reflexivity]. split; [|exact Hfalsy].
  intros e He. apply Hfalsy. unfold Http.req_json_or_empty. now rewrite He.
Qed.

Lemma enhanced_no_content_witness :
  serve Samples.platform Samples.embeddings_down (Samples.post "not json") = NoContent
  /\ serve Samples.platform Samples.embeddings_down (Samples.post "{}") = NoContent.
Proof.
  split.
  - destruct (enhanced_no_content Samples.platform Samples.embeddings_down
                (Samples.post "not json")) as [[Hthrow _] _]; [discriminate|].
    apply (Hthrow (Http.SyntaxError "Unexpected token in JSON")). reflexivity.
  - destruct (enhanced_no_content Samples.platform Samples.embeddings_down
                (Samples.post "{}")) as [[_ Hfalsy] _]; [discriminate|].
    apply Hfalsy. reflexivity.
Defined.

(** X24: when the model service answers with a status outside 200-299,
    the call is answered with the 500 reply whose error is
    "Error: AI Analysis failed: " followed by the status text; no later stage
    changes that. *)
Theorem enhanced_model_failure (P : Platform) (E : Services) (req : Request)
    (content : string) (status : Z) (statusText body : string) :
  Http.method req <> "OPTIONS" ->
  Json.get "content" (Http.req_json_or_empty P req) = Some (JStr content) ->
  content <> EmptyString ->
  chat_completions E (contextInfo (Layout.parseLayout (Layout.performOCR content)))
  = Responded status statusText body ->
  Http.ok_status status = false ->
  serve P E req = Failed ("Error: AI Analysis failed: " +:+ statusText)
  /\ status_code (serve P E req) = 500.
Proof.
  intros Hmethod Hcontent Hne Hchat Hstatus.
  assert (Hm : String.eqb (Http.method req) "OPTIONS" = false) by now apply String.eqb_neq.
  apply nonempty_true in Hne.
  assert (Hserve : serve P E req = Failed ("Error: AI Analysis failed: " +:+ statusText)).
  { unfold serve. rewrite Hm, Hcontent. unfold or_else. cbn [Json.truthy]. rewrite Hne.
    cbn [negb]. unfold process, performAIAnalysis.
    cbn [mbind result_bind Http.bind]. rewrite Hchat.
    cbn [Http.await_fetch mbind result_bind Http.bind]. rewrite Hstatus.
    cbn [negb mbind result_bind Http.bind Json.truthy]. rewrite Hne. reflexivity. }
  now rewrite Hserve.
Qed.

Lemma enhanced_model_failure_witness :
  serve Samples.platform Scenario.enhanced_model_busy (Samples.post Samples.content_request)
  = Failed "Error: AI Analysis failed: Too Many Requests".
Proof.
  apply (enhanced_model_failure Samples.platform Scenario.enhanced_model_busy
           (Samples.post Samples.content_request) Samples.document
           429 "Too Many Requests" EmptyString);
    [discriminate | reflexivity | discriminate | reflexivity | reflexivity].
Defined.

(** X25: a processed reply reports the five steps ocr, layout, ai, vector
    and validation in this order, all of them "completed" except that the
    vector step may be "error"; its OCR result and layout are those of the
    content of the request, and its validation is the validation of the
    extracted data it reports. *)
Theorem enhanced_processed_reply (P : Platform) (E : Services) (req : Request)
    (r : ProcessingResponse) :
  serve P E req = Processed r ->
  map id (steps r) = ["ocr"; "layout"; "ai"; "vector"; "validation"]
  /\ (exists vector_status,
        map status (steps r) = [completed; completed; completed; vector_status; completed]
        /\ (vector_status = completed \/ vector_status = error))
  /\ (exists content,
        Json.get "content" (Http.req_json_or_empty P req) = Some (JStr content)
        /\ ocrResult r = Layout.performOCR content
        /\ Layout.text (layoutResult r) = content)
  /\ layoutResult r = Layout.parseLayout (ocrResult r)
  /\ validation r = Validator.validateDocument (response_extracted r).
Proof.
  unfold serve. destruct (String.eqb _ _); [discriminate|].
  destruct (negb _) eqn:Htruthy; [discriminate|].
  destruct (process P E _) as [r'|e] eqn:Hprocess; [|discriminate].
  intros [= ->]. revert Hprocess. unfold process.
  destruct (or_else _ _) as [| | |content| |] eqn:Hcontent;
    cbn [mbind result_bind Http.bind]; try discriminate.
  destruct (performAIAnalysis P E _) as [analysis|e]; cbn [mbind result_bind Http.bind];
    [|discriminate].
  destruct (embeddings_preview _) as [preview|e]; cbn [mbind result_bind Http.bind];
    [|discriminate].
  destruct (Throwing.validateDocument _) as [checked|e] eqn:Hchecked;
    cbn [mbind result_bind Http.bind]; [|discriminate].
  apply validateDocument_returns in Hchecked.
  intros [= <-]. cbn [steps ocrResult layoutResult validation response_extracted].
  split; [reflexivity|]. split; [|split; [|split; [reflexivity | exact Hchecked]]].
  - destruct (storeChunksInVectorDB E _ _); eexists; (split; [reflexivity|]); tauto.
  - exists content. split; [|split; [reflexivity | apply parseLayout_text]].
    cbn in Htruthy. apply negb_false_iff in Htruthy.
    unfold or_else in Hcontent.
    destruct (Json.get "content" _) as [v|];
      [destruct (Json.truthy (Some v)); [now subst v|] |];
      injection Hcontent as <-; discriminate.
Qed.

Lemma enhanced_processed_reply_witness :
  exists r,
    serve Samples.platform Samples.embeddings_down (Samples.post Samples.content_request)
    = Processed r
    /\ map id (steps r) = ["ocr"; "layout"; "ai"; "vector"; "validation"]
    /\ validation r = Validator.validateDocument (response_extracted r).
Proof.
  destruct (serve Samples.platform Samples.embeddings_down
              (Samples.post Samples.content_request)) as [| |r|] eqn:Hserve;
    try (vm_compute in Hserve; discriminate).
  exists r. split; [reflexivity|].
  destruct (enhanced_processed_reply Samples.platform Samples.embeddings_down
              (Samples.post Samples.content_request) r Hserve) as (Hids & _ & _ & _ & Hval).
  now split.
Defined.

End EnhancedReplies.

(** ** analyze-docs: failures of the model call *)

Section AnalyzeDocsReplies.
Import AnalyzeDocs.

(** X26: once analyze-docs has a content, every failure of the model call
    is answered with status 500 after the one call: a response outside
    200-299 with the body of that response as detail, a rejected fetch and a
    response body that is not JSON with the text of the error. *)
Theorem analyze_docs_model_failure (P : Platform) (E : Services) (req : Request)
    (content : string) :
  Http.method req <> "OPTIONS" ->
  content_of (Http.req_json_or_empty P req) = Ok (JStr content) ->
  content <> EmptyString ->
  (forall status statusText body,
      chat_completions E content = Responded status statusText body ->
      Http.ok_status status = false ->
      serve P E req = (ApiError body, [content]))
  /\ (forall e,
        chat_completions E content = NetworkError e ->
        serve P E req = (Failed (Http.exn_String e), [content]))
  /\ (forall status statusText body,
        chat_completions E content = Responded status statusText body ->
        Http.ok_status status = true ->
        Http.JSON_parse P body = None ->
        exists error, serve P E req = (Failed error, [content]))
  /\ (forall detail error,
        status_code (ApiError detail) = 500 /\ status_code (Failed error) = 500).
Proof.
  intros Hmethod Hcontent Hne.
  assert (Hm : String.eqb (Http.method req) "OPTIONS" = false) by now apply String.eqb_neq.
  apply nonempty_true in Hne.
  assert (Hserve : serve P E req = (after_fetch P (chat_completions E content), [content])).
  { unfold serve. now rewrite Hm, Hcontent, Hne. }
  rewrite Hserve. split; [|split; [|split]].
  - intros status statusText body -> Hstatus. cbn [after_fetch]. now rewrite Hstatus.
  - now intros e ->.
  - intros status statusText body -> Hstatus Hparse. cbn [after_fetch]. rewrite Hstatus.
    unfold Http.parse. rewrite Hparse. now eexists.
  - now split.
Qed.

Lemma analyze_docs_model_failure_witness :
  serve Samples.platform Scenario.refusing_model (Samples.post Samples.content_request)
  = (ApiError "invalid api key", [Samples.document]).
Proof.
  destruct (analyze_docs_model_failure Samples.platform Scenario.refusing_model
              (Samples.post Samples.content_request) Samples.document)
    as (Hstatus & _); [discriminate | reflexivity | discriminate |].
  apply (Hstatus 401 "Unauthorized" "invalid api key"); reflexivity.
Defined.

End AnalyzeDocsReplies.

(** ** The basic pipeline *)

Section BasicProps.
Import RegExp.

Lemma substring_all (s : string) : String.substring 0 (String.length s) s = s.
Proof. induction s as [|c s IH]; [reflexivity|]. cbn. now rewrite IH. Qed.

Lemma take_substring_from (n : nat) :
  forall s, JS.take n s +:+ Basic.substring_from n s = s.
Proof.
  unfold JS.take, Basic.substring_from. induction n as [|n IH]; intros s.
  - rewrite Nat.sub_0_r, substring_all. now destruct s.
  - destruct s as [|c s]; [reflexivity|].
    cbn [String.substring String.length Nat.sub]. rewrite append_cons. now rewrite IH.
Qed.

Lemma length_take_le (n : nat) : forall s, (String.length (JS.take n s) <= n)%nat.
Proof.
  unfold JS.take. induction n as [|n IH]; intros s; [destruct s; cbn; lia|].
  destruct s as [|c s]; cbn; [lia|]. specialize (IH s). lia.
Qed.

Lemma take_all (n : nat) : forall s, (String.length s <= n)%nat -> JS.take n s = s.
Proof.
  unfold JS.take. induction n as [|n IH]; intros s Hn.
  - destruct s; [reflexivity | cbn in Hn; lia].
  - destruct s as [|c s]; [reflexivity|]. cbn. rewrite IH; [reflexivity|].
    cbn [String.length] in Hn. lia.
Qed.

(** X27: the layout stage of the basic pipeline cuts the content in two:
    the header section holds its first 100 characters at most, the body
    section the rest, and header and body together are the content; the
    text of the layout is the content itself. *)
Theorem basic_layout_sections (content : string) :
  exists header body footer layout,
    Basic.parseLayout (Basic.performOCR (JStr content)) = Ok layout
    /\ Basic.text layout = content
    /\ Basic.sections layout = [header; body; footer]
    /\ Basic.content header +:+ Basic.content body = content
    /\ JS.len (Basic.content header) <= 100
    /\ (JS.len content <= 100 -> Basic.content body = EmptyString).
Proof.
  eexists _, _, _, _. split; [reflexivity|]. cbn [Basic.text Basic.sections Basic.content].
  split; [reflexivity|]. split; [reflexivity|]. cbn [Basic.content].
  split; [apply take_substring_from|]. split.
  - unfold JS.len. pose proof (length_take_le 100 content). lia.
  - unfold JS.len. intros Hshort.
    pose proof (take_substring_from 100 content) as Hcut.
    assert (Htake : JS.take 100 content = content) by (apply take_all; lia).
    rewrite Htake in Hcut. rewrite <- (append_nil_r content) in Hcut at 3.
    now apply append_inj_r in Hcut.
Qed.

Lemma basic_validate_unfold (extracted : json) :
  extracted <> JNull ->
  Basic.validateDocument extracted
  = (invoice ← Throwing.format_warning (Json.get "invoiceNumber" extracted)
                 (test Basic.invoice_re) Basic.invoice_msg;
     hs ← Throwing.format_warning (Json.get "hsCode" extracted) (test Validator.hs_re)
            Basic.hs_msg;
     container ← Throwing.format_warning (Json.get "containerNo" extracted)
                   (test Validator.container_re) Basic.container_msg;
     let errors :=
       flat_map (fun field =>
                   if negb (Json.truthy (Json.get field extracted))
                   then [Validator.missing_msg field] else [])
                ["supplier"; "buyer"; "product"] in
     Ok {| Validator.passed := Nat.eqb (List.length errors) 0;
           Validator.errors := errors;
           Validator.warnings :=
             invoice ++ hs ++ container
             ++ Basic.weight_warnings (Json.get "weight" extracted) |}).
Proof. destruct extracted; [contradiction | reflexivity..]. Qed.

(** What the basic validator returns, when it returns. *)
Lemma basic_returns (extracted : json) (r : Validator.ValidationResult) :
  Basic.validateDocument extracted = Ok r ->
  extracted <> JNull
  /\ Forall (fun field =>
               forall x, Json.get field extracted = Some x ->
                         Json.truthy (Some x) = true -> Json.converts x = true)
            ["invoiceNumber"; "hsCode"; "containerNo"]
  /\ Validator.errors r
     = flat_map (fun field =>
                   if negb (Json.truthy (Json.get field extracted))
                   then [Validator.missing_msg field] else [])
                ["supplier"; "buyer"; "product"]
  /\ Validator.passed r = Nat.eqb (List.length (Validator.errors r)) 0
  /\ Validator.warnings r
     = Validator.format_warning (Json.get "invoiceNumber" extracted) (test Basic.invoice_re)
         Basic.invoice_msg
       ++ Validator.format_warning (Json.get "hsCode" extracted) (test Validator.hs_re)
            Basic.hs_msg
       ++ Validator.format_warning (Json.get "containerNo" extracted)
            (test Validator.container_re) Basic.container_msg
       ++ Basic.weight_warnings (Json.get "weight" extracted).
Proof.
  intros Hbasic.
  assert (Hnull : extracted <> JNull) by (intros ->; discriminate).
  rewrite (basic_validate_unfold _ Hnull) in Hbasic.
  destruct (format_warning_cases (Json.get "invoiceNumber" extracted)
              (test Basic.invoice_re) Basic.invoice_msg) as [[H1 C1] | [H1 _]];
    rewrite H1 in Hbasic; cbn [mbind result_bind Http.bind] in Hbasic; [|discriminate].
  destruct (format_warning_cases (Json.get "hsCode" extracted)
              (test Validator.hs_re) Basic.hs_msg) as [[H2 C2] | [H2 _]];
    rewrite H2 in Hbasic; cbn [mbind result_bind Http.bind] in Hbasic; [|discriminate].
  destruct (format_warning_cases (Json.get "containerNo" extracted)
              (test Validator.container_re) Basic.container_msg) as [[H3 C3] | [H3 _]];
    rewrite H3 in Hbasic; cbn [mbind result_bind Http.bind] in Hbasic; [|discriminate].
  injection Hbasic as <-. split; [exact Hnull|]. split; [|now repeat split].
  repeat constructor; assumption.
Qed.

(** The format rules of the basic validator do not touch the errors. *)
Lemma basic_errors (extracted : json) (r : Validator.ValidationResult) :
  Basic.validateDocument extracted = Ok r ->
  Validator.errors r
  = flat_map (fun field =>
                if negb (Json.truthy (Json.get field extracted))
                then [Validator.missing_msg field] else [])
             ["supplier"; "buyer"; "product"]
  /\ Validator.passed r = Nat.eqb (List.length (Validator.errors r)) 0.
Proof.
  intros Hbasic. destruct (basic_returns _ _ Hbasic) as (_ & _ & Herrors & Hpassed & _).
  now split.
Qed.

(** X28: the basic validator throws exactly on [null] and on a document
    whose invoice number, HS code or container number is truthy and does not
    convert to a string.  When it returns, it reports a required field
    missing only where the enhanced validator does too, so a document that
    passes the enhanced validator passes the basic one: the enhanced
    validator alone rejects a field of white space. *)
Theorem basic_validator_weaker (extracted : json) :
  match Basic.validateDocument extracted with
  | Ok r =>
      extracted <> JNull
      /\ Forall (fun field =>
                   forall x, Json.get field extracted = Some x ->
                             Json.truthy (Some x) = true -> Json.converts x = true)
                ["invoiceNumber"; "hsCode"; "containerNo"]
      /\ incl (Validator.errors r) (Validator.errors (Validator.validateDocument extracted))
      /\ (Validator.passed (Validator.validateDocument extracted) = true ->
          Validator.passed r = true)
  | Throw _ =>
      extracted = JNull
      \/ Exists (fun field =>
                   exists x, Json.get field extracted = Some x
                             /\ Json.truthy (Some x) = true /\ Json.converts x = false)
                ["invoiceNumber"; "hsCode"; "containerNo"]
  end.
Proof.
  destruct (Basic.validateDocument extracted) as [r|e] eqn:Hbasic.
  - destruct (basic_returns extracted r Hbasic) as (Hnull & Hconverts & Herrors & Hpassed & _).
    assert (Hincl : incl (Validator.errors r)
                         (Validator.errors (Validator.validateDocument extracted))).
    { rewrite Herrors, errors_unfold. cbn [flat_map]. rewrite app_nil_r.
      unfold Validator.missing.
      destruct (Json.truthy (Json.get "supplier" extracted)),
               (Json.truthy (Json.get "buyer" extracted)),
               (Json.truthy (Json.get "product" extracted));
        cbn [negb orb app];
        repeat match goal with
               | |- context [if ?b then _ else _] => destruct b
               end;
        intros x Hx; cbn in Hx |- *; tauto. }
    split; [exact Hnull|]. split; [exact Hconverts|]. split; [exact Hincl|].
    intros Hpass. apply passed_iff_no_errors in Hpass. rewrite Hpass in Hincl.
    rewrite Hpassed. destruct (Validator.errors r) as [|x l]; [reflexivity|].
    destruct (Hincl x (or_introl eq_refl)).
  - destruct extracted as [|b|nonzero shown|s|items|fields] eqn:Hshape; [now left|..]; right;
      rewrite <- Hshape in *;
      (assert (Hnull : extracted <> JNull) by (rewrite Hshape; discriminate));
      rewrite (basic_validate_unfold _ Hnull) in Hbasic.
    all: destruct (format_warning_cases (Json.get "invoiceNumber" extracted)
                     (test Basic.invoice_re) Basic.invoice_msg) as [[H1 _] | [_ H1]];
      [rewrite H1 in Hbasic; cbn [mbind result_bind Http.bind] in Hbasic
      | now apply Exists_cons_hd].
    all: destruct (format_warning_cases (Json.get "hsCode" extracted)
                     (test Validator.hs_re) Basic.hs_msg) as [[H2 _] | [_ H2]];
      [rewrite H2 in Hbasic; cbn [mbind result_bind Http.bind] in Hbasic
      | now apply Exists_cons_tl, Exists_cons_hd].
    all: destruct (format_warning_cases (Json.get "containerNo" extracted)
                     (test Validator.container_re) Basic.container_msg) as [[H3 _] | [_ H3]];
      [rewrite H3 in Hbasic; cbn [mbind result_bind Http.bind] in Hbasic; discriminate
      | now apply Exists_cons_tl, Exists_cons_tl, Exists_cons_hd].
Qed.

(** An invoice number that is an object with a key toString makes the
    basic validator throw. *)
Example basic_validator_throws :
  Basic.validateDocument (JObj [("invoiceNumber", JObj [("toString", JNum true "1")])])
  = Throw Throwing.cannot_convert.
Proof. reflexivity. Qed.

(** A supplier of white space passes the basic validator and fails the
    enhanced one. *)
Example blank_supplier_passes_basic :
  Basic.validateDocument
    (JObj [("supplier", JStr "  "); ("buyer", JStr "Globex"); ("product", JStr "Lamps")])
  = Ok {| Validator.passed := true; Validator.errors := []; Validator.warnings := [] |}
  /\ Validator.passed
       (Validator.validateDocument
          (JObj [("supplier", JStr "  "); ("buyer", JStr "Globex"); ("product", JStr "Lamps")]))
     = false.
Proof. split; vm_compute; reflexivity. Qed.

End BasicProps.

(** *** The weight rule of the basic validator *)

Section BasicWeight.
Import RegExp.

(** A non-empty run of digits ends with a digit. *)
Lemma digits_last (x : string) :
  Spec.every JS.is_digit x = true -> x <> EmptyString ->
  exists x' d, x = x' +:+ String d EmptyString /\ JS.is_digit d = true.
Proof.
  induction x as [|c x IH]; [congruence|]. cbn [Spec.every].
  intros H _. apply andb_true_iff in H as [Hc Hx].
  destruct x as [|c' x].
  - now exists EmptyString, c.
  - destruct (IH Hx) as (x' & d & Heq & Hd); [discriminate|].
    exists (String c x'), d. rewrite append_cons, <- Heq. now split.
Qed.

Lemma basic_number_last (num : string) :
  lang Basic.number_re num ->
  exists num' d, num = num' +:+ String d EmptyString /\ JS.is_digit d = true.
Proof.
  unfold Basic.number_re. rewrite lang_cat.
  intros (int & rest & -> & Hint & Hrest).
  apply lang_plus_chars in Hint as [Hint Hne].
  apply lang_opt in Hrest as [Hrest | ->].
  - apply lang_cat in Hrest as (dot & frac & -> & _ & Hfrac).
    apply lang_plus_chars in Hfrac as [Hfrac Hfne].
    destruct (digits_last frac Hfrac Hfne) as (frac' & d & -> & Hd).
    exists (int +:+ dot +:+ frac'), d. now rewrite !append_assoc.
  - destruct (digits_last int Hint Hne) as (int' & d & -> & Hd).
    exists int', d. now rewrite append_nil_r.
Qed.

Lemma basic_unit_start (unit : string) :
  lang Basic.unit_re unit ->
  exists u rest, unit = u +:+ rest /\ In (Spec.lower u) ["kg"; "lb"].
Proof.
  unfold Basic.unit_re. intros [Hkg | Hlb].
  - apply lang_LitCI in Hkg. exists unit, EmptyString. rewrite append_nil_r.
    split; [reflexivity|]. left. now rewrite Hkg.
  - apply lang_cat in Hlb as (u & rest & -> & Hu & _). apply lang_LitCI in Hu.
    exists u, rest. split; [reflexivity|]. right. left. now rewrite Hu.
Qed.

(** The weight pattern of the basic validator is found exactly where a
    digit is followed, after any white space, by kg or lb: the digits
    before, the fraction and the plural s make no difference. *)
Lemma basic_weight_found (s : string) :
  exec Basic.weight_re s = None <-> ~ Shape.digit_then_kg_or_lb s.
Proof.
  rewrite exec_none_lang by reflexivity. apply not_iff_compat. split.
  - intros (pre & w & post & -> & Hw). unfold Basic.weight_re in Hw.
    apply lang_cat in Hw as (num & w' & -> & Hnum & Hw').
    apply lang_cat in Hw' as (ws & unit & -> & Hws & Hunit).
    cbn [lang] in Hnum. fold (lang Basic.number_re num) in Hnum.
    cbn [lang] in Hunit. fold (lang Basic.unit_re unit) in Hunit.
    apply lang_star_chars in Hws.
    destruct (basic_number_last num Hnum) as (num' & d & -> & Hd).
    destruct (basic_unit_start unit Hunit) as (u & rest & -> & Hu).
    exists (pre +:+ num'), d, ws, u, (rest +:+ post).
    split; [|now repeat split].
    repeat (progress rewrite ?append_assoc, ?append_cons, ?append_nil_l). reflexivity.
  - intros (pre & d & ws & unit & post & -> & Hd & Hws & Hunit).
    exists pre, (String d EmptyString +:+ ws +:+ unit), post. split.
    + repeat (progress rewrite ?append_assoc, ?append_cons, ?append_nil_l). reflexivity.
    + unfold Basic.weight_re. apply lang_cat.
      exists (String d EmptyString), (ws +:+ unit). split; [reflexivity|]. split.
      * cbn [lang]. fold (lang Basic.number_re (String d EmptyString)).
        unfold Basic.number_re. apply lang_cat.
        exists (String d EmptyString), EmptyString. split; [reflexivity|].
        split; [|now right]. apply lang_plus_chars. cbn. rewrite Hd.
        split; [reflexivity | discriminate].
      * apply lang_cat. exists ws, unit. split; [reflexivity|].
        split; [now apply lang_star_chars|].
        cbn [lang]. fold (lang Basic.unit_re unit). unfold Basic.unit_re.
        cbn [In] in Hunit. destruct Hunit as [Hkg | [Hlb | []]].
        -- left. apply lang_LitCI. now rewrite <- Hkg.
        -- right. apply lang_cat. exists unit, EmptyString. rewrite append_nil_r.
           split; [reflexivity|]. split; [|now right].
           apply lang_LitCI. now rewrite <- Hlb.
Qed.

Lemma basic_warnings (extracted : json) (r : Validator.ValidationResult) :
  Basic.validateDocument extracted = Ok r ->
  Validator.warnings r
  = Validator.format_warning (Json.get "invoiceNumber" extracted) (test Basic.invoice_re)
      Basic.invoice_msg
    ++ Validator.format_warning (Json.get "hsCode" extracted) (test Validator.hs_re)
         Basic.hs_msg
    ++ Validator.format_warning (Json.get "containerNo" extracted)
         (test Validator.container_re) Basic.container_msg
    ++ Basic.weight_warnings (Json.get "weight" extracted).
Proof.
  intros Hbasic. now destruct (basic_returns _ _ Hbasic) as (_ & _ & _ & _ & Hwarnings).
Qed.

(** X29: the basic validator warns about the weight exactly when the
    weight is a non-empty string in which no digit is followed, after any
    white space, by kg or lb in either case; the value is never looked at,
    and a weight that is not a string is never warned about. *)
Theorem basic_weight_rule (extracted : json) (r : Validator.ValidationResult) :
  Basic.validateDocument extracted = Ok r ->
  In Basic.weight_msg (Validator.warnings r)
  <-> exists s, Json.get "weight" extracted = Some (JStr s)
                /\ s <> EmptyString /\ ~ Shape.digit_then_kg_or_lb s.
Proof.
  intros Hbasic.
  assert (Hwarnings :
            In Basic.weight_msg (Validator.warnings r)
            <-> In Basic.weight_msg (Basic.weight_warnings (Json.get "weight" extracted))).
  { rewrite (basic_warnings extracted r Hbasic), !in_app_iff. split; [|tauto].
    intros [H | [H | [H | H]]]; try exact H;
      apply in_format_warning in H; vm_compute in H; discriminate. }
  rewrite Hwarnings. unfold Basic.weight_warnings.
  destruct (Json.get "weight" extracted) as [[| | |s| |]|];
    cbn [Json.truthy Json.is_string andb];
    try (rewrite ?andb_false_r; split; [intros [] | intros (s' & Hs' & _); discriminate]).
  cbn [Json.to_String_opt Json.to_String].
  destruct (JS.nonempty s) eqn:Hne.
  - apply nonempty_true in Hne.
    destruct (exec Basic.weight_re s) as [m|] eqn:Hexec.
    + split; [intros []|]. intros (s' & [= <-] & _ & Hnot).
      apply basic_weight_found in Hnot. congruence.
    + apply basic_weight_found in Hexec. split; [|intros _; now left].
      intros _. now exists s.
  - apply nonempty_false in Hne. subst s. split; [intros []|].
    intros (s' & [= <-] & Hs' & _). congruence.
Qed.

(** "about 2 tons" holds a digit, but no kg or lb after it. *)
Lemma basic_weight_rule_witness :
  exists r,
    Basic.validateDocument (JObj [("weight", JStr "about 2 tons")]) = Ok r
    /\ In Basic.weight_msg (Validator.warnings r).
Proof.
  destruct (Basic.validateDocument (JObj [("weight", JStr "about 2 tons")])) as [r|e] eqn:Hr;
    [|vm_compute in Hr; discriminate].
  exists r. split; [reflexivity|].
  apply (basic_weight_rule (JObj [("weight", JStr "about 2 tons")]) r Hr).
  exists "about 2 tons". split; [reflexivity|]. split; [discriminate|].
  apply basic_weight_found. vm_compute. reflexivity.
Defined.

(** Any weight passes with a digit before kg: the dot needs no digits
    around it and the number may be zero. *)
Example basic_weight_examples :
  Basic.weight_warnings (Some (JStr "0 kg")) = []
  /\ Basic.weight_warnings (Some (JStr "x9LBS")) = []
  /\ Basic.weight_warnings (Some (JStr "2 tons")) = [Basic.weight_msg]
  /\ Basic.weight_warnings (Some (JNum true "12")) = [].
Proof. repeat split; vm_compute; reflexivity. Qed.

End BasicWeight.

(** *** Replies of the basic orchestrator *)

Section BasicReplies.
Import Basic.

(** X30: in the basic pipeline a failing embedding call is absorbed: the
    stage answers an empty embedding, and the reply is processed with an
    empty embedding when the validator returns, and is the 500 reply when
    the validator throws.  An answer of the embedding service that holds no
    vector is not absorbed: the stage returns [undefined], taking its first
    ten components throws, and the call is answered with status 500. *)
Theorem basic_embedding_outcomes (P : Platform) (E : Services) (req : Request)
    (content : string) (data : json) :
  Http.method req <> "OPTIONS" ->
  Json.get "content" (Http.req_json_or_empty P req) = Some (JStr content) ->
  content <> EmptyString ->
  performAIAnalysis P E content = Ok data ->
  (match embeddings_api E content with
   | NetworkError _ => True
   | Responded status _ _ => Http.ok_status status = false
   end ->
   generateEmbeddings P E content = Some (JArr [])
   /\ (forall checked,
         validateDocument data = Ok checked ->
         exists r, serve P E req = Processed r /\ embeddings r = JArr []
                   /\ extracted r = data /\ validation r = checked)
   /\ (forall e,
         validateDocument data = Throw e ->
         (exists error, serve P E req = Failed error)
         /\ status_code (serve P E req) = 500))
  /\ (generateEmbeddings P E content = None ->
      (exists error, serve P E req = Failed error) /\ status_code (serve P E req) = 500).
Proof.
  intros Hmethod Hcontent Hne Hai.
  assert (Hm : String.eqb (Http.method req) "OPTIONS" = false) by now apply String.eqb_neq.
  apply nonempty_true in Hne.
  assert (Hserve : serve P E req
                   = match process P E (JStr content) with
                     | Ok r => Processed r
                     | Throw e => Failed (Http.exn_String e)
                     end).
  { unfold serve. rewrite Hm, Hcontent. unfold Enhanced.or_else.
    cbn [Json.truthy]. rewrite Hne. cbn [negb Json.truthy]. now rewrite Hne. }
  rewrite Hserve. unfold process.
  cbn [performOCR parseLayout mbind result_bind Http.bind text]. rewrite Hai.
  cbn [mbind result_bind Http.bind]. split.
  - intros Hfail.
    assert (Hempty : generateEmbeddings P E content = Some (JArr [])).
    { unfold generateEmbeddings, embedding_of_response.
      destruct (embeddings_api E content) as [e|status statusText body]; [reflexivity|].
      cbn [Http.await_fetch mbind result_bind Http.bind]. now rewrite Hfail. }
    split; [exact Hempty|]. rewrite Hempty. cbn [slice10 firstn mbind result_bind Http.bind].
    split.
    + intros checked ->. cbn [mbind result_bind Http.bind].
      eexists. split; [reflexivity|]. now repeat split.
    + intros e ->. split; [now eexists | reflexivity].
  - intros ->. cbn [slice10 mbind result_bind Http.bind]. split; [now eexists | reflexivity].
Qed.

Lemma basic_embedding_outcomes_witness :
  status_code (serve Scenario.platform Scenario.basic_hollow
                 (Samples.post Samples.content_request)) = 500
  /\ exists r,
       serve Scenario.platform Scenario.basic_embeddings_down
         (Samples.post Samples.content_request) = Processed r
       /\ embeddings r = JArr [].
Proof.
  split.
  - destruct (basic_embedding_outcomes Scenario.platform Scenario.basic_hollow
                (Samples.post Samples.content_request) Samples.document
                Scenario.extraction_value) as [_ Hhollow];
      [discriminate | reflexivity | discriminate | reflexivity |].
    apply Hhollow. reflexivity.
  - destruct (basic_embedding_outcomes Scenario.platform Scenario.basic_embeddings_down
                (Samples.post Samples.content_request) Samples.document
                Scenario.extraction_value) as [Hdown _];
      [discriminate | reflexivity | discriminate | reflexivity |].
    destruct (Hdown eq_refl) as (_ & Hreturns & _).
    destruct (Hreturns _ eq_refl) as (r & Hserve & Hempty & _).
    now exists r.
Defined.

End BasicReplies.
